(** * christmas-tree-simulator: coordinate decoders, animation decoder,
      coordinate mapping and the playback controller of [src/index.js]. *)

(** Modelling conventions.

- JavaScript numbers are binary64 values.  They are modelled by [num]: a
  finite value is the rational it denotes, beside the three special values
  [PInf], [NInf] and [NaN].  Sums, products and quotients are rounded to
  the nearest double, ties to even, and overflow to an infinity
  ([Num.round]); [%], [Math.floor] and [Math.max] are exact, as they are on
  doubles.  The special values arise the way they do in the language:
  division by zero, overflow, [Infinity % x], [x % 0], [0 * Infinity].
  The two zeros are identified: the one operation of the program that
  tells them apart is [1 / baseFrameRate], for a caller that passes [-0],
  an input that is left out.
  The numbers a caller supplies (options, arguments) are finite doubles.
  They have type [Q], so that a statement over every rational covers them;
  [representable] says that a rational is a double, and [Num.double_of]
  names the double that a decimal literal denotes.
- Strings are [string]: sequences of characters with a code below 256
  (white space and letters beyond that range are left out).
- A thrown exception is a [Raise] in the [result] type; a [throw "text"] of
  the source is [Thrown "text"], an exception raised by the runtime itself
  (reading a property of [null] or [undefined], calling a non-function) is
  [TypeError].
- Arrays with holes (built by index assignment past the end) are lists of
  options: [None] is a hole.
- JSON objects do not occur in coordinate files and are left out of
  [value]. *)

From Stdlib Require Import ZArith QArith Qround Qpower Qabs.
From Stdlib Require Import List String Ascii Bool Lia Lqa.
From Stdlib Require Import DecimalString.
From Stdlib Require Qcanon.
Import ListNotations.

Set Implicit Arguments.
Set Warnings "-register-all".

(** ** Results of fallible code *)

Inductive exn : Type :=
| Thrown (msg : string)
| TypeError
| SyntaxError.

Inductive result (A : Type) : Type :=
| Ok (a : A)
| Raise (e : exn).

Arguments Ok {A} a.
Arguments Raise {A} e.

Definition bind {A B : Type} (r : result A) (k : A -> result B) : result B :=
  match r with
  | Ok a => k a
  | Raise e => Raise e
  end.

Notation "x <- r ;; k" := (bind r (fun x => k))
  (at level 61, r at next level, right associativity).

(** ** Numbers *)

Module Num.

Inductive num : Type :=
| Fin (q : Q)
| PInf
| NInf
| NaN.

Definition of_Z (z : Z) : num := Fin (inject_Z z).
Definition of_nat (n : nat) : num := of_Z (Z.of_nat n).

Definition Qzero (q : Q) : bool := Qeq_bool q 0.
Definition Qneg (q : Q) : bool := negb (Qle_bool 0 q).
Definition Qpos (q : Q) : bool := negb (Qle_bool q 0).

(** Rounding toward zero, the quotient that [%] uses. *)
Definition Qtrunc (q : Q) : Z :=
  if Qle_bool 0 q then Qfloor q else Qceiling q.

(** [a % b] on finite operands with [b <> 0]: the remainder has the sign of
    the dividend. *)
Definition Qrem (a b : Q) : Q := a - b * inject_Z (Qtrunc (a / b)).

(** *** Rounding to binary64 *)

(** The integer [k] with [2^k <= q < 2^(k+1)], for a positive [q]. *)
Definition ilog2 (q : Q) : Z :=
  let k := (Z.log2 (Qnum q) - Z.log2 (Zpos (Qden q)))%Z in
  if Qle_bool (2 ^ k) q then k else (k - 1)%Z.

(** The nearest integer, a tie going to the even one. *)
Definition rne (q : Q) : Z :=
  let f := Qfloor q in
  match Qcompare (q - inject_Z f) (1 # 2) with
  | Lt => f
  | Gt => (f + 1)%Z
  | Eq => if Z.even f then f else (f + 1)%Z
  end.

(** The exponent of the last place of a positive [q]: 53 significant bits,
    and no exponent below that of the subnormal numbers. *)
Definition exponent (q : Q) : Z := Z.max (ilog2 q - 52) (-1074).

(** A positive number rounded to the nearest double; what rounds to [2^1024]
    or more overflows. *)
Definition round_pos (q : Q) : num :=
  let e := exponent q in
  let r := inject_Z (rne (q / 2 ^ e)) * 2 ^ e in
  if Qle_bool (2 ^ 1024) r then PInf else Fin (Qred r).

Definition neg (a : num) : num :=
  match a with
  | Fin x => Fin (- x)
  | PInf => NInf
  | NInf => PInf
  | NaN => NaN
  end.

(** The double nearest to a rational. *)
Definition round (q : Q) : num :=
  match Qcompare q 0 with
  | Eq => Fin 0
  | Gt => round_pos q
  | Lt => neg (round_pos (- q))
  end.

(** The finite double that a literal denotes (0 for a literal that
    overflows). *)
Definition double_of (q : Q) : Q :=
  match round q with
  | Fin r => r
  | _ => 0
  end.

#[global] Arguments round_pos : simpl never.
#[global] Arguments round : simpl never.
#[global] Arguments double_of : simpl never.

(** *** The operations *)

Definition add (a b : num) : num :=
  match a, b with
  | NaN, _ | _, NaN => NaN
  | Fin x, Fin y => round (x + y)
  | PInf, NInf | NInf, PInf => NaN
  | PInf, _ | _, PInf => PInf
  | NInf, _ | _, NInf => NInf
  end.

Definition inf_of_sign (positive : bool) : num :=
  if positive then PInf else NInf.

Definition mul (a b : num) : num :=
  match a, b with
  | NaN, _ | _, NaN => NaN
  | Fin x, Fin y => round (x * y)
  | Fin x, PInf | PInf, Fin x =>
      if Qzero x then NaN else inf_of_sign (Qpos x)
  | Fin x, NInf | NInf, Fin x =>
      if Qzero x then NaN else inf_of_sign (Qneg x)
  | PInf, PInf | NInf, NInf => PInf
  | PInf, NInf | NInf, PInf => NaN
  end.

Definition div (a b : num) : num :=
  match a, b with
  | NaN, _ | _, NaN => NaN
  | Fin x, Fin y =>
      if Qzero y
      then (if Qzero x then NaN else inf_of_sign (Qpos x))
      else round (x / y)
  | Fin _, PInf | Fin _, NInf => Fin 0
  | PInf, Fin y => inf_of_sign (Qle_bool 0 y)
  | NInf, Fin y => inf_of_sign (Qneg y)
  | _, _ => NaN
  end.

(** The [%] operator.  The remainder of two doubles is a double: no rounding
    takes place. *)
Definition rem (a b : num) : num :=
  match a, b with
  | Fin x, Fin y => if Qzero y then NaN else Fin (Qrem x y)
  | Fin x, PInf | Fin x, NInf => Fin x
  | _, _ => NaN
  end.

(** [Math.floor]. *)
Definition floor (a : num) : num :=
  match a with
  | Fin x => of_Z (Qfloor x)
  | other => other
  end.

(** [Math.max] of two arguments. *)
Definition max (a b : num) : num :=
  match a, b with
  | NaN, _ | _, NaN => NaN
  | PInf, _ | _, PInf => PInf
  | NInf, other | other, NInf => other
  | Fin x, Fin y => if Qle_bool x y then Fin y else Fin x
  end.

(** [a < b]. *)
Definition ltb (a b : num) : bool :=
  match a, b with
  | NaN, _ | _, NaN => false
  | Fin x, Fin y => negb (Qle_bool y x)
  | NInf, Fin _ | NInf, PInf | Fin _, PInf => true
  | _, _ => false
  end.

(** Equality of numbers as values ([Qeq] on the finite ones). *)
Definition equiv (a b : num) : Prop :=
  match a, b with
  | Fin x, Fin y => x == y
  | PInf, PInf | NInf, NInf | NaN, NaN => True
  | _, _ => False
  end.

(** [a !== b] on numbers: [NaN] differs from itself. *)
Definition strict_neqb (a b : num) : bool :=
  match a, b with
  | Fin x, Fin y => negb (Qeq_bool x y)
  | PInf, PInf | NInf, NInf => false
  | _, _ => true
  end.

(** An array index: a non-negative integer. *)
Definition to_index (a : num) : option nat :=
  match a with
  | Fin x =>
      let r := Qred x in
      if (Qden r =? 1)%positive && (0 <=? Qnum r)%Z
      then Some (Z.to_nat (Qnum r)) else None
  | _ => None
  end.

End Num.

Import Num.

(** ** Values produced by [JSON.parse] and by the decoders *)

Inductive value : Type :=
| VNull
| VBool (b : bool)
| VNum (n : num)
| VStr (s : string)
| VArr (items : list value).

(** [typeof x === "number"]. *)
Definition is_number (x : value) : bool :=
  match x with
  | VNum _ => true
  | _ => false
  end.

(** [Array.prototype.every] with a callback that may raise: it stops at the
    first element on which the callback is false. *)
Fixpoint every {A : Type} (f : A -> result bool) (l : list A) : result bool :=
  match l with
  | [] => Ok true
  | x :: rest => b <- f x ;; if b then every f rest else Ok false
  end.

(** [Array.prototype.some] with a total callback. *)
Definition some {A : Type} (f : A -> bool) (l : list A) : bool := existsb f l.

(** ** Built-in string functions *)

Module Str.

Local Open Scope char_scope.

Definition comma : ascii := ",".
Definition newline : ascii := "010".

(** [s.split(sep)] for a one-character separator: always at least one piece. *)
Fixpoint split (sep : ascii) (s : string) : list string :=
  match s with
  | EmptyString => [EmptyString]
  | String c rest =>
      if Ascii.eqb c sep then EmptyString :: split sep rest
      else match split sep rest with
           | [] => [String c EmptyString]
           | piece :: pieces => String c piece :: pieces
           end
  end.

(** [s.replace(/[^,]/g, '')]: only the commas remain. *)
Fixpoint keep_commas (s : string) : string :=
  match s with
  | EmptyString => EmptyString
  | String c rest =>
      if Ascii.eqb c comma then String c (keep_commas rest) else keep_commas rest
  end.

(** White space, as [trim] and [parseFloat] skip it: the control characters
    9 to 13, the space and the no-break space. *)
Definition is_space (c : ascii) : bool :=
  let n := nat_of_ascii c in
  ((9 <=? n) && (n <=? 13) || (n =? 32) || (n =? 160))%nat.

Fixpoint trim_start (s : string) : string :=
  match s with
  | EmptyString => EmptyString
  | String c rest => if is_space c then trim_start rest else s
  end.

Fixpoint rev_onto (s acc : string) : string :=
  match s with
  | EmptyString => acc
  | String c rest => rev_onto rest (String c acc)
  end.

Definition rev (s : string) : string := rev_onto s EmptyString.

(** [s.trim()]. *)
Definition trim (s : string) : string := rev (trim_start (rev (trim_start s))).

(** The lower-case form of a character: of [A] to [Z], and of the accented
    capitals 192 to 222 (215 is the multiplication sign). *)
Definition lower (c : ascii) : ascii :=
  let n := nat_of_ascii c in
  if ((65 <=? n) && (n <=? 90)
      || (192 <=? n) && (n <=? 222) && negb (n =? 215))%nat
  then ascii_of_nat (n + 32) else c.

(** [s.toLowerCase()]. *)
Fixpoint toLowerCase (s : string) : string :=
  match s with
  | EmptyString => EmptyString
  | String c rest => String (lower c) (toLowerCase rest)
  end.

Definition is_digit (c : ascii) : bool :=
  let n := nat_of_ascii c in ((48 <=? n) && (n <=? 57))%nat.

Definition digit_val (c : ascii) : Z := Z.of_nat (nat_of_ascii c - 48).

(** The longest prefix of decimal digits, read as a number, with the count of
    digits and the rest of the string. *)
Fixpoint digits (acc : Z) (count : nat) (s : string) : Z * nat * string :=
  match s with
  | String c rest =>
      if is_digit c then digits (10 * acc + digit_val c) (S count) rest
      else (acc, count, s)
  | EmptyString => (acc, count, s)
  end.

Definition sign (s : string) : bool * string :=
  match s with
  | String "-" rest => (true, rest)
  | String "+" rest => (false, rest)
  | _ => (false, s)
  end.

Definition negate_if (negative : bool) (z : Z) : Z :=
  if negative then (- z)%Z else z.

(** [parseInt(s, 10)]; [None] is [NaN]. *)
Definition parseInt10 (s : string) : option Z :=
  let '(negative, body) := sign (trim_start s) in
  let '(v, count, _) := digits 0 0 body in
  match count with
  | O => None
  | S _ => Some (negate_if negative v)
  end.

(** The exponent part of a decimal literal: [e] or [E], an optional sign and
    at least one digit; otherwise there is no exponent. *)
Definition exponent (s : string) : Z :=
  match s with
  | String c rest =>
      if Ascii.eqb c "e" || Ascii.eqb c "E" then
        let '(negative, body) := sign rest in
        let '(v, count, _) := digits 0 0 body in
        match count with
        | O => 0%Z
        | S _ => negate_if negative v
        end
      else 0%Z
  | EmptyString => 0%Z
  end.

(** [m * 10^e] as a rational. *)
Definition scale10 (m e : Z) : Q :=
  match e with
  | Z0 => inject_Z m
  | Zpos p => inject_Z (m * 10 ^ Zpos p)
  | Zneg p => Qmake m (Pos.pow 10 p)
  end.

(** [parseFloat(s)]: leading white space is skipped, then the longest prefix
    that is a decimal literal is read and rounded to a double; [NaN] when
    there is none. *)
Definition parseFloat (s : string) : num :=
  let '(negative, body) := sign (trim_start s) in
  if String.prefix "Infinity" body then inf_of_sign (negb negative)
  else
    let '(ip, icount, after_int) := digits 0 0 body in
    let '(m, fcount, after_frac) :=
      match after_int with
      | String "." rest => digits ip 0 rest
      | _ => (ip, O, after_int)
      end in
    match (icount + fcount)%nat with
    | O => NaN
    | S _ =>
        round (scale10 (negate_if negative m)
                       (exponent after_frac - Z.of_nat fcount))
    end.

End Str.

(** ** Arrays with holes *)

Module Sparse.

Section Ops.
Context {A : Type}.

(** [a[i]]: [None] is [undefined] (a hole or past the end). *)
Definition get (i : nat) (a : list (option A)) : option A :=
  match nth_error a i with
  | Some (Some x) => Some x
  | _ => None
  end.

(** [a[i] = x]: the array grows with holes when [i] is past the end. *)
Fixpoint set (i : nat) (x : A) (a : list (option A)) : list (option A) :=
  match i, a with
  | O, [] => [Some x]
  | O, _ :: rest => Some x :: rest
  | S j, [] => None :: set j x []
  | S j, y :: rest => y :: set j x rest
  end.

(** [a.map(f)]: holes stay holes, the callback does not run on them. *)
Definition map {B : Type} (f : A -> B) (a : list (option A)) : list (option B) :=
  List.map (option_map f) a.

(** [a.map((x, idx) => ...)] with a callback that may raise. *)
Fixpoint mapi_from {B : Type} (f : A -> nat -> result B) (idx : nat)
    (a : list (option A)) : result (list (option B)) :=
  match a with
  | [] => Ok []
  | None :: rest =>
      tl <- mapi_from f (S idx) rest ;; Ok (None :: tl)
  | Some x :: rest =>
      y <- f x idx ;;
      tl <- mapi_from f (S idx) rest ;;
      Ok (Some y :: tl)
  end.

Definition mapi {B : Type} (f : A -> nat -> result B) (a : list (option A))
  : result (list (option B)) := mapi_from f 0 a.
End Ops.

End Sparse.

(** ** Coordinate file decoders *)

Section JsonDecoders.

(** [JSON.parse] is a built-in of the host; it raises [SyntaxError] on text
    that is not JSON. *)
Variable JSON_parse : string -> result value.

(** [x.length], where [None] is [undefined]. *)
Definition length_prop (x : value) : result (option nat) :=
  match x with
  | VArr items => Ok (Some (List.length items))
  | VStr s => Ok (Some (String.length s))
  | VNull => Raise TypeError
  | VBool _ | VNum _ => Ok None
  end.

(** [x.every(cb)]: only arrays have the method. *)
Definition every_method (cb : value -> result bool) (x : value) : result bool :=
  match x with
  | VArr items => every cb items
  | VNull | VBool _ | VNum _ | VStr _ => Raise TypeError
  end.

(** The callback [row => row.length === 3 && row.every(x => typeof x === "number")]. *)
Definition row_is_xyz (row : value) : result bool :=
  len <- length_prop row ;;
  match len with
  | Some 3%nat => every_method (fun x => Ok (is_number x)) row
  | _ => Ok false
  end.

Definition line_delimited_message : string :=
  "Provided text should be line-separated JSON representations of 3-element X,Y,Z arrays.".

Definition json_array_message : string :=
  "Provided JSON must represent an array containing 3-element X,Y,Z arrays.".

Fixpoint map_result {A B : Type} (f : A -> result B) (l : list A) : result (list B) :=
  match l with
  | [] => Ok []
  | x :: rest => y <- f x ;; ys <- map_result f rest ;; Ok (y :: ys)
  end.

(** [LineDelimitedJsonArrayCoordinateDecoder.decode]. *)
Definition LineDelimitedJsonArrayCoordinateDecoder_decode (inputString : string)
  : result (list value) :=
  geometry <- map_result JSON_parse
                (filter (fun line => (2 <? String.length line)%nat)
                        (Str.split Str.newline inputString)) ;;
  valid <- every row_is_xyz geometry ;;
  if negb valid then Raise (Thrown line_delimited_message)
  else Ok geometry.

(** [JsonArrayCoordinateDecoder.decode]:
    [if(!(geometry.length >= 1) || geometry.every(...)) throw ...]. *)
Definition JsonArrayCoordinateDecoder_decode (inputString : string) : result value :=
  geometry <- JSON_parse inputString ;;
  len <- length_prop geometry ;;
  let long_enough := match len with
                     | Some n => (1 <=? n)%nat
                     | None => false
                     end in
  reject <- (if negb long_enough then Ok true
             else every_method row_is_xyz geometry) ;;
  if reject then Raise (Thrown json_array_message)
  else Ok geometry.

End JsonDecoders.

Module CsvCoordinateDecoder.

Record options : Type := {
  opt_xyzColumns : option (list nat);
  opt_skipRowCount : option nat;
  opt_validationMaxColumns : option nat
}.

Definition no_options : options :=
  {| opt_xyzColumns := None; opt_skipRowCount := None;
     opt_validationMaxColumns := None |}.

Record t : Type := {
  xyzColumns : list nat;
  skipRowCount : nat;
  validationMaxColumns : nat
}.

Definition or_default {A : Type} (o : option A) (d : A) : A :=
  match o with
  | Some a => a
  | None => d
  end.

Definition columns_message : string :=
  "xyzColumns should contain 3 integers corresponding to X, Y and Z column numbers (0-based).".

Definition new (o : options) : result t :=
  let this := {| xyzColumns := or_default (opt_xyzColumns o) [0; 1; 2]%nat;
                 skipRowCount := or_default (opt_skipRowCount o) 0%nat;
                 validationMaxColumns := or_default (opt_validationMaxColumns o) 10%nat |} in
  if negb (List.length (xyzColumns this) =? 3)%nat
  then Raise (Thrown columns_message)
  else Ok this.

Definition nat_to_string (n : nat) : string :=
  NilZero.string_of_uint (Nat.to_uint n).

Definition too_wide_message (maxColumns : nat) : string :=
  ("Selected coordinate CSV file has more than " ++ nat_to_string maxColumns
     ++ " columns! Rejecting.")%string.

(** [line.replace(/[^,]/g, '').length]. *)
Definition comma_count (line : string) : nat :=
  String.length (Str.keep_commas line).

(** [lines.splice(0, n)] under the guard [n > 0]: what is left in [lines]. *)
Definition skip_rows (n : nat) (lines : list string) : list string :=
  if (0 <? n)%nat then skipn n lines else lines.

(** [Math.max(fieldX, fieldY, fieldZ)]; [None] is [NaN], the result as soon
    as one of the three is [undefined]. *)
Definition highest (fieldX fieldY fieldZ : option nat) : option nat :=
  match fieldX, fieldY, fieldZ with
  | Some x, Some y, Some z => Some (Nat.max x (Nat.max y z))
  | _, _, _ => None
  end.

(** [fields[i]] handed to [parseFloat]; a missing cell reads as
    [undefined], which [parseFloat] turns into [NaN]. *)
Definition cell (fields : list string) (i : option nat) : value :=
  match i with
  | Some n =>
      match nth_error fields n with
      | Some c => VNum (Str.parseFloat c)
      | None => VNum NaN
      end
  | None => VNum NaN
  end.

Definition decode (this : t) (inputString : string) : result (list value) :=
  let lines := skip_rows (skipRowCount this) (Str.split Str.newline inputString) in
  let fieldX := nth_error (xyzColumns this) 0 in
  let fieldY := nth_error (xyzColumns this) 1 in
  let fieldZ := nth_error (xyzColumns this) 2 in
  let highestFieldIndex := highest fieldX fieldY fieldZ in
  if some (fun line => (validationMaxColumns this <=? comma_count line)%nat) lines
  then Raise (Thrown (too_wide_message (validationMaxColumns this)))
  else
    Ok (map (fun fields => VArr [cell fields fieldX; cell fields fieldY; cell fields fieldZ])
          (filter (fun fields =>
                     match highestFieldIndex with
                     | Some h => (h <? List.length fields)%nat
                     | None => false
                     end)
             (map (fun ln => Str.split Str.comma (Str.trim ln)) lines))).

End CsvCoordinateDecoder.

(** ** Coordinate mapping *)

Module CoordinateMapping.

Record t : Type := {
  mapping : list value;
  decoder : string -> result (list value)
}.

Definition new (decoder : string -> result (list value)) : t :=
  {| mapping := []; decoder := decoder |}.

Definition load (data : string) (this : t) : result t :=
  geometry <- decoder this data ;;
  Ok {| mapping := geometry; decoder := decoder this |}.

(** [idxToCoord(idx, defaultValue)] on an integer index. *)
Definition idxToCoord (this : t) (idx : Z) (defaultValue : value) : value :=
  if (idx <? 0)%Z || (idx >=? Z.of_nat (List.length (mapping this)))%Z
  then defaultValue
  else match nth_error (mapping this) (Z.to_nat idx) with
       | Some coord => coord
       | None => VNull
       end.

(** [idxToCoord(idx)]: the default value is [null]. *)
Definition idxToCoord_null (this : t) (idx : Z) : value :=
  idxToCoord this idx VNull.

Definition allCoords (this : t) : list value := mapping this.

End CoordinateMapping.

(** ** Animation CSV file decoder *)

Module CsvAnimationDecoder.

(** A pixel as the rows build it: channel values written by index. *)
Definition pixel : Type := list (option num).

(** The [Map] from component name to channel index. *)
Definition component_map : Type := list (string * nat).

Fixpoint map_set (key : string) (v : nat) (m : component_map) : component_map :=
  match m with
  | [] => [(key, v)]
  | (k, w) :: rest =>
      if String.eqb k key then (k, v) :: rest else (k, w) :: map_set key v rest
  end.

Fixpoint map_get (key : string) (m : component_map) : option nat :=
  match m with
  | [] => None
  | (k, w) :: rest => if String.eqb k key then Some w else map_get key rest
  end.

Definition map_has (key : string) (m : component_map) : bool :=
  match map_get key m with
  | Some _ => true
  | None => false
  end.

(** [l.forEach((x, idx) => ...)] as a left fold that also passes the index. *)
Fixpoint forEach_from {A St : Type} (f : St -> A -> nat -> St) (idx : nat)
    (l : list A) (acc : St) : St :=
  match l with
  | [] => acc
  | x :: rest => forEach_from f (S idx) rest (f acc x idx)
  end.

Definition forEach {A St : Type} (f : St -> A -> nat -> St) (l : list A) (acc : St) : St :=
  forEach_from f 0 l acc.

(** The decoder, with the pixel and frame mappers the constructor settled
    on.  The hexadecimal output option ([outputHexColors]) is not modelled. *)
Record t (P F : Type) : Type := {
  skipRowCount : nat;
  components : component_map;
  pixelMapper : pixel -> P;
  frameMapper : list (option P) -> F
}.

Definition components_of (names : list string) : component_map :=
  forEach (fun m c idx => map_set c idx m) names [].

Definition default_components : list string := ["r"; "g"; "b"]%string.

(** The constructor with [customPixelMapper] and [customFrameMapper] given. *)
Definition new_custom {P F : Type} (skip : option nat) (names : option (list string))
    (customPixelMapper : pixel -> P) (customFrameMapper : list (option P) -> F)
  : t P F :=
  {| skipRowCount := CsvCoordinateDecoder.or_default skip 0%nat;
     components := components_of (CsvCoordinateDecoder.or_default names default_components);
     pixelMapper := fun rgb => customPixelMapper rgb;
     frameMapper := customFrameMapper |}.

(** The constructor without mappers: [rgb => rgb] and [pixels => pixels]. *)
Definition new (skip : option nat) (names : option (list string))
  : t pixel (list (option pixel)) :=
  {| skipRowCount := CsvCoordinateDecoder.or_default skip 0%nat;
     components := components_of (CsvCoordinateDecoder.or_default names default_components);
     pixelMapper := fun rgb => rgb;
     frameMapper := fun pixels => pixels |}.

(** An entry of [columnMapping]; [pixel_index] is the result of [parseInt],
    [None] when it is [NaN]. *)
Record column : Type := {
  component : string;
  pixel_index : option Z
}.

Record heading : Type := {
  totalColumnCount : nat;
  columnMapping : list (option column)
}.

Section Decode.
Context {P F : Type}.
Variable this : t P F.

Definition decodeHeadingRow (line : string) : heading :=
  let fields := Str.split Str.comma (Str.toLowerCase line) in
  let columnMapping :=
    forEach
      (fun columnMapping field idx =>
         match Str.split "_"%char field with
         | [part0; part1] =>
             if negb (map_has part0 (components this)) then columnMapping
             else Sparse.set idx {| component := part0;
                                    pixel_index := Str.parseInt10 part1 |}
                    columnMapping
         | _ => columnMapping
         end)
      fields [] in
  {| totalColumnCount := List.length fields; columnMapping := columnMapping |}.

(** [pixels[k]] and [pixels[k] = v] for a key computed by [parseInt]: a
    key that is not an array index (negative or [NaN]) names an ordinary
    property, which no later [map] visits, so such writes leave the
    elements as they are. *)
Definition element_index (k : option Z) : option nat :=
  match k with
  | Some z => if (0 <=? z)%Z then Some (Z.to_nat z) else None
  | None => None
  end.

(** The body of the [for] loop over the columns of one row. *)
Definition row_step (columnMapping : list (option column)) (fields : list string)
    (pixels : list (option pixel)) (columnIndex : nat) : list (option pixel) :=
  match Sparse.get columnIndex columnMapping with
  | None => pixels
  | Some mapping =>
      match element_index (pixel_index mapping),
            map_get (component mapping) (components this) with
      | Some pixelIdx, Some channel =>
          let pixelObj := match Sparse.get pixelIdx pixels with
                          | Some p => p
                          | None => []
                          end in
          let pixelObj :=
            Sparse.set channel
              (Str.parseFloat (nth columnIndex fields EmptyString)) pixelObj in
          Sparse.set pixelIdx pixelObj pixels
      | _, _ => pixels
      end
  end.

Definition row_pixels (h : heading) (fields : list string) : list (option pixel) :=
  fold_left (row_step (columnMapping h) fields) (seq 0 (totalColumnCount h)) [].

Definition decode (inputString : string) : result (list F) :=
  let lines := CsvCoordinateDecoder.skip_rows (skipRowCount this)
                 (Str.split Str.newline inputString) in
  match lines with
  | [] => Raise TypeError
  | headingLine :: lines =>
      let h := decodeHeadingRow headingLine in
      Ok (map (frameMapper this)
            (map (fun line => Sparse.map (pixelMapper this) line)
               (map (row_pixels h)
                  (filter (fun fields => (totalColumnCount h <=? List.length fields)%nat)
                     (map (Str.split Str.comma) lines)))))
  end.
End Decode.

End CsvAnimationDecoder.

(** ** Real-time simulation manager *)

Module ChristmasTreeSimulator.

Section Simulator.

(** What a pixel of a frame holds: whatever the animation decoder (and its
    mappers) produced. *)
Variable Color : Type.

Definition frame : Type := list (option Color).

Record options : Type := {
  opt_startPlaying : option bool;
  opt_startTime : option Q;
  opt_inititalPlaybackRate : option Q;
  opt_baseFrameRate : option Q
}.

Definition no_options : options :=
  {| opt_startPlaying := None; opt_startTime := None;
     opt_inititalPlaybackRate := None; opt_baseFrameRate := None |}.

Record t : Type := {
  _currentTime : num;
  inititalPlaybackRate : Q;
  playbackRate : Q;
  baseFrameRate : Q;
  isPlaying : bool;
  startPlaying : bool;
  dirty : bool;
  dirtyGeometry : bool;
  animationFrames : list frame;
  coordinateMapping : option CoordinateMapping.t
}.

Definition or_default {A : Type} (o : option A) (d : A) : A :=
  match o with
  | Some a => a
  | None => d
  end.

(** The constructor.  Its first statement writes [startTime] through the
    [currentTime] setter while [animationFrames] is not yet assigned: a
    negative [startTime] makes the setter read [this.duration], hence
    [this.animationFrames.length] on [undefined]. *)
Definition new (o : options) : result t :=
  let startTime := or_default (opt_startTime o) 0 in
  if ltb (Fin startTime) (Fin 0) then Raise TypeError
  else
    Ok {| _currentTime := Fin startTime;
          inititalPlaybackRate := or_default (opt_inititalPlaybackRate o) 1;
          playbackRate := or_default (opt_inititalPlaybackRate o) 1;
          baseFrameRate := or_default (opt_baseFrameRate o) 60;
          isPlaying := or_default (opt_startPlaying o) false;
          startPlaying := or_default (opt_startPlaying o) false;
          dirty := true;
          dirtyGeometry := true;
          animationFrames := [];
          coordinateMapping := None |}.

Definition frameCount (this : t) : nat := List.length (animationFrames this).

Definition frameDuration (this : t) : num :=
  div (Fin 1) (Fin (baseFrameRate this)).

(** The literal [1e-9]. *)
Definition epsilon : Q := double_of (1 # 1000000000).

#[global] Arguments epsilon : simpl never.

Definition duration (this : t) : num :=
  max (Fin epsilon) (mul (of_nat (frameCount this)) (frameDuration this)).

(** [get currentTime]. *)
Definition currentTime (this : t) : num :=
  rem (_currentTime this) (duration this).

(** [set currentTime]. *)
Definition set_currentTime (val : num) (this : t) : t :=
  let val := if ltb val (Fin 0)
             then add (rem val (duration this)) (duration this)
             else val in
  {| _currentTime := val;
     inititalPlaybackRate := inititalPlaybackRate this;
     playbackRate := playbackRate this;
     baseFrameRate := baseFrameRate this;
     isPlaying := isPlaying this;
     startPlaying := startPlaying this;
     dirty := true;
     dirtyGeometry := dirtyGeometry this;
     animationFrames := animationFrames this;
     coordinateMapping := coordinateMapping this |}.

(** [get currentFrameIdx]. *)
Definition currentFrameIdx (this : t) : num :=
  rem (floor (div (currentTime this) (frameDuration this)))
      (of_nat (frameCount this)).

(** [get currentProgress]. *)
Definition currentProgress (this : t) : num :=
  div (currentFrameIdx this) (of_nat (frameCount this)).

(** [set currentProgress]. *)
Definition set_currentProgress (progress : Q) (this : t) : t :=
  set_currentTime
    (mul (floor (mul (Fin progress) (of_nat (frameCount this))))
         (frameDuration this))
    this.

Record mapped : Type := {
  position : value;
  color : Color
}.

(** [a[i]] for a number [i]: [None] is [undefined]. *)
Definition at_number {A : Type} (a : list A) (i : num) : option A :=
  match to_index i with
  | Some n => nth_error a n
  | None => None
  end.

Definition getCurrentFrameMapped (this : t) : result (list (option mapped)) :=
  match at_number (animationFrames this) (currentFrameIdx this) with
  | None => Raise TypeError
  | Some frame =>
      Sparse.mapi
        (fun pixel idx =>
           match coordinateMapping this with
           | None => Raise TypeError
           | Some m =>
               Ok {| position := CoordinateMapping.idxToCoord_null m (Z.of_nat idx);
                     color := pixel |}
           end)
        frame
  end.

Record reset_options : Type := {
  reset_startPlaying : option bool;
  reset_playbackRate : option Q;
  reset_baseFrameRate : option Q;
  reset_startTime : option Q
}.

Definition no_reset_options : reset_options :=
  {| reset_startPlaying := None; reset_playbackRate := None;
     reset_baseFrameRate := None; reset_startTime := None |}.

Definition resetPlayback (o : reset_options) (this : t) : t :=
  let this :=
    {| _currentTime := _currentTime this;
       inititalPlaybackRate := inititalPlaybackRate this;
       playbackRate := match reset_playbackRate o with
                       | Some playbackRate => playbackRate
                       | None => inititalPlaybackRate this
                       end;
       baseFrameRate := match reset_baseFrameRate o with
                        | Some baseFrameRate => baseFrameRate
                        | None => baseFrameRate this
                        end;
       isPlaying := match reset_startPlaying o with
                    | Some startPlaying => startPlaying
                    | None => startPlaying this
                    end;
       startPlaying := startPlaying this;
       dirty := dirty this;
       dirtyGeometry := dirtyGeometry this;
       animationFrames := animationFrames this;
       coordinateMapping := coordinateMapping this |} in
  set_currentTime (Fin (or_default (reset_startTime o) 0)) this.

(** The argument of [setData]; [None] is a property left out (or [null]:
    the source tests with [!= undefined]). *)
Record data : Type := {
  data_animationFrames : option (list frame);
  data_coordinateMapping : option CoordinateMapping.t
}.

Definition setData (d : data) (this : t) : t :=
  let this :=
    {| _currentTime := _currentTime this;
       inititalPlaybackRate := inititalPlaybackRate this;
       playbackRate := playbackRate this;
       baseFrameRate := baseFrameRate this;
       isPlaying := isPlaying this;
       startPlaying := startPlaying this;
       dirty := dirty this;
       dirtyGeometry := match data_coordinateMapping d with
                        | Some _ => true
                        | None => dirtyGeometry this
                        end;
       animationFrames := match data_animationFrames d with
                          | Some animationFrames => animationFrames
                          | None => animationFrames this
                          end;
       coordinateMapping := match data_coordinateMapping d with
                            | Some coordinateMapping => Some coordinateMapping
                            | None => coordinateMapping this
                            end |} in
  set_currentTime (Fin 0) this.

Definition clearDirty (this : t) : bool * t :=
  (dirty this,
   {| _currentTime := _currentTime this;
      inititalPlaybackRate := inititalPlaybackRate this;
      playbackRate := playbackRate this;
      baseFrameRate := baseFrameRate this;
      isPlaying := isPlaying this;
      startPlaying := startPlaying this;
      dirty := false;
      dirtyGeometry := dirtyGeometry this;
      animationFrames := animationFrames this;
      coordinateMapping := coordinateMapping this |}).

Definition clearGeometryDirty (this : t) : bool * t :=
  (dirtyGeometry this,
   {| _currentTime := _currentTime this;
      inititalPlaybackRate := inititalPlaybackRate this;
      playbackRate := playbackRate this;
      baseFrameRate := baseFrameRate this;
      isPlaying := isPlaying this;
      startPlaying := startPlaying this;
      dirty := dirty this;
      dirtyGeometry := false;
      animationFrames := animationFrames this;
      coordinateMapping := coordinateMapping this |}).

(** [this.currentTime += deltaTime]: the getter, then the setter. *)
Definition seekRelative (deltaTime : num) (this : t) : t :=
  set_currentTime (add (currentTime this) deltaTime) this.

Definition processTimeAdvance (deltaTime : Q) (this : t) : t :=
  if isPlaying this
  then seekRelative (mul (Fin deltaTime) (Fin (playbackRate this))) this
  else this.

Definition setPlaybackRate (rate : Q) (this : t) : t :=
  if strict_neqb (Fin (playbackRate this)) (Fin rate)
  then {| _currentTime := _currentTime this;
          inititalPlaybackRate := inititalPlaybackRate this;
          playbackRate := rate;
          baseFrameRate := baseFrameRate this;
          isPlaying := isPlaying this;
          startPlaying := startPlaying this;
          dirty := dirty this;
          dirtyGeometry := dirtyGeometry this;
          animationFrames := animationFrames this;
          coordinateMapping := coordinateMapping this |}
  else this.

(** [this.isPlaying = playing], an assignment by the caller: the class has no
    method that starts or pauses playback. *)
Definition set_isPlaying (playing : bool) (this : t) : t :=
  {| _currentTime := _currentTime this;
     inititalPlaybackRate := inititalPlaybackRate this;
     playbackRate := playbackRate this;
     baseFrameRate := baseFrameRate this;
     isPlaying := playing;
     startPlaying := startPlaying this;
     dirty := dirty this;
     dirtyGeometry := dirtyGeometry this;
     animationFrames := animationFrames this;
     coordinateMapping := coordinateMapping this |}.

(** The operations that change a simulator, as a caller issues them. *)
Inductive op : Type :=
| WriteCurrentTime (val : Q)
| WriteCurrentProgress (progress : Q)
| ResetPlayback (o : reset_options)
| SetData (d : data)
| ClearDirty
| ClearGeometryDirty
| ProcessTimeAdvance (deltaTime : Q)
| SeekRelative (deltaTime : Q)
| SetPlaybackRate (rate : Q)
| WriteIsPlaying (playing : bool).

Definition step (this : t) (o : op) : t :=
  match o with
  | WriteCurrentTime val => set_currentTime (Fin val) this
  | WriteCurrentProgress progress => set_currentProgress progress this
  | ResetPlayback ro => resetPlayback ro this
  | SetData d => setData d this
  | ClearDirty => snd (clearDirty this)
  | ClearGeometryDirty => snd (clearGeometryDirty this)
  | ProcessTimeAdvance deltaTime => processTimeAdvance deltaTime this
  | SeekRelative deltaTime => seekRelative (Fin deltaTime) this
  | SetPlaybackRate rate => setPlaybackRate rate this
  | WriteIsPlaying playing => set_isPlaying playing this
  end.

Definition run (ops : list op) (this : t) : t := fold_left step ops this.

End Simulator.

End ChristmasTreeSimulator.

(** ** Properties and sample inputs used in the statements below *)

(** A bound on the error of a rounding that does not overflow: a unit in
    the last place of [q] is at most this. *)
Definition ulp_bound (q : Q) : Q := q * 2 ^ (-52) + 2 ^ (-1074).

(** A rational that is a double: rounding leaves it as it is. *)
Definition representable (q : Q) : Prop := Num.equiv (round q) (Fin q).

Section SimulatorProperties.

Import ChristmasTreeSimulator.

Variable Color : Type.

(** What the stored time can be: a number that is not negative, [Infinity]
    or [NaN]. *)
Definition stored_time_ok (s : t Color) : Prop :=
  match _currentTime s with
  | Fin q => 0 <= q
  | PInf | NaN => True
  | NInf => False
  end.

(** The frame rate is a double other than zero, the stored time is a finite
    number that is not negative, and the frames are the elements of an
    array (which has fewer than [2^32] of them). *)
Definition well_formed (s : t Color) : Prop :=
  (~ baseFrameRate s == 0 /\ representable (baseFrameRate s)) /\
  (exists q, _currentTime s = Fin q /\ 0 <= q /\ q < 2 ^ 1024) /\
  (Z.of_nat (frameCount s) < 2 ^ 32)%Z.

(** A number of moderate size: at most [2^300] in magnitude. *)
Definition moderate (x : Q) : Prop := Qabs x <= 2 ^ 300.

(** A frame rate of moderate size: a double whose magnitude lies between
    [2^-300] and [2^300]. *)
Definition moderate_rate (r : Q) : Prop :=
  2 ^ (-300) <= Qabs r /\ Qabs r <= 2 ^ 300 /\ representable r.

(** A property of an option that is given. *)
Definition when_given {A : Type} (P : A -> Prop) (o : option A) : Prop :=
  match o with
  | Some a => P a
  | None => True
  end.

(** The elements of an array: fewer than [2^32]. *)
Definition array_sized (frames : list (frame Color)) : Prop :=
  (Z.of_nat (List.length frames) < 2 ^ 32)%Z.

(** Options of the constructor of moderate size. *)
Definition moderate_options (o : options) : Prop :=
  when_given moderate (opt_startTime o) /\
  when_given moderate (opt_inititalPlaybackRate o) /\
  when_given moderate_rate (opt_baseFrameRate o).

(** An operation whose numeric arguments are of moderate size and whose
    frames are the elements of an array. *)
Definition moderate_op (o : op Color) : Prop :=
  match o with
  | WriteCurrentTime _ val => moderate val
  | WriteCurrentProgress _ progress => moderate progress
  | ResetPlayback _ ro =>
      when_given moderate (reset_playbackRate ro) /\
      when_given moderate_rate (reset_baseFrameRate ro) /\
      when_given moderate (reset_startTime ro)
  | SetData d => when_given array_sized (data_animationFrames d)
  | ProcessTimeAdvance _ deltaTime => moderate deltaTime
  | SeekRelative _ deltaTime => moderate deltaTime
  | SetPlaybackRate _ rate => moderate rate
  | ClearDirty _ | ClearGeometryDirty _ | WriteIsPlaying _ _ => True
  end.

(** A controller whose rates are of moderate size, whose stored time is a
    number from 0 to [2^700] and whose frames are the elements of an
    array. *)
Definition tame (s : t Color) : Prop :=
  moderate_rate (baseFrameRate s) /\
  moderate (playbackRate s) /\
  moderate (inititalPlaybackRate s) /\
  (exists q, _currentTime s = Fin q /\ 0 <= q /\ q <= 2 ^ 700) /\
  array_sized (animationFrames s).

(** Four frames (without pixels). *)
Definition four_frames : list (frame Color) := [[]; []; []; []].


Definition only_frames (frames : list (frame Color)) : data Color :=
  {| data_animationFrames := Some frames; data_coordinateMapping := None |}.

Definition with_baseFrameRate (b : Q) : options :=
  {| opt_startPlaying := None; opt_startTime := None;
     opt_inititalPlaybackRate := None; opt_baseFrameRate := Some b |}.

Definition reset_baseFrameRate_to (b : Q) : reset_options :=
  {| reset_startPlaying := None; reset_playbackRate := None;
     reset_baseFrameRate := Some b; reset_startTime := None |}.

(** The fields a reset with every option left out is meant to touch, with
    the time then written through the setter. *)
Definition reset_to_initial (s : t Color) : t Color :=
  set_currentTime (Fin 0)
    {| _currentTime := _currentTime s;
       inititalPlaybackRate := inititalPlaybackRate s;
       playbackRate := inititalPlaybackRate s;
       baseFrameRate := baseFrameRate s;
       isPlaying := startPlaying s;
       startPlaying := startPlaying s;
       dirty := dirty s;
       dirtyGeometry := dirtyGeometry s;
       animationFrames := animationFrames s;
       coordinateMapping := coordinateMapping s |}.

(** No pixel is assigned in the frame. *)
Definition all_holes (f : frame Color) : Prop :=
  forall c, ~ In (Some c) f.

(** The frame that [getCurrentFrameMapped] reads, when there is one. *)
Definition current_frame (s : t Color) : option (frame Color) :=
  at_number (animationFrames s) (currentFrameIdx s).

End SimulatorProperties.

(** A stand-in for [JSON.parse] on the three documents used as sample
    inputs; any other text is a syntax error. *)
Definition sample_parse (text : string) : result value :=
  if String.eqb text "[[1,2,3]]" then Ok (VArr [VArr [VNum (Fin 1); VNum (Fin 2); VNum (Fin 3)]])
  else if String.eqb text "[[1,2]]" then Ok (VArr [VArr [VNum (Fin 1); VNum (Fin 2)]])
  else if String.eqb text "[1,2,3]" then Ok (VArr [VNum (Fin 1); VNum (Fin 2); VNum (Fin 3)])
  else Raise SyntaxError.

(** A row is a 3-element array of numbers. *)
Definition xyz_row (row : value) : Prop :=
  exists x y z, row = VArr [VNum x; VNum y; VNum z].

(** The lines that [CsvCoordinateDecoder.decode] looks at: those left after
    the first [skipRowCount] ones. *)
Definition csv_lines (d : CsvCoordinateDecoder.t) (inputString : string) : list string :=
  skipn (CsvCoordinateDecoder.skipRowCount d) (Str.split Str.newline inputString).

(** The number of comma-separated fields of a line. *)
Definition field_count (line : string) : nat :=
  List.length (Str.split Str.comma line).

Definition skipping (n : nat) : CsvCoordinateDecoder.t :=
  {| CsvCoordinateDecoder.xyzColumns := [0; 1; 2]%nat;
     CsvCoordinateDecoder.skipRowCount := n;
     CsvCoordinateDecoder.validationMaxColumns := 10 |}.

Definition ten_fields : string := "1,2,3,4,5,6,7,8,9,10".

Definition wide_heading_then_row : string :=
  "a,b,c,d,e,f,g,h,i,j,k,l
1,2,3".

Definition two_pixel_animation : string :=
  "r_0,g_0,b_0,r_1,g_1,b_1
10,20,30,40,50,60".

(** Sample controllers hold pixels as the animation decoder produces them. *)
Definition sample_color : Type := CsvAnimationDecoder.pixel.

Definition red_pixel : sample_color := [Some (Fin 255); Some (Fin 0); Some (Fin 0)].

Definition sample_mapping : CoordinateMapping.t :=
  {| CoordinateMapping.mapping :=
       [VArr [VNum (Fin 0); VNum (Fin 0); VNum (Fin 0)];
        VArr [VNum (Fin 1); VNum (Fin 2); VNum (Fin 3)];
        VArr [VNum (Fin 4); VNum (Fin 5); VNum (Fin 6)]];
     CoordinateMapping.decoder := CsvCoordinateDecoder.decode (skipping 0) |}.

(** An animation file whose heading names no pixel column: its one data row
    decodes to a frame without pixels. *)
Definition unmapped_animation : string :=
  "time
1".

(** ** Further properties and sample inputs *)

(** The lines that [LineDelimitedJsonArrayCoordinateDecoder.decode] hands to
    [JSON.parse]: those longer than two characters. *)
Definition kept_lines (inputString : string) : list string :=
  filter (fun line => (2 <? String.length line)%nat)
         (Str.split Str.newline inputString).

Definition is_array (x : value) : bool :=
  match x with
  | VArr _ => true
  | _ => false
  end.

(** A stand-in for [JSON.parse] that knows one line, [[1,2,3]]. *)
Definition triple_parse (text : string) : result value :=
  if String.eqb text "[1,2,3]"
  then Ok (VArr [VNum (Fin 1); VNum (Fin 2); VNum (Fin 3)])
  else if String.eqb text "[1,2]"
  then Ok (VArr [VNum (Fin 1); VNum (Fin 2)])
  else Raise SyntaxError.

Definition two_triples : string :=
  "[1,2,3]
[]

[1,2,3]".

Definition triple_then_pair : string :=
  "[1,2,3]
[1,2]".

Definition append_newline (s : string) : string :=
  (s ++ String Str.newline EmptyString)%string.

(** The largest of the three selected column indexes. *)
Definition highest_column (d : CsvCoordinateDecoder.t) : option nat :=
  CsvCoordinateDecoder.highest
    (nth_error (CsvCoordinateDecoder.xyzColumns d) 0)
    (nth_error (CsvCoordinateDecoder.xyzColumns d) 1)
    (nth_error (CsvCoordinateDecoder.xyzColumns d) 2).

Definition csv_with_words : string :=
  "x,y,z
1.5,-2,3e2
n/a,7,
short".

Definition csv_three_rows : string :=
  "1,2,3
4,5,6
7,8,9".

(** Every pixel assigned in the frame has at most [n] channels. *)
Definition pixels_within (n : nat) (frame : list (option CsvAnimationDecoder.pixel)) : Prop :=
  forall p, In (Some p) frame -> (List.length p <= n)%nat.

(** The channel indexes of a component map are all below [n]. *)
Definition channels_below (n : nat) (m : CsvAnimationDecoder.component_map) : Prop :=
  forall k v, CsvAnimationDecoder.map_get k m = Some v -> (v < n)%nat.

Definition mixed_case_heading : string := "R_0,g_0,B_0,Time".

Definition animation_with_gap : string :=
  "r_0,g_0,b_0,r_2
1,2,3,4
5,6
7,8,9,10,11".

Section MoreSimulatorProperties.

Import ChristmasTreeSimulator.

Variable Color : Type.

(** [setData] called with a coordinate mapping. *)
Definition loads_mapping (o : op Color) : bool :=
  match o with
  | SetData d =>
      match data_coordinateMapping d with
      | Some _ => true
      | None => false
      end
  | _ => false
  end.

(** [setData] called with animation frames. *)
Definition loads_frames (o : op Color) : bool :=
  match o with
  | SetData d =>
      match data_animationFrames d with
      | Some _ => true
      | None => false
      end
  | _ => false
  end.

(** The operations that write the time whatever the state. *)
Definition always_writes_time (o : op Color) : bool :=
  match o with
  | WriteCurrentTime _ _ | WriteCurrentProgress _ _ | ResetPlayback _ _
  | SetData _ | SeekRelative _ _ => true
  | _ => false
  end.

(** The operations that can write the time: those above and
    [processTimeAdvance], which does when playing. *)
Definition may_write_time (o : op Color) : bool :=
  match o with
  | ProcessTimeAdvance _ _ => true
  | other => always_writes_time other
  end.

Definition is_clearDirty (o : op Color) : bool :=
  match o with
  | ClearDirty _ => true
  | _ => false
  end.

Definition is_clearGeometryDirty (o : op Color) : bool :=
  match o with
  | ClearGeometryDirty _ => true
  | _ => false
  end.

(** The entry [getCurrentFrameMapped] builds for the slot [idx] of a frame. *)
Definition mapped_slot (m : CoordinateMapping.t) (idx : nat) (slot : option Color)
  : option (mapped Color) :=
  match slot with
  | Some pixel =>
      Some {| position := CoordinateMapping.idxToCoord_null m (Z.of_nat idx);
              color := pixel |}
  | None => None
  end.

Definition with_startTime (startTime : Q) : options :=
  {| opt_startPlaying := None; opt_startTime := Some startTime;
     opt_inititalPlaybackRate := None; opt_baseFrameRate := None |}.

Definition frames_and_mapping (frames : list (frame Color)) (m : CoordinateMapping.t)
  : data Color :=
  {| data_animationFrames := Some frames; data_coordinateMapping := Some m |}.

End MoreSimulatorProperties.

Definition two_frames : list (ChristmasTreeSimulator.frame sample_color) :=
  [[Some red_pixel; None; Some red_pixel]; [None; Some red_pixel]].

(** The controller the constructor returns for [{baseFrameRate: 2}], and the
    same controller after two frames and a mapping have been loaded. *)
Definition fresh_controller : ChristmasTreeSimulator.t sample_color :=
  {| ChristmasTreeSimulator._currentTime := Fin 0;
     ChristmasTreeSimulator.inititalPlaybackRate := 1;
     ChristmasTreeSimulator.playbackRate := 1;
     ChristmasTreeSimulator.baseFrameRate := 2;
     ChristmasTreeSimulator.isPlaying := false;
     ChristmasTreeSimulator.startPlaying := false;
     ChristmasTreeSimulator.dirty := true;
     ChristmasTreeSimulator.dirtyGeometry := true;
     ChristmasTreeSimulator.animationFrames := [];
     ChristmasTreeSimulator.coordinateMapping := None |}.

Definition loaded_controller : ChristmasTreeSimulator.t sample_color :=
  ChristmasTreeSimulator.setData (frames_and_mapping two_frames sample_mapping)
    fresh_controller.

Definition sample_ops : list (ChristmasTreeSimulator.op sample_color) :=
  [ChristmasTreeSimulator.SetData (frames_and_mapping two_frames sample_mapping);
   ChristmasTreeSimulator.WriteIsPlaying sample_color true;
   ChristmasTreeSimulator.ProcessTimeAdvance sample_color 10;
   ChristmasTreeSimulator.SeekRelative sample_color (-9 # 4)].

Definition quiet_ops : list (ChristmasTreeSimulator.op sample_color) :=
  [ChristmasTreeSimulator.SetPlaybackRate sample_color 2;
   ChristmasTreeSimulator.WriteIsPlaying sample_color true;
   ChristmasTreeSimulator.ClearGeometryDirty sample_color].

(** * Proofs *)

(** ** The remainder on rationals *)

Lemma Qle_bool_false_lt (x y : Q) : Qle_bool x y = false -> y < x.
Proof.
  intros H. apply Qnot_le_lt. intros Hle. apply Qle_bool_iff in Hle. congruence.
Qed.

Lemma Qtrunc_nonneg (q : Q) : 0 <= q -> Qtrunc q = Qfloor q.
Proof.
  intros H. unfold Qtrunc. apply Qle_bool_iff in H. now rewrite H.
Qed.

Lemma Qtrunc_neg (q : Q) : q < 0 -> Qtrunc q = Qceiling q.
Proof.
  intros H. unfold Qtrunc. destruct (Qle_bool 0 q) eqn:E; [|reflexivity].
  apply Qle_bool_iff in E. lra.
Qed.

Lemma Qdiv_cancel (a b : Q) : ~ b == 0 -> b * (a / b) == a.
Proof. intros H. field. exact H. Qed.

Lemma Qrem_nonneg (a b : Q) : 0 <= a -> 0 < b -> 0 <= Qrem a b /\ Qrem a b < b.
Proof.
  intros Ha Hb. unfold Qrem.
  assert (Hb0 : ~ b == 0) by lra.
  pose proof (Qdiv_cancel a Hb0) as Hc.
  set (c := a / b) in *.
  assert (Hc0 : 0 <= c).
  { destruct (Qlt_le_dec c 0) as [Hn|Hp]; [|exact Hp]. nra. }
  rewrite (Qtrunc_nonneg Hc0).
  pose proof (Qfloor_le c) as Hlo. pose proof (Qlt_floor c) as Hhi.
  rewrite inject_Z_plus in Hhi. 
  set (k := inject_Z (Qfloor c)) in *. change (inject_Z 1) with 1 in Hhi.
  assert (H1 : b * k <= b * c) by (apply Qmult_le_l; assumption).
  assert (H2 : b * c < b * (k + 1)) by (apply Qmult_lt_l; assumption).
  split; lra.
Qed.

Lemma Qrem_neg (a b : Q) : a < 0 -> 0 < b -> - b < Qrem a b /\ Qrem a b <= 0.
Proof.
  intros Ha Hb. unfold Qrem.
  assert (Hb0 : ~ b == 0) by lra.
  pose proof (Qdiv_cancel a Hb0) as Hc.
  set (c := a / b) in *.
  assert (Hc0 : c < 0).
  { destruct (Qlt_le_dec c 0) as [Hn|Hp]; [exact Hn|]. nra. }
  rewrite (Qtrunc_neg Hc0).
  pose proof (Qle_ceiling c) as Hlo. pose proof (Qceiling_lt c) as Hhi.
  unfold Z.sub in Hhi. rewrite inject_Z_plus in Hhi. 
  set (k := inject_Z (Qceiling c)) in *. change (inject_Z (-1)) with (-1) in Hhi.
  assert (H1 : b * c <= b * k) by (apply Qmult_le_l; assumption).
  assert (H2 : b * (k + -1) < b * c) by (apply Qmult_lt_l; assumption).
  split; lra.
Qed.


(** ** Rounding to binary64 *)

Lemma pow2_pos (e : Z) : 0 < 2 ^ e.
Proof. apply Qpower_0_lt. reflexivity. Qed.

Lemma pow2_plus (a b : Z) : 2 ^ (a + b) == 2 ^ a * 2 ^ b.
Proof. apply Qpower_plus. discriminate. Qed.

Lemma pow2_le (a b : Z) : (a <= b)%Z -> 2 ^ a <= 2 ^ b.
Proof. intros H. apply Qpower_le_compat_l; [exact H|]. discriminate. Qed.

Lemma rne_cases (x : Q) : rne x = Qfloor x \/ rne x = (Qfloor x + 1)%Z.
Proof.
  unfold rne. destruct (Qcompare _ _); auto. destruct (Z.even _); auto.
Qed.

Lemma rne_bounds (x : Q) : x - 1 <= inject_Z (rne x) /\ inject_Z (rne x) <= x + 1.
Proof.
  pose proof (Qfloor_le x) as Hlo. pose proof (Qlt_floor x) as Hhi.
  rewrite inject_Z_plus in Hhi. change (inject_Z 1) with 1 in Hhi.
  destruct (rne_cases x) as [E|E]; rewrite E.
  - split; lra.
  - rewrite inject_Z_plus. change (inject_Z 1) with 1. split; lra.
Qed.

Lemma rne_nonneg (x : Q) : 0 <= x -> (0 <= rne x)%Z.
Proof.
  intros H. assert (Hf : (0 <= Qfloor x)%Z).
  { change 0%Z with (Qfloor 0). now apply Qfloor_resp_le. }
  destruct (rne_cases x) as [E|E]; rewrite E; lia.
Qed.

Lemma ilog2_le (q : Q) : 0 < q -> 2 ^ ilog2 q <= q.
Proof.
  intros Hq. unfold ilog2.
  set (a := Z.log2 (Qnum q)). set (b := Z.log2 (Zpos (Qden q))).
  destruct (Qle_bool (2 ^ (a - b)) q) eqn:E.
  - now apply Qle_bool_iff.
  - destruct q as [n d]. cbn [Qnum Qden] in *.
    assert (Hn : (0 < n)%Z).
    { unfold Qlt in Hq. cbn in Hq. lia. }
    pose proof (Z.log2_spec n Hn) as [Hn1 _]. fold a in Hn1.
    assert (Hd : (0 < Zpos d)%Z) by lia.
    pose proof (Z.log2_spec (Zpos d) Hd) as [_ Hd2]. fold b in Hd2.
    assert (Ha : (0 <= a)%Z) by apply Z.log2_nonneg.
    assert (Hb : (0 <= b)%Z) by apply Z.log2_nonneg.
    setoid_replace (n # d) with (inject_Z n / inject_Z (Zpos d))
      by apply Qmake_Qdiv.
    apply Qle_shift_div_l; [reflexivity|].
    assert (E1 : 2 ^ (a - b - 1) * 2 ^ (b + 1) == 2 ^ a).
    { rewrite <- pow2_plus. now replace (a - b - 1 + (b + 1))%Z with a by lia. }
    assert (E2 : inject_Z (Zpos d) <= 2 ^ (b + 1)).
    { change 2 with (inject_Z 2). rewrite <- Zpower_Qpower by lia.
      rewrite <- Zle_Qle. unfold Z.succ in Hd2. lia. }
    assert (E3 : 2 ^ a <= inject_Z n).
    { change 2 with (inject_Z 2). rewrite <- Zpower_Qpower by lia.
      now rewrite <- Zle_Qle. }
    pose proof (pow2_pos (a - b - 1)) as Hp.
    assert (E4 : 2 ^ (a - b - 1) * inject_Z (Zpos d) <= 2 ^ (a - b - 1) * 2 ^ (b + 1)).
    { apply Qmult_le_l; assumption. }
    lra.
Qed.

Lemma exponent_bound (q : Q) : 0 < q -> 2 ^ Num.exponent q <= ulp_bound q.
Proof.
  intros Hq. unfold Num.exponent, ulp_bound.
  pose proof (pow2_pos (-52)) as H52. pose proof (pow2_pos (-1074)) as H1074.
  assert (Hq52 : 0 <= q * 2 ^ (-52)).
  { apply Qmult_le_0_compat; lra. }
  destruct (Z.max_spec (ilog2 q - 52) (-1074)) as [[_ E]|[_ E]]; rewrite E.
  - lra.
  - replace (ilog2 q - 52)%Z with (ilog2 q + -52)%Z by lia.
    rewrite pow2_plus. pose proof (ilog2_le Hq) as Hl.
    assert (2 ^ ilog2 q * 2 ^ (-52) <= q * 2 ^ (-52)).
    { apply Qmult_le_compat_r; lra. }
    lra.
Qed.

(** Rounding a positive number: overflow, or a non-negative double within
    [ulp_bound] of it. *)
Lemma round_pos_cases (q : Q) :
  0 < q ->
  (round_pos q = PInf /\ 2 ^ 1024 <= q + ulp_bound q) \/
  exists r, round_pos q = Fin r /\ 0 <= r /\ r < 2 ^ 1024 /\
            q - ulp_bound q <= r /\ r <= q + ulp_bound q.
Proof.
  intros Hq. unfold round_pos.
  pose proof (exponent_bound Hq) as He.
  set (e := Num.exponent q) in *.
  pose proof (pow2_pos e) as Hp.
  set (x := q / 2 ^ e).
  assert (Hx : x * 2 ^ e == q) by (unfold x; field; lra).
  assert (Hx0 : 0 <= x).
  { unfold x. apply Qle_shift_div_l; [exact Hp|]. lra. }
  pose proof (rne_bounds x) as [Hlo Hhi].
  pose proof (rne_nonneg Hx0) as Hm.
  set (m := inject_Z (rne x)) in *.
  assert (Hm0 : 0 <= m).
  { unfold m. change 0 with (inject_Z 0). now rewrite <- Zle_Qle. }
  assert (H1 : (x - 1) * 2 ^ e <= m * 2 ^ e) by (apply Qmult_le_compat_r; lra).
  assert (H2 : m * 2 ^ e <= (x + 1) * 2 ^ e) by (apply Qmult_le_compat_r; lra).
  assert (H3 : 0 <= m * 2 ^ e) by (apply Qmult_le_0_compat; lra).
  destruct (Qle_bool (2 ^ 1024) (m * 2 ^ e)) eqn:E.
  - left. split; [reflexivity|]. apply Qle_bool_iff in E. lra.
  - right. exists (Qred (m * 2 ^ e)). split; [reflexivity|].
    rewrite Qred_correct.
    apply Qle_bool_false_lt in E.
    repeat split; try assumption; lra.
Qed.

Lemma round_of_pos (q : Q) : 0 < q -> round q = round_pos q.
Proof.
  intros H. unfold round. destruct (Qcompare q 0) eqn:E.
  - apply Qeq_alt in E. lra.
  - apply Qlt_alt in E. lra.
  - reflexivity.
Qed.

Lemma round_of_neg (q : Q) : q < 0 -> round q = neg (round_pos (- q)).
Proof.
  intros H. unfold round. destruct (Qcompare q 0) eqn:E.
  - apply Qeq_alt in E. lra.
  - reflexivity.
  - apply Qgt_alt in E. lra.
Qed.

Lemma round_of_zero (q : Q) : q == 0 -> round q = Fin 0.
Proof.
  intros H. unfold round. destruct (Qcompare q 0) eqn:E.
  - reflexivity.
  - apply Qlt_alt in E. lra.
  - apply Qgt_alt in E. lra.
Qed.

(** Rounding a number that is not negative. *)
Lemma round_nonneg (q : Q) :
  0 <= q ->
  (round q = PInf /\ 2 ^ 1024 <= q + ulp_bound q) \/
  exists r, round q = Fin r /\ 0 <= r /\ r < 2 ^ 1024 /\
            q - ulp_bound q <= r /\ r <= q + ulp_bound q.
Proof.
  intros H. destruct (Qlt_le_dec 0 q) as [Hp|Hz].
  - rewrite (round_of_pos Hp). now apply round_pos_cases.
  - assert (E : q == 0) by lra. rewrite (round_of_zero E).
    right. exists 0. unfold ulp_bound.
    pose proof (pow2_pos (-1074)). pose proof (pow2_pos 1024). rewrite E.
    repeat split; lra.
Qed.

(** Rounding a negative number. *)
Lemma round_neg (q : Q) :
  q < 0 ->
  (round q = NInf /\ 2 ^ 1024 <= - q + ulp_bound (- q)) \/
  exists r, round q = Fin r /\ r <= 0 /\ - 2 ^ 1024 < r /\
            q - ulp_bound (- q) <= r /\ r <= q + ulp_bound (- q).
Proof.
  intros H. rewrite (round_of_neg H).
  assert (Hp : 0 < - q) by lra.
  destruct (round_pos_cases Hp) as [[E Hb]|[r [E [H0 [H1 [H2 H3]]]]]]; rewrite E.
  - left. split; [reflexivity|exact Hb].
  - right. exists (- r). split; [reflexivity|]. repeat split; lra.
Qed.

Lemma Qmult_le_nonneg_l (x y z : Q) : x <= y -> 0 <= z -> z * x <= z * y.
Proof.
  intros H Hz. rewrite (Qmult_comm z x), (Qmult_comm z y).
  now apply Qmult_le_compat_r.
Qed.

Lemma ulp_bound_half (q : Q) : 0 <= q -> ulp_bound q <= q * (1 # 2) + 2 ^ (-1074).
Proof.
  intros H. unfold ulp_bound.
  assert (q * 2 ^ (-52) <= q * (1 # 2)).
  { apply Qmult_le_nonneg_l; [|exact H]. vm_compute. discriminate. }
  lra.
Qed.

(** No overflow up to [2^1023]. *)
Lemma round_nonneg_fin (q : Q) :
  0 <= q -> q <= 2 ^ 1023 ->
  exists r, round q = Fin r /\ 0 <= r /\ r < 2 ^ 1024 /\
            q - ulp_bound q <= r /\ r <= q + ulp_bound q.
Proof.
  intros H0 H1. destruct (round_nonneg H0) as [[_ Hb]|Hr]; [|exact Hr].
  exfalso. pose proof (ulp_bound_half H0) as Hu.
  assert (E : 2 ^ 1024 == 2 * 2 ^ 1023) by reflexivity.
  assert (Hs : 2 ^ (-1074) < (1 # 2) * 2 ^ 1023) by reflexivity.
  set (a := 2 ^ 1023) in *. set (b := 2 ^ 1024) in *. set (c := 2 ^ (-1074)) in *.
  lra.
Qed.

(** ** The playback controller: the stored time is never negative *)

Section SimulatorFacts.

Import ChristmasTreeSimulator.

Variable Color : Type.

Lemma Qzero_false (q : Q) : ~ q == 0 -> Qzero q = false.
Proof.
  intros H. unfold Qzero. destruct (Qeq_bool q 0) eqn:E; [|reflexivity].
  apply Qeq_bool_eq in E. contradiction.
Qed.

Lemma Qzero_false_inv (q : Q) : Qzero q = false -> ~ q == 0.
Proof.
  unfold Qzero. intros H E. apply Qeq_eq_bool in E. congruence.
Qed.

Lemma Qzero_true (q : Q) : q == 0 -> Qzero q = true.
Proof. intros H. unfold Qzero. now apply Qeq_eq_bool. Qed.

Lemma epsilon_pos : 0 < epsilon.
Proof. vm_compute. reflexivity. Qed.

Lemma ltb_Fin_true (x y : Q) : ltb (Fin x) (Fin y) = true -> x < y.
Proof.
  simpl. intros H. apply Qle_bool_false_lt. now destruct (Qle_bool y x).
Qed.

Lemma ltb_Fin_false (x y : Q) : ltb (Fin x) (Fin y) = false -> y <= x.
Proof.
  simpl. intros H. apply Qle_bool_iff. now destruct (Qle_bool y x).
Qed.

Lemma ltb_Fin_intro (x y : Q) : x < y -> ltb (Fin x) (Fin y) = true.
Proof.
  intros H. simpl. destruct (Qle_bool y x) eqn:E; [|reflexivity].
  apply Qle_bool_iff in E. lra.
Qed.

Lemma rem_finite (x d : Q) : ~ d == 0 -> rem (Fin x) (Fin d) = Fin (Qrem x d).
Proof. intros H. simpl. now rewrite (Qzero_false H). Qed.

Lemma round_pos_not_NaN (q : Q) : round_pos q <> NaN.
Proof. unfold round_pos. now destruct (Qle_bool _ _). Qed.

Lemma round_not_NaN (q : Q) : round q <> NaN.
Proof.
  unfold round. destruct (Qcompare q 0); try discriminate.
  - pose proof (round_pos_not_NaN (- q)). now destruct (round_pos (- q)).
  - apply round_pos_not_NaN.
Qed.

(** The frame duration is a number or an infinity. *)
Lemma frameDuration_not_NaN (s : t Color) : frameDuration s <> NaN.
Proof.
  unfold frameDuration, div. destruct (Qzero (baseFrameRate s)).
  - now cbn.
  - apply round_not_NaN.
Qed.

(** [Math.max(1e-9, x)]. *)
Lemma max_epsilon_cases (x : num) :
  (exists d, max (Fin epsilon) x = Fin d /\ epsilon <= d) \/
  (max (Fin epsilon) x = PInf /\ x = PInf) \/
  (max (Fin epsilon) x = NaN /\ x = NaN).
Proof.
  destruct x as [y| | |]; cbn.
  - left. destruct (Qle_bool epsilon y) eqn:E.
    + exists y. split; [reflexivity|]. now apply Qle_bool_iff.
    + exists epsilon. split; [reflexivity|]. apply Qle_refl.
  - right. left. now split.
  - left. exists epsilon. split; [reflexivity|]. apply Qle_refl.
  - right. right. now split.
Qed.

(** The duration is a number not below [epsilon], [Infinity] or [NaN]. *)
Lemma duration_cases (s : t Color) :
  (exists d, duration s = Fin d /\ epsilon <= d) \/
  duration s = PInf \/ duration s = NaN.
Proof.
  unfold duration.
  destruct (max_epsilon_cases (mul (of_nat (frameCount s)) (frameDuration s)))
    as [H|[[H _]|[H _]]]; auto.
Qed.

(** The product of the frame count and the frame duration is [NaN] only
    for no frame and an infinite frame duration. *)
Lemma frames_times_duration_NaN (s : t Color) :
  mul (of_nat (frameCount s)) (frameDuration s) = NaN <->
  frameCount s = 0%nat /\ (frameDuration s = PInf \/ frameDuration s = NInf).
Proof.
  pose proof (frameDuration_not_NaN s) as Hfd.
  unfold of_nat, of_Z.
  destruct (frameCount s) as [|n]; destruct (frameDuration s) as [y| | |];
    try contradiction; unfold mul.
  - split; [intros H; now apply round_not_NaN in H|].
    intros [_ [H|H]]; discriminate.
  - cbn. split; [intros _|reflexivity]. split; [reflexivity|now left].
  - cbn. split; [intros _|reflexivity]. split; [reflexivity|now right].
  - split; [intros H; now apply round_not_NaN in H|].
    intros [H _]; discriminate.
  - assert (E : Qzero (inject_Z (Z.of_nat (S n))) = false) by reflexivity.
    rewrite E. split; [now destruct (Qpos _)|]. intros [H _]; discriminate.
  - assert (E : Qzero (inject_Z (Z.of_nat (S n))) = false) by reflexivity.
    rewrite E. split; [now destruct (Qneg _)|]. intros [H _]; discriminate.
Qed.

Lemma duration_NaN_iff (s : t Color) :
  duration s = NaN <->
  frameCount s = 0%nat /\ (frameDuration s = PInf \/ frameDuration s = NInf).
Proof.
  rewrite <- frames_times_duration_NaN. unfold duration.
  destruct (max_epsilon_cases (mul (of_nat (frameCount s)) (frameDuration s)))
    as [[d [H _]]|[[H Hx]|[H Hx]]]; rewrite H.
  - split; [discriminate|]. intros E. rewrite E in H. discriminate.
  - split; [discriminate|]. intros E. rewrite E in Hx. discriminate.
  - split; [intros _; exact Hx|reflexivity].
Qed.

Lemma duration_not_NaN (s : t Color) :
  (0 < frameCount s)%nat -> duration s <> NaN.
Proof.
  intros Hn H. apply duration_NaN_iff in H. lia.
Qed.

(** The setter stores a number that is not negative, [Infinity] or [NaN],
    whatever it is given. *)
Lemma set_currentTime_stored (s : t Color) (val : num) :
  stored_time_ok (set_currentTime val s).
Proof.
  unfold stored_time_ok, set_currentTime. cbn [_currentTime].
  destruct (ltb val (Fin 0)) eqn:E.
  - destruct val as [v| | |]; try discriminate.
    + apply ltb_Fin_true in E.
      destruct (duration_cases s) as [[d [Hd Hle]]|[Hd|Hd]]; rewrite Hd.
      * pose proof epsilon_pos as He.
        assert (Hd0 : ~ d == 0) by lra.
        rewrite (rem_finite v Hd0). cbn [add].
        assert (Hdp : 0 < d) by lra.
        destruct (Qrem_neg (a:=v) (b:=d)) as [H1 H2]; [assumption..|].
        assert (Hs : 0 <= Qrem v d + d) by lra.
        destruct (round_nonneg Hs) as [[Hr _]|[r [Hr [Hr0 _]]]]; rewrite Hr.
        -- exact I.
        -- exact Hr0.
      * exact I.
      * exact I.
    + cbn. exact I.
  - destruct val as [v| | |]; try discriminate; try exact I.
    now apply ltb_Fin_false in E.
Qed.

Lemma step_stored (s : t Color) (o : op Color) :
  stored_time_ok s -> stored_time_ok (step s o).
Proof.
  intros Hs.
  destruct o as [v|p|ro|d| | |dt|dt|r|b]; cbn [step];
    try apply set_currentTime_stored; try exact Hs.
  - unfold processTimeAdvance. destruct (isPlaying s); [|exact Hs].
    apply set_currentTime_stored.
  - unfold setPlaybackRate. destruct (strict_neqb _ _); exact Hs.
Qed.

Lemma run_stored (ops : list (op Color)) (s : t Color) :
  stored_time_ok s -> stored_time_ok (run ops s).
Proof.
  revert s. induction ops as [|o ops IH]; intros s Hs; cbn.
  - exact Hs.
  - apply IH. now apply step_stored.
Qed.

Lemma new_stored (o : options) (s : t Color) :
  new Color o = Ok s -> stored_time_ok s.
Proof.
  unfold new. intros Hnew.
  destruct (ltb _ _) eqn:E; [discriminate|].
  apply ltb_Fin_false in E. inversion Hnew; subst; clear Hnew.
  exact E.
Qed.

(** Reading the time: [NaN], or a number from 0 and below the duration. *)
Lemma currentTime_cases (s : t Color) :
  stored_time_ok s ->
  currentTime s = NaN \/
  exists t, currentTime s = Fin t /\ 0 <= t /\ ltb (Fin t) (duration s) = true.
Proof.
  unfold stored_time_ok, currentTime.
  destruct (_currentTime s) as [q| | |]; intros Hq; try (now left).
  destruct (duration_cases s) as [[d [Hd Hle]]|[Hd|Hd]]; rewrite Hd.
  - pose proof epsilon_pos as He.
    assert (Hd0 : ~ d == 0) by lra.
    right. exists (Qrem q d). rewrite (rem_finite q Hd0).
    destruct (Qrem_nonneg (a:=q) (b:=d)) as [H1 H2]; [assumption|lra|].
    split; [reflexivity|]. split; [exact H1|]. now apply ltb_Fin_intro.
  - right. exists q. repeat split. exact Hq.
  - now left.
Qed.

(** With a duration that is a number or [Infinity], the time read is [NaN]
    exactly when the stored time is not finite. *)
Lemma currentTime_NaN_iff (s : t Color) :
  duration s <> NaN ->
  (currentTime s = NaN <-> forall q, _currentTime s <> Fin q).
Proof.
  intros Hd. unfold currentTime.
  destruct (_currentTime s) as [q| | |].
  - destruct (duration_cases s) as [[d [Ed Hle]]|[Ed|Ed]];
      [|rewrite Ed|contradiction].
    + rewrite Ed. pose proof epsilon_pos as He.
      assert (Hd0 : ~ d == 0) by lra.
      rewrite (rem_finite q Hd0).
      split; [discriminate|]. intros H. now destruct (H q).
    + cbn. split; [discriminate|]. intros H. now destruct (H q).
  - cbn. split; [intros _ q; discriminate|reflexivity].
  - cbn. split; [intros _ q; discriminate|reflexivity].
  - cbn. split; [intros _ q; discriminate|reflexivity].
Qed.

Lemma duration_set_currentTime (val : num) (s : t Color) :
  duration (set_currentTime val s) = duration s.
Proof. reflexivity. Qed.

Lemma duration_Fin_pos (s : t Color) (d : Q) : duration s = Fin d -> 0 < d.
Proof.
  intros Hd. pose proof epsilon_pos.
  destruct (duration_cases s) as [[d' [Ed Hle]]|[Ed|Ed]]; rewrite Ed in Hd;
    inversion Hd; subst. lra.
Qed.

Lemma ltb_neg (v : Q) : v < 0 -> ltb (Fin v) (Fin 0) = true.
Proof. apply ltb_Fin_intro. Qed.

Lemma ltb_nonneg (v : Q) : 0 <= v -> ltb (Fin v) (Fin 0) = false.
Proof.
  intros H. cbn. apply Qle_bool_iff in H. now rewrite H.
Qed.

(** What the setter stores, for a duration that is a number. *)
Lemma set_currentTime_negative (s : t Color) (v d : Q) :
  duration s = Fin d -> v < 0 ->
  _currentTime (set_currentTime (Fin v) s) = round (Qrem v d + d).
Proof.
  intros Hd Hv. pose proof (duration_Fin_pos s Hd) as Hpos.
  unfold set_currentTime. cbn [_currentTime].
  rewrite (ltb_neg Hv), Hd, rem_finite by lra. reflexivity.
Qed.

Lemma set_currentTime_nonneg (s : t Color) (v : Q) :
  0 <= v -> _currentTime (set_currentTime (Fin v) s) = Fin v.
Proof.
  intros Hv. unfold set_currentTime. cbn [_currentTime].
  now rewrite (ltb_nonneg Hv).
Qed.

(** Reading a stored time that is a number, with a duration that is a
    number. *)
Lemma currentTime_finite (s : t Color) (q d : Q) :
  _currentTime s = Fin q -> 0 <= q -> duration s = Fin d ->
  currentTime s = Fin (Qrem q d) /\ 0 <= Qrem q d /\ Qrem q d < d.
Proof.
  intros Hq Hq0 Hd. pose proof (duration_Fin_pos s Hd) as Hpos.
  unfold currentTime. rewrite Hq, Hd, rem_finite by lra.
  split; [reflexivity|]. now apply Qrem_nonneg.
Qed.

End SimulatorFacts.

(** ** Arguments of moderate size keep every number finite *)

Lemma Qabs_mult_le (a b A B : Q) :
  Qabs a <= A -> Qabs b <= B -> Qabs (a * b) <= A * B.
Proof.
  intros Ha Hb. rewrite Qabs_Qmult.
  apply Qmult_le_compat_nonneg; split; auto using Qabs_nonneg.
Qed.

(** Rounding a number of magnitude at most [B], for [1 <= B <= 2^1022]:
    no overflow, and the magnitude at most doubles. *)
Lemma round_moderate (q B : Q) :
  1 <= B -> B <= 2 ^ 1022 -> Qabs q <= B ->
  exists r, round q = Fin r /\ Qabs r <= 2 * B /\ (0 <= q -> 0 <= r).
Proof.
  intros HB1 HB2 Hq. apply Qabs_Qle_condition in Hq. destruct Hq as [Hlo Hhi].
  assert (Hc : 2 ^ (-1074) <= 1 # 2) by (vm_compute; discriminate).
  assert (E : 2 ^ 1024 == 4 * 2 ^ 1022) by reflexivity.
  assert (E' : 2 ^ 1023 == 2 * 2 ^ 1022) by reflexivity.
  destruct (Qlt_le_dec q 0) as [Hn|Hp].
  - assert (Hq0 : 0 <= - q) by lra. pose proof (ulp_bound_half Hq0) as Hu.
    destruct (round_neg Hn) as [[_ Hov]|[r [Er [Hr0 [_ [Hr1 _]]]]]].
    + exfalso.
      set (c := 2 ^ (-1074)) in *. set (a := 2 ^ 1022) in *.
      set (b := 2 ^ 1024) in *. lra.
    + exists r. split; [exact Er|]. split; [|intros; lra].
      apply Qabs_Qle_condition.
      set (c := 2 ^ (-1074)) in *. split; lra.
  - pose proof (ulp_bound_half Hp) as Hu.
    assert (H1023 : q <= 2 ^ 1023).
    { set (a := 2 ^ 1022) in *. set (b := 2 ^ 1023) in *. lra. }
    destruct (round_nonneg_fin Hp H1023) as [r [Er [Hr0 [_ [_ Hr1]]]]].
    exists r. split; [exact Er|]. split; [|intros; exact Hr0].
    apply Qabs_Qle_condition.
    set (c := 2 ^ (-1074)) in *. split; lra.
Qed.

Lemma Qabs_le_upper (x B : Q) : Qabs x <= B -> x <= B.
Proof. intros H. apply Qabs_Qle_condition in H. apply H. Qed.

Lemma Qabs_floor (x B : Q) : Qabs x <= B -> Qabs (inject_Z (Qfloor x)) <= B + 1.
Proof.
  intros H. apply Qabs_Qle_condition in H. destruct H as [Hlo Hhi].
  pose proof (Qfloor_le x) as H1. pose proof (Qlt_floor x) as H2.
  rewrite inject_Z_plus in H2. change (inject_Z 1) with 1 in H2.
  apply Qabs_Qle_condition. split; lra.
Qed.

Section TameFacts.

Import ChristmasTreeSimulator.

Variable Color : Type.

Lemma moderate_rate_pos (r : Q) : moderate_rate r -> 0 < Qabs r.
Proof.
  intros [H _]. pose proof (pow2_pos (-300)). lra.
Qed.

Lemma moderate_rate_nonzero (r : Q) : moderate_rate r -> ~ r == 0.
Proof.
  intros H E. apply moderate_rate_pos in H. rewrite E in H.
  now apply Qlt_irrefl in H.
Qed.

Lemma moderate_rate_inv (r : Q) : moderate_rate r -> Qabs (1 / r) <= 2 ^ 300.
Proof.
  intros H. pose proof (moderate_rate_pos H) as Hp. destruct H as [H _].
  unfold Qdiv. rewrite Qmult_1_l, Qabs_Qinv.
  apply Qle_shift_inv_r; [exact Hp|].
  assert (E : 2 ^ 300 * 2 ^ (-300) == 1) by reflexivity.
  assert (2 ^ 300 * 2 ^ (-300) <= 2 ^ 300 * Qabs r).
  { apply Qmult_le_nonneg_l; [exact H|]. apply Qlt_le_weak, pow2_pos. }
  lra.
Qed.

Lemma moderate_default_rate : moderate_rate 60.
Proof.
  split; [vm_compute; discriminate|]. split; [vm_compute; discriminate|].
  unfold representable. vm_compute. reflexivity.
Qed.

Lemma moderate_one : moderate 1.
Proof. vm_compute. discriminate. Qed.

Lemma moderate_zero : moderate 0.
Proof. vm_compute. discriminate. Qed.

(** The frame duration of a moderate frame rate. *)
Lemma tame_frameDuration (s : t Color) :
  moderate_rate (baseFrameRate s) ->
  exists f, frameDuration s = Fin f /\ Qabs f <= 2 ^ 301.
Proof.
  intros Hr. unfold frameDuration, div.
  rewrite (Qzero_false (moderate_rate_nonzero Hr)).
  assert (HB1 : 1 <= 2 ^ 300) by (vm_compute; discriminate).
  assert (HB2 : 2 ^ 300 <= 2 ^ 1022) by (apply pow2_le; lia).
  destruct (round_moderate _ HB1 HB2 (moderate_rate_inv Hr)) as [f [Ef [Hf _]]].
  exists f. split; [exact Ef|]. lra.
Qed.

Lemma frameCount_moderate (s : t Color) :
  array_sized (animationFrames s) ->
  Qabs (inject_Z (Z.of_nat (frameCount s))) <= 2 ^ 32.
Proof.
  unfold array_sized, frameCount. intros H.
  rewrite Qabs_pos.
  - change (2 ^ 32) with (inject_Z (2 ^ 32)). rewrite <- Zle_Qle. lia.
  - change 0 with (inject_Z 0). rewrite <- Zle_Qle. lia.
Qed.

Lemma epsilon_small : epsilon <= 1.
Proof. vm_compute. discriminate. Qed.

(** The duration of a controller with a moderate frame rate. *)
Lemma tame_duration (s : t Color) :
  moderate_rate (baseFrameRate s) -> array_sized (animationFrames s) ->
  exists d, duration s = Fin d /\ epsilon <= d /\ d <= 2 ^ 334.
Proof.
  intros Hr Hn. destruct (tame_frameDuration s Hr) as [f [Ef Hf]].
  pose proof (frameCount_moderate s Hn) as HN.
  unfold duration. rewrite Ef. unfold of_nat, of_Z. cbn [mul].
  pose proof (Qabs_mult_le _ _ HN Hf) as HP.
  assert (HB1 : 1 <= 2 ^ 32 * 2 ^ 301) by (vm_compute; discriminate).
  assert (HB2 : 2 ^ 32 * 2 ^ 301 <= 2 ^ 1022) by (vm_compute; discriminate).
  destruct (round_moderate _ HB1 HB2 HP) as [D [ED [HD _]]].
  rewrite ED. unfold max. pose proof epsilon_small as He.
  apply Qabs_le_upper in HD.
  destruct (Qle_bool epsilon D) eqn:E.
  - apply Qle_bool_iff in E. exists D. split; [reflexivity|].
    split; [exact E|]. lra.
  - exists epsilon. split; [reflexivity|]. split; [apply Qle_refl|]. lra.
Qed.

Lemma tame_well_formed (s : t Color) : tame s -> well_formed s.
Proof.
  intros [Hr [_ [_ [[q [Hq [Hq0 Hq1]]] Hn]]]]. split; [split|split].
  - now apply moderate_rate_nonzero.
  - apply Hr.
  - exists q. split; [exact Hq|]. split; [exact Hq0|].
    assert (2 ^ 700 < 2 ^ 1024) by reflexivity. lra.
  - exact Hn.
Qed.

(** Reading the time of a tame controller. *)
Lemma tame_currentTime (s : t Color) :
  tame s ->
  exists t d, currentTime s = Fin t /\ duration s = Fin d /\
              0 <= t /\ t < d /\ d <= 2 ^ 334.
Proof.
  intros [Hr [_ [_ [[q [Hq [Hq0 _]]] Hn]]]].
  destruct (tame_duration s Hr Hn) as [d [Hd [_ Hd1]]].
  destruct (currentTime_finite s Hq Hq0 Hd) as [Ht [Ht0 Ht1]].
  exists (Qrem q d), d. repeat split; assumption.
Qed.

(** The setter keeps a controller tame. *)
Lemma tame_set_currentTime (s : t Color) (v : Q) :
  tame s -> v <= 2 ^ 700 -> tame (set_currentTime (Fin v) s).
Proof.
  intros [Hr [Hp [Hi [_ Hn]]]] Hv.
  split; [exact Hr|]. split; [exact Hp|]. split; [exact Hi|]. split; [|exact Hn].
  destruct (Qlt_le_dec v 0) as [Hneg|Hpos].
  - destruct (tame_duration s Hr Hn) as [d [Hd [_ Hd1]]].
    pose proof (duration_Fin_pos s Hd) as Hd0.
    rewrite (set_currentTime_negative s Hd Hneg).
    destruct (Qrem_neg (a:=v) (b:=d) Hneg Hd0) as [H1 H2].
    assert (Hs : 0 <= Qrem v d + d) by lra.
    assert (Hs0 : Qrem v d + d <= d) by lra.
    assert (Hs1 : Qrem v d + d <= 2 ^ 1023).
    { assert (2 ^ 334 <= 2 ^ 1023) by (apply pow2_le; lia). lra. }
    destruct (round_nonneg_fin Hs Hs1) as [r [Er [Hr0 [_ [_ Hr1]]]]].
    exists r. split; [exact Er|]. split; [exact Hr0|].
    pose proof (ulp_bound_half Hs) as Hu.
    assert (Hc : 2 ^ (-1074) <= 1) by (vm_compute; discriminate).
    set (c := 2 ^ (-1074)) in *. set (x := Qrem v d + d) in *. lra.
  - exists v. split; [now apply set_currentTime_nonneg|]. split; assumption.
Qed.

(** A seek by a number of magnitude at most [2^602] keeps a controller
    tame. *)
Lemma tame_seekRelative (s : t Color) (delta : Q) :
  tame s -> Qabs delta <= 2 ^ 602 -> tame (seekRelative (Fin delta) s).
Proof.
  intros Hs Hd. destruct (tame_currentTime Hs) as [t [d [Ht [_ [Ht0 [Ht1 Hd1]]]]]].
  unfold seekRelative. rewrite Ht. cbn [add].
  assert (Hsum : Qabs (t + delta) <= 2 ^ 603).
  { apply Qabs_Qle_condition in Hd. apply Qabs_Qle_condition. split; lra. }
  assert (HB1 : 1 <= 2 ^ 603) by (vm_compute; discriminate).
  assert (HB2 : 2 ^ 603 <= 2 ^ 1022) by (apply pow2_le; lia).
  destruct (round_moderate _ HB1 HB2 Hsum) as [r [Er [Hr _]]].
  rewrite Er. apply tame_set_currentTime; [exact Hs|].
  apply Qabs_le_upper in Hr. lra.
Qed.

Lemma step_tame (s : t Color) (o : op Color) :
  tame s -> moderate_op o -> tame (step s o).
Proof.
  intros Hs Ho. pose proof Hs as [Hr [Hp [Hi [Hq Hn]]]].
  destruct o as [v|p|ro|d| | |dt|dt|r|b]; cbn [step moderate_op] in *.
  - apply tame_set_currentTime; [exact Hs|].
    apply Qabs_le_upper in Ho. lra.
  - unfold set_currentProgress.
    destruct (tame_frameDuration s Hr) as [f [Ef Hf]]. rewrite Ef.
    pose proof (frameCount_moderate s Hn) as HN.
    unfold of_nat, of_Z. cbn [mul].
    pose proof (Qabs_mult_le _ _ Ho HN) as HP.
    assert (HB1 : 1 <= 2 ^ 300 * 2 ^ 32) by (vm_compute; discriminate).
    assert (HB2 : 2 ^ 300 * 2 ^ 32 <= 2 ^ 1022) by (vm_compute; discriminate).
    destruct (round_moderate _ HB1 HB2 HP) as [r1 [E1 [H1 _]]].
    rewrite E1. cbn [floor]. unfold of_Z. cbn [mul].
    pose proof (Qabs_floor _ H1) as HK.
    pose proof (Qabs_mult_le _ _ HK Hf) as HP2.
    assert (HB3 : 1 <= (2 * (2 ^ 300 * 2 ^ 32) + 1) * 2 ^ 301)
      by (vm_compute; discriminate).
    assert (HB4 : (2 * (2 ^ 300 * 2 ^ 32) + 1) * 2 ^ 301 <= 2 ^ 1022)
      by (vm_compute; discriminate).
    destruct (round_moderate _ HB3 HB4 HP2) as [r2 [E2 [H2 _]]].
    rewrite E2. apply tame_set_currentTime; [exact Hs|].
    apply Qabs_le_upper in H2. lra.
  - destruct Ho as [Ho1 [Ho2 Ho3]]. unfold resetPlayback.
    apply tame_set_currentTime.
    + split; [|split; [|split; [exact Hi|split; [exact Hq|exact Hn]]]];
        cbn [baseFrameRate playbackRate].
      * destruct (reset_baseFrameRate ro); [exact Ho2|exact Hr].
      * destruct (reset_playbackRate ro); [exact Ho1|exact Hi].
    + destruct (reset_startTime ro) as [st|]; cbn [or_default].
      * apply Qabs_le_upper in Ho3. lra.
      * lra.
  - unfold setData. apply tame_set_currentTime; [|lra].
    split; [exact Hr|]. split; [exact Hp|]. split; [exact Hi|].
    split; [exact Hq|]. cbn [animationFrames].
    destruct (data_animationFrames d); [exact Ho|exact Hn].
  - exact Hs.
  - exact Hs.
  - unfold processTimeAdvance. destruct (isPlaying s); [|exact Hs].
    cbn [mul].
    pose proof (Qabs_mult_le _ _ Ho Hp) as HP.
    assert (HB1 : 1 <= 2 ^ 300 * 2 ^ 300) by (vm_compute; discriminate).
    assert (HB2 : 2 ^ 300 * 2 ^ 300 <= 2 ^ 1022) by (vm_compute; discriminate).
    destruct (round_moderate _ HB1 HB2 HP) as [r1 [E1 [H1 _]]].
    rewrite E1. apply tame_seekRelative; [exact Hs|]. lra.
  - apply tame_seekRelative; [exact Hs|].
    assert (2 ^ 300 <= 2 ^ 602) by (apply pow2_le; lia).
    unfold moderate in Ho. lra.
  - unfold setPlaybackRate. destruct (strict_neqb _ _); [|exact Hs].
    split; [exact Hr|]. split; [exact Ho|]. split; [exact Hi|].
    split; [exact Hq|exact Hn].
  - exact Hs.
Qed.

Lemma run_tame (ops : list (op Color)) (s : t Color) :
  tame s -> Forall (@moderate_op Color) ops -> tame (run ops s).
Proof.
  intros Hs Hops. revert s Hs.
  induction Hops as [|o ops Ho Hops IH]; intros s Hs; cbn.
  - exact Hs.
  - apply IH. now apply step_tame.
Qed.

Lemma new_tame (o : options) (s : t Color) :
  new Color o = Ok s -> moderate_options o -> tame s.
Proof.
  unfold new. intros Hnew [Ht [Hp Hr]].
  destruct (ltb _ _) eqn:E; [discriminate|].
  apply ltb_Fin_false in E. inversion Hnew; subst; clear Hnew.
  unfold tame.
  cbn [baseFrameRate playbackRate inititalPlaybackRate _currentTime animationFrames].
  split; [|split; [|split; [|split]]].
  - destruct (opt_baseFrameRate o); [exact Hr|apply moderate_default_rate].
  - destruct (opt_inititalPlaybackRate o); [exact Hp|apply moderate_one].
  - destruct (opt_inititalPlaybackRate o); [exact Hp|apply moderate_one].
  - eexists. split; [reflexivity|]. split; [exact E|].
    assert (H700 : 2 ^ 300 <= 2 ^ 700) by (apply pow2_le; lia).
    destruct (opt_startTime o) as [st|]; cbn [or_default] in *.
    + apply Qabs_le_upper in Ht. lra.
    + pose proof (pow2_pos 700). lra.
  - unfold array_sized. cbn. lia.
Qed.

End TameFacts.

Section PlaybackClaims.

Import ChristmasTreeSimulator.

Variable Color : Type.

(** C3 (as amended).  For every controller built by the constructor, after
    any finite sequence of operations with finite arguments (time writes,
    [seekRelative], [processTimeAdvance] and all the others), the stored
    time is a number that is not negative, [Infinity] or [NaN], and reading
    [currentTime] yields [NaN] or a number [t] with [0 <= t < duration].
    With at least one frame loaded the duration is not [NaN], and the time
    read is [NaN] exactly when the stored time is not a finite number.
    When the numeric options and arguments are at most [2^300] in
    magnitude, the frame rates are doubles of magnitude from [2^-300] to
    [2^300] and every frame array has fewer than [2^32] elements, no sum or
    product overflows: the duration is a number and the time read is a
    number [t] with [0 <= t < duration].  In particular, with four frames
    and [baseFrameRate = 2] the duration is 2, and writing
    [currentTime = -0.5] then reading yields 1.5. *)
Theorem currentTime_in_range_or_NaN :
  forall (o : options) (s0 : t Color) (ops : list (op Color)),
    new Color o = Ok s0 ->
    let s := run ops s0 in
    stored_time_ok s
    /\
    (currentTime s = NaN \/
     exists t, currentTime s = Fin t /\ 0 <= t /\
               ltb (Fin t) (duration s) = true)
    /\
    ((0 < frameCount s)%nat ->
     duration s <> NaN /\
     (currentTime s = NaN <-> forall q, _currentTime s <> Fin q))
    /\
    (moderate_options o -> Forall (@moderate_op Color) ops ->
     exists t d, currentTime s = Fin t /\ duration s = Fin d /\
                 0 <= t /\ t < d)
    /\
    (exists s2, new Color (with_baseFrameRate 2) = Ok s2 /\
       let s := run [SetData (only_frames (four_frames Color));
                     WriteCurrentTime Color (-1 # 2)] s2 in
       frameCount s = 4%nat /\
       duration s = Fin 2 /\
       currentTime s = Fin (3 # 2)).
Proof.
  intros o s0 ops Hnew s.
  assert (Hs : stored_time_ok s).
  { apply run_stored. now apply new_stored with (o := o). }
  split; [exact Hs|]. split; [now apply currentTime_cases|].
  split; [|split].
  - intros Hn. pose proof (duration_not_NaN s Hn) as Hd.
    split; [exact Hd|]. now apply currentTime_NaN_iff.
  - intros Ho Hops.
    assert (Ht : tame s).
    { apply run_tame; [|exact Hops]. now apply new_tame with (o := o). }
    destruct (tame_currentTime Ht) as [t [d [H1 [H2 [H3 [H4 _]]]]]].
    exists t, d. repeat split; assumption.
  - eexists. split; [reflexivity|]. vm_compute. repeat split.
Qed.

End PlaybackClaims.
(** ** The remainder on integers *)

Lemma Qdiv_inject_Z_nonneg (k : Z) (p : positive) :
  (0 <= k)%Z -> 0 <= inject_Z k / inject_Z (Zpos p).
Proof.
  intros H. apply Qle_shift_div_l; [reflexivity|].
  rewrite Qmult_0_l. change 0 with (inject_Z 0). now rewrite <- Zle_Qle.
Qed.

Lemma Qdiv_inject_Z_neg (k : Z) (p : positive) :
  (k < 0)%Z -> inject_Z k / inject_Z (Zpos p) < 0.
Proof.
  intros H. apply Qlt_shift_div_r; [reflexivity|].
  rewrite Qmult_0_l. change 0 with (inject_Z 0). now rewrite <- Zlt_Qlt.
Qed.

Lemma Qfloor_div_inject_Z (k : Z) (p : positive) :
  Qfloor (inject_Z k / inject_Z (Zpos p)) = (k / Zpos p)%Z.
Proof.
  unfold Qdiv, Qmult, Qinv, inject_Z, Qfloor. cbn.
  now rewrite Z.mul_1_r.
Qed.

Lemma Qtrunc_div_inject_Z (k : Z) (p : positive) :
  Qtrunc (inject_Z k / inject_Z (Zpos p)) = (k ÷ Zpos p)%Z.
Proof.
  destruct (Z_lt_le_dec k 0) as [Hn|Hp].
  - rewrite (Qtrunc_neg (Qdiv_inject_Z_neg p Hn)).
    unfold Qceiling.
    assert (E : - (inject_Z k / inject_Z (Zpos p)) == inject_Z (- k) / inject_Z (Zpos p)).
    { rewrite inject_Z_opp. field. discriminate. }
    rewrite E, Qfloor_div_inject_Z.
    rewrite <- Z.quot_div_nonneg by lia.
    rewrite Z.quot_opp_l by lia. lia.
  - rewrite (Qtrunc_nonneg (Qdiv_inject_Z_nonneg p Hp)).
    rewrite Qfloor_div_inject_Z. symmetry. apply Z.quot_div_nonneg; lia.
Qed.

Lemma Qrem_inject_Z (k : Z) (p : positive) :
  Qrem (inject_Z k) (inject_Z (Zpos p)) == inject_Z (Z.rem k (Zpos p)).
Proof.
  unfold Qrem. rewrite Qtrunc_div_inject_Z.
  rewrite <- inject_Z_mult. unfold Qminus. rewrite <- inject_Z_opp, <- inject_Z_plus.
  apply inject_Z_injective.
  pose proof (Z.quot_rem' k (Zpos p)). lia.
Qed.


Section FrameIndexFacts.

Import ChristmasTreeSimulator.

Variable Color : Type.

(** A positive double is below [2^1024]. *)
Lemma representable_pos_lt (r : Q) : 0 < r -> representable r -> r < 2 ^ 1024.
Proof.
  intros Hr H. unfold representable in H. rewrite (round_of_pos Hr) in H.
  destruct (round_pos_cases Hr) as [[E _]|[r' [E [_ [Hlt _]]]]];
    rewrite E in H; cbn [Num.equiv] in H.
  - contradiction.
  - now rewrite <- H.
Qed.

Lemma Qinv_lower (r : Q) : 0 < r -> r < 2 ^ 1024 -> 2 ^ (-1024) < 1 / r.
Proof.
  intros Hr Hlt. apply Qlt_shift_div_l; [exact Hr|].
  assert (E : 2 ^ (-1024) * 2 ^ 1024 == 1) by reflexivity.
  assert (H : 2 ^ (-1024) * r < 2 ^ (-1024) * 2 ^ 1024).
  { apply Qmult_lt_l; [apply pow2_pos|exact Hlt]. }
  lra.
Qed.

(** With a positive frame rate the frame duration is [Infinity] or a
    positive number. *)
Lemma frameDuration_positive (s : t Color) :
  0 < baseFrameRate s -> representable (baseFrameRate s) ->
  frameDuration s = PInf \/
  exists f, frameDuration s = Fin f /\ 2 ^ (-1026) < f.
Proof.
  intros Hr Hrep. pose proof (representable_pos_lt Hr Hrep) as Hlt.
  pose proof (Qinv_lower Hr Hlt) as Hy.
  unfold frameDuration, div. rewrite Qzero_false by lra.
  set (y := 1 / baseFrameRate s) in *.
  pose proof (pow2_pos (-1024)) as Hp.
  assert (Hy0 : 0 < y) by lra.
  rewrite (round_of_pos Hy0).
  destruct (round_pos_cases Hy0) as [[E _]|[f [E [_ [_ [Hlo _]]]]]]; rewrite E.
  - now left.
  - right. exists f. split; [reflexivity|].
    assert (Hy1 : 0 <= y) by lra.
    pose proof (ulp_bound_half Hy1) as Hu.
    assert (Hc : 2 ^ (-1026) + 2 ^ (-1074) < (1 # 2) * 2 ^ (-1024)) by reflexivity.
    set (c := 2 ^ (-1074)) in *. set (a := 2 ^ (-1024)) in *.
    set (b := 2 ^ (-1026)) in *. lra.
Qed.

Lemma of_nat_positive (n : nat) : (0 < n)%nat -> 0 < inject_Z (Z.of_nat n).
Proof.
  intros H. change 0 with (inject_Z 0). rewrite <- Zlt_Qlt. lia.
Qed.

Lemma Qpos_true (x : Q) : 0 < x -> Qpos x = true.
Proof.
  intros H. unfold Qpos. destruct (Qle_bool x 0) eqn:E; [|reflexivity].
  apply Qle_bool_iff in E. lra.
Qed.

(** A quotient that does not overflow. *)
Lemma quotient_bound (t f : Q) :
  0 <= t -> 0 < f -> t <= 2 ^ 997 * f ->
  exists x, div (Fin t) (Fin f) = Fin x /\ 0 <= x.
Proof.
  intros Ht Hf Hb. unfold div. rewrite Qzero_false by lra.
  assert (H0 : 0 <= t / f).
  { apply Qle_shift_div_l; [exact Hf|]. now rewrite Qmult_0_l. }
  assert (H1 : t / f <= 2 ^ 997).
  { apply Qle_shift_div_r; [exact Hf|exact Hb]. }
  assert (H2 : 2 ^ 997 <= 2 ^ 1023) by (apply pow2_le; lia).
  destruct (@round_nonneg_fin (t / f)) as [x [E [Hx _]]]; [exact H0|lra|].
  now exists x.
Qed.

(** With a positive frame rate and at least one frame, the quotient of the
    time read and the frame duration is a number that is not negative. *)
Lemma quotient_cases (s : t Color) :
  well_formed s -> 0 < baseFrameRate s -> (0 < frameCount s)%nat ->
  exists x, div (currentTime s) (frameDuration s) = Fin x /\ 0 <= x.
Proof.
  intros [[Hb Hrep] [[q [Hq [Hq0 Hq1]]] Hn32]] Hr Hn.
  pose proof (of_nat_positive Hn) as HN.
  assert (HN32 : inject_Z (Z.of_nat (frameCount s)) <= 2 ^ 32).
  { change (2 ^ 32) with (inject_Z (2 ^ 32)). rewrite <- Zle_Qle. lia. }
  unfold currentTime, duration, of_nat, of_Z. rewrite Hq.
  set (N := inject_Z (Z.of_nat (frameCount s))) in *.
  destruct (frameDuration_positive s Hr Hrep) as [Hfd|[f [Hfd Hf]]]; rewrite Hfd.
  - unfold mul. rewrite Qzero_false by lra. rewrite (Qpos_true HN).
    cbn. exists 0. split; [reflexivity|apply Qle_refl].
  - pose proof (pow2_pos (-1026)) as Hp.
    assert (Hf0 : 0 < f) by lra.
    assert (Hc : 2 ^ (-1074) <= 2 ^ (-1026)) by (apply pow2_le; lia).
    assert (HP : N * f <= 2 ^ 32 * f).
    { apply Qmult_le_compat_r; lra. }
    assert (HP0 : 0 <= N * f).
    { apply Qmult_le_0_compat; lra. }
    pose proof (ulp_bound_half HP0) as Hu.
    pose proof epsilon_pos as He.
    assert (He1 : epsilon <= 2 ^ 997 * 2 ^ (-1026)).
    { vm_compute. discriminate. }
    assert (He2 : 2 ^ 997 * 2 ^ (-1026) <= 2 ^ 997 * f).
    { apply Qmult_le_nonneg_l; [lra|]. apply Qlt_le_weak, pow2_pos. }
    unfold mul.
    destruct (round_nonneg HP0) as [[E Hov]|[D [E [HD0 [_ [_ HD]]]]]]; rewrite E.
    + cbn [max rem]. apply quotient_bound; [exact Hq0|exact Hf0|].
      set (P := N * f) in *. set (c := 2 ^ (-1074)) in *.
      set (b := 2 ^ (-1026)) in *. lra.
    + assert (Ht : forall d, epsilon <= d -> d <= D \/ d <= epsilon ->
                   exists x, div (rem (Fin q) (Fin d)) (Fin f) = Fin x /\ 0 <= x).
      { intros d Hd Hle. rewrite rem_finite by lra.
        destruct (Qrem_nonneg (a:=q) (b:=d)) as [H1 H2]; [assumption|lra|].
        apply quotient_bound; [exact H1|exact Hf0|].
        set (P := N * f) in *. set (c := 2 ^ (-1074)) in *.
        set (b := 2 ^ (-1026)) in *. set (t := Qrem q d) in *.
        destruct Hle; lra. }
      unfold max. destruct (Qle_bool epsilon D) eqn:EM.
      * apply Qle_bool_iff in EM. apply Ht; [exact EM|left; apply Qle_refl].
      * apply Ht; [apply Qle_refl|right; apply Qle_refl].
Qed.

(** The frame index from the quotient: the integer remainder of its floor. *)
Lemma currentFrameIdx_of_quotient (s : t Color) (x : Q) :
  (0 < frameCount s)%nat ->
  div (currentTime s) (frameDuration s) = Fin x ->
  exists i, currentFrameIdx s = Fin i /\
            i == inject_Z (Z.rem (Qfloor x) (Z.of_nat (frameCount s))).
Proof.
  intros Hn Hx. unfold currentFrameIdx. rewrite Hx.
  cbn [floor]. unfold of_nat, of_Z.
  destruct (Z.of_nat (frameCount s)) as [|p|p] eqn:En; try lia.
  rewrite rem_finite by discriminate.
  eexists. split; [reflexivity|]. apply Qrem_inject_Z.
Qed.

Lemma to_index_inject_Z (x : Q) (m : Z) :
  x == inject_Z m -> (0 <= m)%Z -> to_index (Fin x) = Some (Z.to_nat m).
Proof.
  intros E Hm. unfold to_index.
  rewrite (Qred_complete _ _ E).
  assert (R : Qred (inject_Z m) = inject_Z m).
  { apply Qcanon.Qred_iff. cbn. apply Z.gcd_1_r. }
  rewrite R. cbn. apply Z.leb_le in Hm. now rewrite Hm.
Qed.

(** With a positive frame rate and at least one frame, the frame index of a
    well-formed controller designates a frame. *)
Lemma current_frame_exists (s : t Color) :
  well_formed s -> 0 < baseFrameRate s -> (0 < frameCount s)%nat ->
  exists f, current_frame s = Some f.
Proof.
  intros Hs Hb Hn.
  destruct (quotient_cases Hs Hb Hn) as [x [Hx Hx0]].
  destruct (currentFrameIdx_of_quotient s Hn Hx) as [i [Hi Ei]].
  assert (HK : (0 <= Qfloor x)%Z).
  { change 0%Z with (Qfloor 0). now apply Qfloor_resp_le. }
  set (K := Qfloor x) in *.
  assert (Hrem : (0 <= Z.rem K (Z.of_nat (frameCount s)) < Z.of_nat (frameCount s))%Z).
  { rewrite Z.rem_mod_nonneg by lia. apply Z.mod_pos_bound. lia. }
  unfold current_frame, at_number. rewrite Hi.
  rewrite (to_index_inject_Z Ei) by lia.
  destruct (nth_error (animationFrames s) _) as [f|] eqn:En.
  - now exists f.
  - apply nth_error_None in En. unfold frameCount in *. lia.
Qed.


End FrameIndexFacts.
(** ** Reset, data loading and frame mapping *)

Section ControllerClaims.

Import ChristmasTreeSimulator.

Variable Color : Type.

Lemma step_keeps_initials (s : t Color) (o : op Color) :
  startPlaying (step s o) = startPlaying s /\
  inititalPlaybackRate (step s o) = inititalPlaybackRate s.
Proof.
  destruct o; cbn [step]; try (split; reflexivity).
  - unfold processTimeAdvance. destruct (isPlaying s); split; reflexivity.
  - unfold setPlaybackRate. destruct (strict_neqb _ _); split; reflexivity.
Qed.

Lemma run_keeps_initials (ops : list (op Color)) (s : t Color) :
  startPlaying (run ops s) = startPlaying s /\
  inititalPlaybackRate (run ops s) = inititalPlaybackRate s.
Proof.
  revert s. induction ops as [|o ops IH]; intros s; cbn.
  - split; reflexivity.
  - destruct (IH (step s o)) as [H1 H2].
    destruct (step_keeps_initials s o) as [H3 H4].
    unfold run in *. split; congruence.
Qed.

Lemma new_initials (o : options) (s : t Color) :
  new Color o = Ok s ->
  startPlaying s = or_default (opt_startPlaying o) false /\
  inititalPlaybackRate s = or_default (opt_inititalPlaybackRate o) 1 /\
  baseFrameRate s = or_default (opt_baseFrameRate o) 60.
Proof.
  unfold new. destruct (ltb _ _); [discriminate|].
  intros H. inversion H; subst; clear H. repeat split.
Qed.

(** C2 (as amended).  For every controller and every prior sequence of
    operations, [resetPlayback] with every option left out sets [isPlaying]
    to the constructor's [startPlaying] and [playbackRate] to the
    constructor's initial playback rate, leaves [baseFrameRate] at its
    current value, and then writes 0 to [currentTime] through the setter
    (which stores 0 and sets [dirty]). *)
Theorem resetPlayback_defaults :
  forall (o : options) (s0 : t Color) (ops : list (op Color)),
    new Color o = Ok s0 ->
    let s := run ops s0 in
    let s' := resetPlayback no_reset_options s in
    isPlaying s' = or_default (opt_startPlaying o) false /\
    playbackRate s' = or_default (opt_inititalPlaybackRate o) 1 /\
    baseFrameRate s' = baseFrameRate s /\
    s' = reset_to_initial s /\
    _currentTime s' = Fin 0 /\
    dirty s' = true.
Proof.
  intros o s0 ops Hnew s s'.
  destruct (new_initials o Hnew) as [Hsp [Hip _]].
  destruct (run_keeps_initials ops s0) as [Rsp Rip].
  subst s s'. unfold resetPlayback, no_reset_options. cbn.
  repeat split; congruence.
Qed.

Lemma Qrem_zero (d : Q) : ~ d == 0 -> Qrem 0 d == 0.
Proof.
  intros Hd. unfold Qrem.
  assert (E : 0 / d == 0) by (field; exact Hd).
  assert (T : Qtrunc (0 / d) = 0%Z).
  { rewrite Qtrunc_nonneg by lra. now rewrite E. }
  rewrite T. ring.
Qed.

(** The time read when the stored time is 0. *)
Lemma currentTime_of_zero (s : t Color) :
  _currentTime s = Fin 0 ->
  (duration s = NaN -> currentTime s = NaN) /\
  (duration s <> NaN -> Num.equiv (currentTime s) (Fin 0)).
Proof.
  intros H0. unfold currentTime. rewrite H0. split.
  - intros Hd. now rewrite Hd.
  - intros Hd.
    destruct (duration_cases s) as [[d [Ed Hle]]|[Ed|Ed]];
      [|rewrite Ed|contradiction].
    + rewrite Ed. pose proof epsilon_pos.
      assert (Hd0 : ~ d == 0) by lra.
      rewrite (rem_finite 0 Hd0). cbn [Num.equiv]. now apply Qrem_zero.
    + cbn. reflexivity.
Qed.

(** C7 (as amended).  Every call to [setData] writes 0 to [currentTime]
    through the setter: the stored time is 0 and [dirty] is set.  The time
    then read is 0 unless the duration is [NaN], which it is exactly when
    no frame is held and the frame duration is infinite; the time read is
    then [NaN].  A call that passes [coordinateMapping] installs it and sets
    [dirtyGeometry]; a call that passes only [animationFrames] replaces
    [animationFrames] and leaves [coordinateMapping], [dirtyGeometry] and
    the playback settings as they were. *)
Theorem setData_effects :
  forall (s : t Color) (d : data Color) (frames : list (frame Color))
         (af : option (list (frame Color))) (m : CoordinateMapping.t),
    (let s' := setData d s in
     _currentTime s' = Fin 0 /\ dirty s' = true /\
     (duration s' = NaN <->
      frameCount s' = 0%nat /\
      (frameDuration s' = PInf \/ frameDuration s' = NInf)) /\
     (duration s' = NaN -> currentTime s' = NaN) /\
     (duration s' <> NaN -> Num.equiv (currentTime s') (Fin 0)))
    /\
    (let s' := setData {| data_animationFrames := af;
                          data_coordinateMapping := Some m |} s in
     dirtyGeometry s' = true /\ coordinateMapping s' = Some m)
    /\
    (let s' := setData (only_frames frames) s in
     animationFrames s' = frames /\
     coordinateMapping s' = coordinateMapping s /\
     dirtyGeometry s' = dirtyGeometry s /\
     playbackRate s' = playbackRate s /\
     baseFrameRate s' = baseFrameRate s /\
     isPlaying s' = isPlaying s /\
     startPlaying s' = startPlaying s /\
     inititalPlaybackRate s' = inititalPlaybackRate s).
Proof.
  intros s d frames af m. split; [|split].
  - assert (H0 : _currentTime (setData d s) = Fin 0) by reflexivity.
    destruct (currentTime_of_zero _ H0) as [H1 H2].
    split; [exact H0|]. split; [reflexivity|].
    split; [apply duration_NaN_iff|]. split; assumption.
  - cbn. split; reflexivity.
  - cbn. repeat split.
Qed.

Lemma mapi_from_no_mapping (f : frame Color) (idx : nat) :
  (all_holes f ->
   Sparse.mapi_from (fun (_ : Color) (_ : nat) => @Raise (mapped Color) TypeError) idx f
   = Ok (map (fun _ => None) f))
  /\
  ((exists c, In (Some c) f) ->
   Sparse.mapi_from (fun (_ : Color) (_ : nat) => @Raise (mapped Color) TypeError) idx f
   = Raise TypeError).
Proof.
  revert idx. induction f as [|[c|] f IH]; intros idx; cbn.
  - split; [reflexivity|]. intros [c []].
  - split; [|reflexivity]. intros H. exfalso. apply (H c). now left.
  - destruct (IH (S idx)) as [IH1 IH2]. split.
    + intros H. rewrite IH1; [reflexivity|].
      intros c Hc. apply (H c). now right.
    + intros [c [Hc|Hc]]; [discriminate|].
      rewrite IH2; [reflexivity|]. now exists c.
Qed.

(** C10 (as amended).  For every controller whose [coordinateMapping] is
    [null], [getCurrentFrameMapped] fails when there is no current frame and
    when the current frame holds at least one pixel; it returns a sequence
    without entries when the current frame has no pixel assigned.  A
    well-formed controller with a positive frame rate and [frameCount > 0]
    has a current frame, so [frameCount > 0] alone does not make the call
    succeed. *)
Theorem getCurrentFrameMapped_without_mapping :
  forall (s : t Color),
    coordinateMapping s = None ->
    (current_frame s = None -> getCurrentFrameMapped s = Raise TypeError)
    /\
    (forall f, current_frame s = Some f -> (exists c, In (Some c) f) ->
               getCurrentFrameMapped s = Raise TypeError)
    /\
    (forall f, current_frame s = Some f -> all_holes f ->
               getCurrentFrameMapped s = Ok (map (fun _ => None) f))
    /\
    (well_formed s -> 0 < baseFrameRate s -> (0 < frameCount s)%nat ->
     exists f, current_frame s = Some f).
Proof.
  intros s Hm. unfold getCurrentFrameMapped, current_frame. rewrite Hm.
  repeat split.
  - intros H. now rewrite H.
  - intros f H Hc. rewrite H. unfold Sparse.mapi.
    now apply mapi_from_no_mapping.
  - intros f H Hh. rewrite H. unfold Sparse.mapi.
    now apply mapi_from_no_mapping.
  - apply current_frame_exists.
Qed.

End ControllerClaims.

(** C8.  [idxToCoord] is a total function: it returns the coordinate held at
    [idx] when [0 <= idx < length], and the caller's default otherwise; in
    particular index 999 yields the default whenever fewer than 1000
    coordinates are held. *)
Theorem idxToCoord_total :
  forall (m : CoordinateMapping.t) (idx : Z) (defaultValue : value),
    ((0 <= idx < Z.of_nat (List.length (CoordinateMapping.mapping m)))%Z ->
     nth_error (CoordinateMapping.mapping m) (Z.to_nat idx)
     = Some (CoordinateMapping.idxToCoord m idx defaultValue))
    /\
    (~ (0 <= idx < Z.of_nat (List.length (CoordinateMapping.mapping m)))%Z ->
     CoordinateMapping.idxToCoord m idx defaultValue = defaultValue)
    /\
    ((List.length (CoordinateMapping.mapping m) < 1000)%nat ->
     CoordinateMapping.idxToCoord m 999 defaultValue = defaultValue).
Proof.
  intros m idx d. unfold CoordinateMapping.idxToCoord.
  set (len := List.length (CoordinateMapping.mapping m)).
  repeat split.
  - intros H.
    destruct (Z.ltb_spec idx 0); [lia|].
    destruct (Z.geb_spec idx (Z.of_nat len)); [lia|]. cbn.
    destruct (nth_error _ _) eqn:E; [reflexivity|].
    apply nth_error_None in E. fold len in E. lia.
  - intros H.
    destruct (Z.ltb_spec idx 0); [reflexivity|].
    destruct (Z.geb_spec idx (Z.of_nat len)); [reflexivity|]. lia.
  - intros H.
    destruct (Z.ltb_spec 999 0); [reflexivity|].
    destruct (Z.geb_spec 999 (Z.of_nat len)); [reflexivity|]. lia.
Qed.

(** ** The decoders *)

Lemma split_not_nil (sep : ascii) (s : string) : Str.split sep s <> [].
Proof.
  destruct s as [|c s]; cbn; [discriminate|].
  destruct (Ascii.eqb c sep); [discriminate|].
  destruct (Str.split sep s); discriminate.
Qed.

(** A line has one field more than it has commas. *)
Lemma field_count_commas (line : string) :
  field_count line = S (CsvCoordinateDecoder.comma_count line).
Proof.
  unfold field_count, CsvCoordinateDecoder.comma_count.
  induction line as [|c s IH]; cbn; [reflexivity|].
  unfold Str.comma in *. destruct (Ascii.eqb c ",") eqn:E; cbn.
  - now rewrite IH.
  - pose proof (@split_not_nil "," s) as Hn.
    destruct (Str.split "," s) as [|p ps]; [contradiction|]. cbn in *. exact IH.
Qed.

Lemma skip_rows_skipn (n : nat) (lines : list string) :
  CsvCoordinateDecoder.skip_rows n lines = skipn n lines.
Proof.
  unfold CsvCoordinateDecoder.skip_rows. destruct n; reflexivity.
Qed.

(** [decode] either raises the column-count error or returns; it raises
    exactly when a line after the skipped ones has at least
    [validationMaxColumns] commas. *)
Lemma csv_decode_cases (d : CsvCoordinateDecoder.t) (inputString : string) :
  ((exists line, In line (csv_lines d inputString) /\
                 (CsvCoordinateDecoder.validationMaxColumns d
                  <= CsvCoordinateDecoder.comma_count line)%nat) /\
   CsvCoordinateDecoder.decode d inputString
   = Raise (Thrown (CsvCoordinateDecoder.too_wide_message
                      (CsvCoordinateDecoder.validationMaxColumns d))))
  \/
  ((forall line, In line (csv_lines d inputString) ->
                 (CsvCoordinateDecoder.comma_count line
                  < CsvCoordinateDecoder.validationMaxColumns d)%nat) /\
   exists geometry, CsvCoordinateDecoder.decode d inputString = Ok geometry).
Proof.
  unfold CsvCoordinateDecoder.decode, csv_lines, some.
  rewrite skip_rows_skipn.
  set (lines := skipn _ _).
  destruct (existsb _ lines) eqn:E.
  - left. split; [|reflexivity].
    apply existsb_exists in E. destruct E as [line [Hin Hle]].
    exists line. split; [exact Hin|]. now apply Nat.leb_le.
  - right. split; [|eexists; reflexivity].
    intros line Hin.
    destruct (Nat.ltb_spec (CsvCoordinateDecoder.comma_count line)
                (CsvCoordinateDecoder.validationMaxColumns d)) as [Hlt|Hge];
      [exact Hlt|].
    assert (existsb (fun l => (CsvCoordinateDecoder.validationMaxColumns d
                               <=? CsvCoordinateDecoder.comma_count l)%nat) lines = true).
    { apply existsb_exists. exists line. split; [exact Hin|]. now apply Nat.leb_le. }
    congruence.
Qed.

(** C4 (as amended).  For every decoder and every input in which some row
    after the skipped ones has more than [validationMaxColumns]
    comma-separated fields (that is, at least [validationMaxColumns] commas),
    [decode] raises the column-count error for the whole file, whatever the
    row holds. *)
Theorem csv_decode_rejects_wide_row :
  forall (d : CsvCoordinateDecoder.t) (inputString line : string),
    In line (csv_lines d inputString) ->
    (CsvCoordinateDecoder.validationMaxColumns d < field_count line)%nat ->
    CsvCoordinateDecoder.decode d inputString
    = Raise (Thrown (CsvCoordinateDecoder.too_wide_message
                       (CsvCoordinateDecoder.validationMaxColumns d))).
Proof.
  intros d inputString line Hin Hwide.
  rewrite field_count_commas in Hwide.
  destruct (csv_decode_cases d inputString) as [[_ H]|[H _]]; [exact H|].
  specialize (H line Hin). lia.
Qed.

Lemma csv_decode_rejects_wide_row_witness :
  CsvCoordinateDecoder.decode (skipping 0) "1,2,3
0,1,2,3,4,5,6,7,8,9,10"
  = Raise (Thrown "Selected coordinate CSV file has more than 10 columns! Rejecting.").
Proof.
  apply (@csv_decode_rejects_wide_row (skipping 0) _ "0,1,2,3,4,5,6,7,8,9,10").
  - vm_compute. right. left. reflexivity.
  - vm_compute. lia.
Defined.

(** C4 fails as stated: a row of exactly [validationMaxColumns] fields has
    one comma less than the ceiling and is decoded. *)
Lemma csv_decode_accepts_ten_fields :
  CsvCoordinateDecoder.new CsvCoordinateDecoder.no_options = Ok (skipping 0) /\
  (CsvCoordinateDecoder.validationMaxColumns (skipping 0) <= field_count ten_fields)%nat /\
  CsvCoordinateDecoder.decode (skipping 0) ten_fields
  = Ok [VArr [VNum (Fin 1); VNum (Fin 2); VNum (Fin 3)]].
Proof.
  split; [reflexivity|]. split; [vm_compute; lia|]. vm_compute. reflexivity.
Qed.

(** C9.  With [skipRowCount = N > 0] the column-count check looks only at
    the lines after the first [N]: [decode] raises exactly when one of those
    has at least [validationMaxColumns] commas, so an input whose over-wide
    rows all lie within the skipped lines decodes without raising. *)
Theorem csv_decode_ignores_skipped_rows :
  forall (d : CsvCoordinateDecoder.t) (inputString : string),
    (0 < CsvCoordinateDecoder.skipRowCount d)%nat ->
    ((exists e, CsvCoordinateDecoder.decode d inputString = Raise e)
     <->
     (exists line,
         In line (skipn (CsvCoordinateDecoder.skipRowCount d)
                        (Str.split Str.newline inputString)) /\
         (CsvCoordinateDecoder.validationMaxColumns d
          <= CsvCoordinateDecoder.comma_count line)%nat))
    /\
    ((forall line,
         In line (skipn (CsvCoordinateDecoder.skipRowCount d)
                        (Str.split Str.newline inputString)) ->
         (CsvCoordinateDecoder.comma_count line
          < CsvCoordinateDecoder.validationMaxColumns d)%nat) ->
     exists geometry, CsvCoordinateDecoder.decode d inputString = Ok geometry).
Proof.
  intros d inputString _.
  destruct (csv_decode_cases d inputString)
    as [[[line [Hin Hle]] Hraise]|[Hnarrow [geometry Hok]]].
  - split.
    + split; intros _.
      * now exists line.
      * eexists. exact Hraise.
    + intros Hnarrow. specialize (Hnarrow line Hin). lia.
  - split.
    + split.
      * intros [e He]. rewrite Hok in He. discriminate.
      * intros [line [Hin Hle]]. specialize (Hnarrow line Hin). lia.
    + intros _. now exists geometry.
Qed.

Lemma csv_decode_ignores_skipped_rows_witness :
  (CsvCoordinateDecoder.validationMaxColumns (skipping 1)
   <= CsvCoordinateDecoder.comma_count "a,b,c,d,e,f,g,h,i,j,k,l")%nat /\
  CsvCoordinateDecoder.decode (skipping 0) wide_heading_then_row
  = Raise (Thrown "Selected coordinate CSV file has more than 10 columns! Rejecting.") /\
  CsvCoordinateDecoder.decode (skipping 1) wide_heading_then_row
  = Ok [VArr [VNum (Fin 1); VNum (Fin 2); VNum (Fin 3)]] /\
  exists geometry,
    CsvCoordinateDecoder.decode (skipping 1) wide_heading_then_row = Ok geometry.
Proof.
  split; [vm_compute; lia|]. split; [reflexivity|]. split; [reflexivity|].
  assert (Hskip : (0 < CsvCoordinateDecoder.skipRowCount (skipping 1))%nat)
    by (cbn; lia).
  apply (proj2 (@csv_decode_ignores_skipped_rows (skipping 1) wide_heading_then_row Hskip)).
  vm_compute. intros line [H|[]]. subst line. cbn. lia.
Defined.

(** C6.  With the default configuration, the heading row
    [r_0,g_0,b_0,r_1,g_1,b_1] followed by the data row [10,20,30,40,50,60]
    decodes to exactly one frame, [[10,20,30],[40,50,60]]; the position of a
    channel within a pixel is its position in the configured component list
    (with the components [b], [g], [r] the same input gives
    [[30,20,10],[60,50,40]]). *)
Theorem animation_decode_two_pixels :
  CsvAnimationDecoder.decode (CsvAnimationDecoder.new None None) two_pixel_animation
  = Ok [[Some [Some (Fin 10); Some (Fin 20); Some (Fin 30)];
         Some [Some (Fin 40); Some (Fin 50); Some (Fin 60)]]]
  /\
  CsvAnimationDecoder.decode
    (CsvAnimationDecoder.new None (Some ["b"; "g"; "r"]%string)) two_pixel_animation
  = Ok [[Some [Some (Fin 30); Some (Fin 20); Some (Fin 10)];
         Some [Some (Fin 60); Some (Fin 50); Some (Fin 40)]]].
Proof.
  split; vm_compute; reflexivity.
Qed.

Lemma every_xyz_rows (rows : list value) :
  (forall r, In r rows -> xyz_row r) -> every row_is_xyz rows = Ok true.
Proof.
  induction rows as [|r rows IH]; intros H; cbn; [reflexivity|].
  destruct (H r (or_introl eq_refl)) as [x [y [z E]]]. subst r. cbn.
  apply IH. intros r' Hr'. apply H. now right.
Qed.

(** C1, what the code does on the inputs the decoder is meant to accept.
    Whenever the input parses to a non-empty array whose elements are all
    3-element arrays of numbers, [JsonArrayCoordinateDecoder.decode] raises
    its error instead of returning the array. *)
Theorem json_array_decode_rejects_valid_input :
  forall (JSON_parse : string -> result value) (inputString : string)
         (rows : list value),
    JSON_parse inputString = Ok (VArr rows) ->
    rows <> [] ->
    (forall r, In r rows -> xyz_row r) ->
    JsonArrayCoordinateDecoder_decode JSON_parse inputString
    = Raise (Thrown json_array_message).
Proof.
  intros JSON_parse inputString rows Hparse Hne Hrows.
  unfold JsonArrayCoordinateDecoder_decode. rewrite Hparse. cbn.
  destruct rows as [|r rows]; [contradiction|].
  cbn [List.length Nat.leb negb every_method].
  now rewrite (@every_xyz_rows _ Hrows).
Qed.

Lemma json_array_decode_rejects_valid_input_witness :
  JsonArrayCoordinateDecoder_decode sample_parse "[[1,2,3]]"
  = Raise (Thrown "Provided JSON must represent an array containing 3-element X,Y,Z arrays.").
Proof.
  apply (@json_array_decode_rejects_valid_input sample_parse "[[1,2,3]]"
           [VArr [VNum (Fin 1); VNum (Fin 2); VNum (Fin 3)]]).
  - reflexivity.
  - discriminate.
  - intros r [H|[]]. subst r. now exists (Fin 1), (Fin 2), (Fin 3).
Defined.

(** The other side of the same condition: an array with a malformed row is
    returned, and the line-delimited decoder accepts a valid triple. *)
Lemma json_array_decode_returns_malformed_input :
  JsonArrayCoordinateDecoder_decode sample_parse "[[1,2]]"
  = Ok (VArr [VArr [VNum (Fin 1); VNum (Fin 2)]])
  /\
  LineDelimitedJsonArrayCoordinateDecoder_decode sample_parse "[1,2,3]"
  = Ok [VArr [VNum (Fin 1); VNum (Fin 2); VNum (Fin 3)]].
Proof.
  split; reflexivity.
Qed.

(** ** The claims at sample inputs *)

Module Samples.

Import ChristmasTreeSimulator.

Lemma currentTime_in_range_or_NaN_witness :
  exists s0, new sample_color (with_baseFrameRate 2) = Ok s0 /\
    let s := run [SetData (only_frames (four_frames sample_color));
                  WriteIsPlaying sample_color true;
                  ProcessTimeAdvance sample_color 10;
                  SeekRelative sample_color (-9 # 4)] s0 in
    isPlaying s = true /\
    exists t d, currentTime s = Fin t /\ duration s = Fin d /\
                0 <= t /\ t < d.
Proof.
  eexists. split; [reflexivity|]. split; [reflexivity|].
  refine (proj1 (proj2 (proj2 (proj2
           (@currentTime_in_range_or_NaN sample_color (with_baseFrameRate 2) _
              [SetData (only_frames (four_frames sample_color));
               WriteIsPlaying sample_color true;
               ProcessTimeAdvance sample_color 10;
               SeekRelative sample_color (-9 # 4)]
              eq_refl)))) _ _).
  - split; [exact I|]. split; [exact I|].
    split; [vm_compute; discriminate|]. split; [vm_compute; discriminate|].
    unfold representable. vm_compute. reflexivity.
  - repeat constructor; vm_compute; discriminate.
Defined.

(** C3 fails as stated, with four frames loaded.  With [baseFrameRate = 0]
    the frame duration and the duration are infinite; writing [-0.5] stores
    [Infinity], and the read, [Infinity % Infinity], is [NaN], which lies
    in no interval.  The same happens with the least positive double as
    frame rate ([1 / 5e-324] overflows).  With [baseFrameRate = 2] and a
    playing controller at playback rate [1e200],
    [processTimeAdvance(1e200)] adds a product that overflows: the stored
    time is [Infinity] and the read is [NaN]. *)
Lemma currentTime_NaN_when_rate_zero :
  (exists s0, new sample_color (with_baseFrameRate 0) = Ok s0 /\
     let s := run [SetData (only_frames (four_frames sample_color));
                   WriteCurrentTime sample_color (-1 # 2)] s0 in
     frameCount s = 4%nat /\ duration s = PInf /\ _currentTime s = PInf /\
     currentTime s = NaN)
  /\
  (exists s0, new sample_color (with_baseFrameRate (2 ^ (-1074))) = Ok s0 /\
     let s := run [SetData (only_frames (four_frames sample_color));
                   WriteCurrentTime sample_color (-1 # 2)] s0 in
     representable (2 ^ (-1074)) /\
     frameCount s = 4%nat /\ duration s = PInf /\ _currentTime s = PInf /\
     currentTime s = NaN)
  /\
  (exists s0, new sample_color (with_baseFrameRate 2) = Ok s0 /\
     let s := run [SetData (only_frames (four_frames sample_color));
                   WriteIsPlaying sample_color true;
                   SetPlaybackRate sample_color (double_of (10 ^ 200));
                   ProcessTimeAdvance sample_color (double_of (10 ^ 200))] s0 in
     frameCount s = 4%nat /\ duration s = Fin 2 /\ _currentTime s = PInf /\
     currentTime s = NaN).
Proof.
  split; [|split]; eexists; (split; [reflexivity|]); vm_compute; repeat split.
Qed.


(** Rounding shows in the time read.  With three frames at the default
    frame rate of 60 the duration is the double next to 0.05, which is
    above 1/20: a stored time of 1 holds 19 whole durations, the time read
    is just below 0.05 and the frame index is 2. *)
Lemma frame_index_at_default_rate :
  exists s0, new sample_color no_options = Ok s0 /\
    let s := run [SetData (only_frames [[]; []; []]);
                  WriteCurrentTime sample_color 1] s0 in
    baseFrameRate s = 60 /\ frameCount s = 3%nat /\
    duration s = Fin (double_of (1 # 20)) /\
    1 # 20 < double_of (1 # 20) /\
    (exists t, currentTime s = Fin t /\
               t == 1 - 19 * double_of (1 # 20) /\
               t == 3602879701896393 # 72057594037927936) /\
    currentFrameIdx s = Fin 2.
Proof.
  eexists. split; [reflexivity|]. cbv zeta.
  split; [reflexivity|]. split; [reflexivity|].
  split; [vm_compute; reflexivity|]. split; [vm_compute; reflexivity|].
  split; [|vm_compute; reflexivity].
  eexists. split; [vm_compute; reflexivity|]. split; vm_compute; reflexivity.
Qed.

Lemma resetPlayback_defaults_witness :
  exists s0, new sample_color no_options = Ok s0 /\
    let s := run [SetData (only_frames (four_frames sample_color));
                  ResetPlayback sample_color
                    {| reset_startPlaying := Some true; reset_playbackRate := Some 3;
                       reset_baseFrameRate := Some 30; reset_startTime := Some 1 |};
                  WriteIsPlaying sample_color true;
                  ProcessTimeAdvance sample_color 10] s0 in
    let s' := resetPlayback no_reset_options s in
    isPlaying s' = or_default (opt_startPlaying no_options) false /\
    playbackRate s' = or_default (opt_inititalPlaybackRate no_options) 1 /\
    baseFrameRate s' = baseFrameRate s /\
    s' = reset_to_initial s /\
    _currentTime s' = Fin 0 /\
    dirty s' = true.
Proof.
  eexists. split; [reflexivity|].
  apply (@resetPlayback_defaults sample_color no_options). reflexivity.
Defined.

(** C2 fails as stated: after [resetPlayback({baseFrameRate: 30})] on a
    controller built with the default rate of 60, a reset with every option
    left out keeps 30. *)
Lemma resetPlayback_keeps_live_baseFrameRate :
  exists s0, new sample_color no_options = Ok s0 /\
    baseFrameRate s0 = 60 /\
    let s := run [ResetPlayback sample_color (reset_baseFrameRate_to 30)] s0 in
    baseFrameRate (resetPlayback no_reset_options s) = 30 /\
    ~ baseFrameRate (resetPlayback no_reset_options s) == baseFrameRate s0.
Proof.
  eexists. split; [reflexivity|]. split; [reflexivity|]. split; [reflexivity|].
  vm_compute. discriminate.
Qed.

Lemma setData_effects_witness :
  exists s0, new sample_color no_options = Ok s0 /\
    Num.equiv (currentTime (setData (only_frames (four_frames sample_color))
                           (seekRelative (Fin (3 # 4)) s0)))
           (Fin 0).
Proof.
  eexists. split; [reflexivity|].
  refine (proj2 (proj2 (proj2 (proj2 (proj1
            (@setData_effects sample_color _ (only_frames (four_frames sample_color))
               [] None sample_mapping))))) _).
  vm_compute. discriminate.
Defined.

(** C7 fails as stated: on a controller that holds no frame and whose frame
    rate is 0, or a double as small as [1e-320], the frame duration is
    [Infinity] and the duration [0 * Infinity] is [NaN]; after [setData]
    the stored time is 0 and the time read, [0 % NaN], is [NaN]. *)
Lemma setData_then_time_is_NaN :
  (exists s0, new sample_color (with_baseFrameRate 0) = Ok s0 /\
     let s := setData {| data_animationFrames := None;
                         data_coordinateMapping := Some sample_mapping |} s0 in
     _currentTime s = Fin 0 /\ dirty s = true /\ currentTime s = NaN)
  /\
  (exists s0, new sample_color (with_baseFrameRate (double_of (1 # 10 ^ 320)))
              = Ok s0 /\
     let s := setData {| data_animationFrames := None;
                         data_coordinateMapping := Some sample_mapping |} s0 in
     ~ baseFrameRate s == 0 /\
     _currentTime s = Fin 0 /\ dirty s = true /\ currentTime s = NaN).
Proof.
  split; eexists; (split; [reflexivity|]); vm_compute; repeat split.
  discriminate.
Qed.

Lemma idxToCoord_total_witness :
  nth_error (CoordinateMapping.mapping sample_mapping) (Z.to_nat 1)
  = Some (CoordinateMapping.idxToCoord sample_mapping 1 (VStr "none"))
  /\ CoordinateMapping.idxToCoord sample_mapping (-1) (VStr "none") = VStr "none"
  /\ CoordinateMapping.idxToCoord sample_mapping 999 (VStr "none") = VStr "none".
Proof.
  split; [|split].
  - apply (proj1 (idxToCoord_total sample_mapping 1 (VStr "none"))).
    cbn. lia.
  - apply (proj1 (proj2 (idxToCoord_total sample_mapping (-1) (VStr "none")))).
    cbn. lia.
  - apply (proj2 (proj2 (idxToCoord_total sample_mapping 999 (VStr "none")))).
    cbn. lia.
Defined.

Lemma getCurrentFrameMapped_without_mapping_witness :
  exists s0, new sample_color no_options = Ok s0 /\
    let s := setData (only_frames [[Some red_pixel]]) s0 in
    (0 < frameCount s)%nat /\
    getCurrentFrameMapped s = Raise TypeError.
Proof.
  eexists. split; [reflexivity|]. split; [vm_compute; lia|].
  match goal with
  | |- getCurrentFrameMapped ?s = _ =>
      apply (proj1 (proj2 (@getCurrentFrameMapped_without_mapping sample_color s eq_refl))
               [Some red_pixel])
  end.
  - vm_compute. reflexivity.
  - exists red_pixel. now left.
Defined.

(** C10 fails as stated: a controller without coordinate mapping whose
    current frame has no pixel (as decoded from a file whose heading names no
    pixel column) returns the empty sequence. *)
Lemma getCurrentFrameMapped_empty_frame :
  CsvAnimationDecoder.decode (CsvAnimationDecoder.new None None) unmapped_animation
  = Ok [[]] /\
  exists s0, new sample_color no_options = Ok s0 /\
    let s := setData (only_frames [[]]) s0 in
    coordinateMapping s = None /\
    frameCount s = 1%nat /\
    getCurrentFrameMapped s = Ok [].
Proof.
  split; [vm_compute; reflexivity|].
  eexists. split; [reflexivity|]. vm_compute. repeat split.
Qed.

End Samples.

(** * Further properties of the decoders *)

Lemma every_total {A : Type} (f : A -> bool) (l : list A) :
  every (fun x => Ok (f x)) l = Ok (forallb f l).
Proof.
  induction l as [|x l IH]; cbn; [reflexivity|].
  destruct (f x); cbn; [exact IH|reflexivity].
Qed.

Lemma row_is_xyz_array (items : list value) :
  row_is_xyz (VArr items)
  = Ok ((List.length items =? 3)%nat && forallb is_number items).
Proof.
  unfold row_is_xyz. cbn.
  destruct items as [|a [|b [|c [|d items]]]]; cbn; try reflexivity.
  apply (every_total is_number [a; b; c]).
Qed.

Lemma xyz_row_array (items : list value) :
  xyz_row (VArr items) <->
  (List.length items =? 3)%nat && forallb is_number items = true.
Proof.
  split.
  - intros [x [y [z E]]]. inversion E. reflexivity.
  - intros H. apply andb_prop in H. destruct H as [Hl Hn].
    destruct items as [|a [|b [|c [|d items]]]]; try discriminate.
    cbn in Hn. destruct a, b, c; try discriminate.
    now eexists _, _, _.
Qed.

Lemma every_arrays (rows : list value) :
  forallb is_array rows = true ->
  exists b, every row_is_xyz rows = Ok b /\
            (b = true <-> forall r, In r rows -> xyz_row r).
Proof.
  induction rows as [|r rows IH]; intros H; cbn.
  - exists true. split; [reflexivity|]. split; [intros _ r []|reflexivity].
  - cbn in H. apply andb_prop in H. destruct H as [Hr Hrows].
    destruct r as [| | | |items]; try discriminate.
    rewrite row_is_xyz_array. cbn [bind].
    destruct ((List.length items =? 3)%nat && forallb is_number items) eqn:E.
    + destruct (IH Hrows) as [b [Hb Hiff]]. exists b. split; [exact Hb|].
      rewrite Hiff. split.
      * intros Hall r [Hr'|Hr']; [subst r; now apply xyz_row_array|now apply Hall].
      * intros Hall r Hr'. apply Hall. now right.
    + exists false. split; [reflexivity|]. split; [discriminate|].
      intros Hall. assert (Hx : xyz_row (VArr items)) by (apply Hall; now left).
      apply xyz_row_array in Hx. congruence.
Qed.

Lemma map_result_all_ok {A B : Type} (f : A -> result B) (P : B -> Prop)
    (l : list A) :
  (forall x, In x l -> exists y, f x = Ok y /\ P y) ->
  exists ys, map_result f l = Ok ys /\
             Forall2 (fun x y => f x = Ok y) l ys /\
             Forall P ys.
Proof.
  induction l as [|x l IH]; intros H; cbn.
  - exists []. repeat split; constructor.
  - destruct (H x (or_introl eq_refl)) as [y [Hy Py]].
    destruct IH as [ys [Hys [H2 HP]]]; [intros x' Hx'; apply H; now right|].
    exists (y :: ys). rewrite Hy, Hys. cbn.
    repeat split; constructor; assumption.
Qed.

Lemma map_result_raise {A B : Type} (f : A -> result B) (l : list A) (e : exn) :
  map_result f l = Raise e -> exists x, In x l /\ f x = Raise e.
Proof.
  induction l as [|x l IH]; cbn; [discriminate|].
  destruct (f x) as [y|e'] eqn:Ex; cbn.
  - destruct (map_result f l) as [ys|e''] eqn:El; cbn; [discriminate|].
    intros H. inversion H; subst. destruct (IH eq_refl) as [x' [Hin Hx']].
    exists x'. split; [now right|exact Hx'].
  - intros H. inversion H; subst. exists x. split; [now left|exact Ex].
Qed.

Lemma map_result_some_raise {A B : Type} (f : A -> result B) (l : list A) :
  (exists x, In x l /\ exists e, f x = Raise e) ->
  exists e, map_result f l = Raise e.
Proof.
  induction l as [|x l IH]; intros [x' [Hin [e He]]]; [destruct Hin|].
  cbn. destruct (f x) as [y|e'] eqn:Ex; cbn.
  - destruct Hin as [->|Hin]; [congruence|].
    destruct IH as [e'' He'']; [exists x'; split; [exact Hin|now exists e]|].
    exists e''. now rewrite He''.
  - now exists e'.
Qed.

(** X1.  When every line longer than two characters parses to a 3-element
    array of numbers, the line-delimited decoder returns exactly those parsed
    rows, in the order of the lines. *)
Theorem line_delimited_decode_accepts :
  forall (JSON_parse : string -> result value) (inputString : string),
    (forall line, In line (kept_lines inputString) ->
                  exists row, JSON_parse line = Ok row /\ xyz_row row) ->
    exists rows,
      LineDelimitedJsonArrayCoordinateDecoder_decode JSON_parse inputString = Ok rows /\
      Forall2 (fun line row => JSON_parse line = Ok row) (kept_lines inputString) rows /\
      Forall xyz_row rows.
Proof.
  intros JSON_parse inputString H.
  destruct (map_result_all_ok JSON_parse xyz_row (kept_lines inputString) H)
    as [rows [Hrows [H2 HP]]].
  exists rows. split; [|split; assumption].
  unfold LineDelimitedJsonArrayCoordinateDecoder_decode.
  fold (kept_lines inputString). rewrite Hrows. cbn [bind].
  rewrite (@every_xyz_rows rows); [reflexivity|].
  now apply Forall_forall.
Qed.

Lemma line_delimited_decode_accepts_witness :
  exists rows,
    LineDelimitedJsonArrayCoordinateDecoder_decode triple_parse two_triples = Ok rows /\
    Forall2 (fun line row => triple_parse line = Ok row) (kept_lines two_triples) rows /\
    Forall xyz_row rows.
Proof.
  apply (@line_delimited_decode_accepts triple_parse two_triples).
  vm_compute. intros line [H|[H|[]]]; subst line;
    (eexists; split; [reflexivity|now eexists _, _, _]).
Defined.

(** X2.  When the kept lines all parse to arrays and one of the arrays is
    not a 3-element array of numbers, the line-delimited decoder raises its
    format error. *)
Theorem line_delimited_decode_rejects_malformed :
  forall (JSON_parse : string -> result value) (inputString : string)
         (rows : list value) (bad : value),
    map_result JSON_parse (kept_lines inputString) = Ok rows ->
    forallb is_array rows = true ->
    In bad rows -> ~ xyz_row bad ->
    LineDelimitedJsonArrayCoordinateDecoder_decode JSON_parse inputString
    = Raise (Thrown line_delimited_message).
Proof.
  intros JSON_parse inputString rows bad Hrows Harr Hin Hbad.
  unfold LineDelimitedJsonArrayCoordinateDecoder_decode.
  fold (kept_lines inputString). rewrite Hrows. cbn [bind].
  destruct (every_arrays rows Harr) as [b [Hb Hiff]]. rewrite Hb. cbn [bind].
  destruct b; [|reflexivity].
  exfalso. apply Hbad. now apply (proj1 Hiff eq_refl).
Qed.

Lemma line_delimited_decode_rejects_malformed_witness :
  LineDelimitedJsonArrayCoordinateDecoder_decode triple_parse triple_then_pair
  = Raise (Thrown "Provided text should be line-separated JSON representations of 3-element X,Y,Z arrays.").
Proof.
  apply (@line_delimited_decode_rejects_malformed triple_parse triple_then_pair
           [VArr [VNum (Fin 1); VNum (Fin 2); VNum (Fin 3)];
            VArr [VNum (Fin 1); VNum (Fin 2)]]
           (VArr [VNum (Fin 1); VNum (Fin 2)])).
  - reflexivity.
  - reflexivity.
  - right. left. reflexivity.
  - intros [x [y [z E]]]. discriminate E.
Defined.

(** X3.  Lines of at most two characters never reach [JSON.parse]: an input
    made only of such lines (the empty input, blank lines, [[]]) decodes to
    the empty coordinate list whatever the parser does. *)
Theorem line_delimited_decode_trivial_lines :
  forall (JSON_parse : string -> result value) (inputString : string),
    (forall line, In line (Str.split Str.newline inputString) ->
                  (String.length line <= 2)%nat) ->
    LineDelimitedJsonArrayCoordinateDecoder_decode JSON_parse inputString = Ok [].
Proof.
  intros JSON_parse inputString H.
  unfold LineDelimitedJsonArrayCoordinateDecoder_decode.
  assert (E : filter (fun line => (2 <? String.length line)%nat)
                (Str.split Str.newline inputString) = []).
  { induction (Str.split Str.newline inputString) as [|l ls IH]; [reflexivity|].
    cbn [filter]. destruct (Nat.ltb_spec 2 (String.length l)) as [Hlt|Hge].
    - specialize (H l (or_introl eq_refl)). lia.
    - apply IH. intros line Hl. apply H. now right. }
  rewrite E. reflexivity.
Qed.

Lemma line_delimited_decode_trivial_lines_witness :
  LineDelimitedJsonArrayCoordinateDecoder_decode (fun _ => Raise SyntaxError) "[]

[]" = Ok [].
Proof.
  apply line_delimited_decode_trivial_lines.
  vm_compute. intros line [H|[H|[H|[]]]]; subst line; cbn; lia.
Defined.

(** X4.  A parse error on a kept line propagates: when [JSON.parse] raises on
    some line longer than two characters, the line-delimited decoder raises,
    and what it raises is an exception the parser raised on a kept line. *)
Theorem line_delimited_decode_propagates_parse_errors :
  forall (JSON_parse : string -> result value) (inputString : string),
    (exists line, In line (kept_lines inputString) /\
                  exists e, JSON_parse line = Raise e) ->
    exists e,
      LineDelimitedJsonArrayCoordinateDecoder_decode JSON_parse inputString = Raise e /\
      exists line, In line (kept_lines inputString) /\ JSON_parse line = Raise e.
Proof.
  intros JSON_parse inputString H.
  destruct (map_result_some_raise JSON_parse (kept_lines inputString) H) as [e He].
  exists e. split.
  - unfold LineDelimitedJsonArrayCoordinateDecoder_decode.
    fold (kept_lines inputString). now rewrite He.
  - now apply map_result_raise.
Qed.

Lemma line_delimited_decode_propagates_parse_errors_witness :
  exists e,
    LineDelimitedJsonArrayCoordinateDecoder_decode triple_parse "[1,2,3]
oops" = Raise e /\
    exists line, In line (kept_lines "[1,2,3]
oops") /\ triple_parse line = Raise e.
Proof.
  apply line_delimited_decode_propagates_parse_errors.
  exists "oops"%string. split; [vm_compute; right; left; reflexivity|].
  exists SyntaxError. reflexivity.
Defined.

(** X5.  [JsonArrayCoordinateDecoder.decode] never alters the document: what
    it returns is the value [JSON.parse] produced; a parse error propagates
    unchanged; and an empty array is always rejected with the format error. *)
Theorem json_array_decode_returns_document :
  forall (JSON_parse : string -> result value) (inputString : string),
    (forall geometry,
        JsonArrayCoordinateDecoder_decode JSON_parse inputString = Ok geometry ->
        JSON_parse inputString = Ok geometry)
    /\
    (forall e, JSON_parse inputString = Raise e ->
               JsonArrayCoordinateDecoder_decode JSON_parse inputString = Raise e)
    /\
    (JSON_parse inputString = Ok (VArr []) ->
     JsonArrayCoordinateDecoder_decode JSON_parse inputString
     = Raise (Thrown json_array_message)).
Proof.
  intros JSON_parse inputString. unfold JsonArrayCoordinateDecoder_decode.
  repeat split.
  - intros geometry. destruct (JSON_parse inputString) as [g|e]; cbn; [|discriminate].
    destruct (length_prop g) as [len|e]; cbn; [|discriminate].
    destruct (negb _); cbn.
    + discriminate.
    + destruct (every_method row_is_xyz g) as [[|]|e]; cbn; try discriminate.
      intros H. inversion H. reflexivity.
  - intros e He. now rewrite He.
  - intros H. now rewrite H.
Qed.

Lemma json_array_decode_returns_document_witness :
  JsonArrayCoordinateDecoder_decode sample_parse "[[1,2]]"
  = Ok (VArr [VArr [VNum (Fin 1); VNum (Fin 2)]]) /\
  sample_parse "[[1,2]]" = Ok (VArr [VArr [VNum (Fin 1); VNum (Fin 2)]]).
Proof.
  split; [reflexivity|].
  apply (proj1 (json_array_decode_returns_document sample_parse "[[1,2]]")).
  reflexivity.
Defined.

(** ** The CSV coordinate decoder *)

Lemma split_app_sep (sep : ascii) (a b : string) :
  Str.split sep (a ++ String sep b) = Str.split sep a ++ Str.split sep b.
Proof.
  induction a as [|c a IH]; cbn.
  - now rewrite Ascii.eqb_refl.
  - destruct (Ascii.eqb c sep); [now rewrite IH|].
    rewrite IH. pose proof (@split_not_nil sep a) as Hn.
    destruct (Str.split sep a); [contradiction|reflexivity].
Qed.

(** X6.  The constructor of the CSV decoder accepts exactly the column lists
    of three entries (the default [0, 1, 2] among them) and raises its error
    on any other; the decoder it returns reads those three columns, needs
    rows that reach the largest of them, and takes 0 skipped rows and a
    ceiling of 10 when these are left out. *)
Theorem csv_new_validates_columns :
  forall (o : CsvCoordinateDecoder.options),
    let cols := CsvCoordinateDecoder.or_default
                  (CsvCoordinateDecoder.opt_xyzColumns o) [0; 1; 2]%nat in
    (List.length cols <> 3%nat ->
     CsvCoordinateDecoder.new o = Raise (Thrown CsvCoordinateDecoder.columns_message))
    /\
    (List.length cols = 3%nat ->
     exists d x y z,
       CsvCoordinateDecoder.new o = Ok d /\
       cols = [x; y; z] /\
       CsvCoordinateDecoder.xyzColumns d = [x; y; z] /\
       highest_column d = Some (Nat.max x (Nat.max y z)) /\
       CsvCoordinateDecoder.skipRowCount d
       = CsvCoordinateDecoder.or_default (CsvCoordinateDecoder.opt_skipRowCount o) 0%nat /\
       CsvCoordinateDecoder.validationMaxColumns d
       = CsvCoordinateDecoder.or_default
           (CsvCoordinateDecoder.opt_validationMaxColumns o) 10%nat).
Proof.
  intros o cols. unfold CsvCoordinateDecoder.new.
  cbn [CsvCoordinateDecoder.xyzColumns]. subst cols. split.
  - intros H. apply Nat.eqb_neq in H. now rewrite H.
  - intros H. rewrite H. cbn [Nat.eqb negb].
    destruct (CsvCoordinateDecoder.or_default _ _) as [|x [|y [|z [|w rest]]]];
      try discriminate.
    eexists _, x, y, z. repeat split.
Qed.

Lemma csv_new_validates_columns_witness :
  CsvCoordinateDecoder.new
    {| CsvCoordinateDecoder.opt_xyzColumns := Some [1; 2]%nat;
       CsvCoordinateDecoder.opt_skipRowCount := None;
       CsvCoordinateDecoder.opt_validationMaxColumns := None |}
  = Raise (Thrown "xyzColumns should contain 3 integers corresponding to X, Y and Z column numbers (0-based).").
Proof.
  apply (proj1 (csv_new_validates_columns
                  {| CsvCoordinateDecoder.opt_xyzColumns := Some [1; 2]%nat;
                     CsvCoordinateDecoder.opt_skipRowCount := None;
                     CsvCoordinateDecoder.opt_validationMaxColumns := None |})).
  cbn. lia.
Defined.

(** X7.  The only exception [CsvCoordinateDecoder.decode] raises is the
    column-count error: cells that are not numbers, short rows and blank
    lines never make it fail. *)
Theorem csv_decode_only_raises_column_error :
  forall (d : CsvCoordinateDecoder.t) (inputString : string) (e : exn),
    CsvCoordinateDecoder.decode d inputString = Raise e ->
    e = Thrown (CsvCoordinateDecoder.too_wide_message
                  (CsvCoordinateDecoder.validationMaxColumns d))
    /\ exists line, In line (csv_lines d inputString) /\
                    (CsvCoordinateDecoder.validationMaxColumns d
                     <= CsvCoordinateDecoder.comma_count line)%nat.
Proof.
  intros d inputString e H.
  destruct (csv_decode_cases d inputString) as [[Hline Hraise]|[_ [g Hok]]].
  - split; [congruence|exact Hline].
  - congruence.
Qed.

Lemma csv_decode_only_raises_column_error_witness :
  exists line, In line (csv_lines (skipping 0) wide_heading_then_row) /\
               (CsvCoordinateDecoder.validationMaxColumns (skipping 0)
                <= CsvCoordinateDecoder.comma_count line)%nat.
Proof.
  apply (@csv_decode_only_raises_column_error (skipping 0) wide_heading_then_row
           (Thrown "Selected coordinate CSV file has more than 10 columns! Rejecting.")).
  reflexivity.
Defined.

Lemma csv_rows_xyz (d : CsvCoordinateDecoder.t) (inputString : string)
    (geometry : list value) :
  CsvCoordinateDecoder.decode d inputString = Ok geometry -> Forall xyz_row geometry.
Proof.
  unfold CsvCoordinateDecoder.decode.
  destruct (some _ _); [discriminate|].
  intros H. inversion H; subst; clear H.
  apply Forall_forall. intros row Hrow.
  apply in_map_iff in Hrow. destruct Hrow as [fields [E _]]. subst row.
  unfold CsvCoordinateDecoder.cell.
  repeat match goal with
         | |- context [match ?x with _ => _ end] => destruct x
         end; now eexists _, _, _.
Qed.

(** X8.  Every row [CsvCoordinateDecoder.decode] returns is a 3-element array
    of numbers (a cell that is not a number reads as [NaN]), and there are at
    most as many rows as lines left after the skipped ones. *)
Theorem csv_decode_rows_are_triples :
  forall (d : CsvCoordinateDecoder.t) (inputString : string) (geometry : list value),
    CsvCoordinateDecoder.decode d inputString = Ok geometry ->
    Forall xyz_row geometry /\
    (List.length geometry <= List.length (csv_lines d inputString))%nat.
Proof.
  intros d inputString geometry Hdec. split; [now apply csv_rows_xyz in Hdec|].
  revert Hdec. unfold CsvCoordinateDecoder.decode, csv_lines.
  rewrite skip_rows_skipn. set (lines := skipn _ _).
  destruct (some _ lines); [discriminate|].
  intros H. inversion H; subst; clear H.
  rewrite length_map.
  etransitivity; [apply filter_length_le|]. now rewrite length_map.
Qed.

Lemma csv_decode_rows_are_triples_witness :
  CsvCoordinateDecoder.decode (skipping 1) csv_with_words
  = Ok [VArr [VNum (Fin (3 # 2)); VNum (Fin (-2)); VNum (Fin 300)];
        VArr [VNum NaN; VNum (Fin 7); VNum NaN]] /\
  Forall xyz_row [VArr [VNum (Fin (3 # 2)); VNum (Fin (-2)); VNum (Fin 300)];
                  VArr [VNum NaN; VNum (Fin 7); VNum NaN]].
Proof.
  split; [reflexivity|].
  apply (@csv_decode_rows_are_triples (skipping 1) csv_with_words). reflexivity.
Defined.

(** X9.  When [skipRowCount] is at least the number of lines of the input,
    nothing is left to check or to map: [decode] returns the empty list. *)
Theorem csv_decode_skip_everything :
  forall (d : CsvCoordinateDecoder.t) (inputString : string),
    (List.length (Str.split Str.newline inputString)
     <= CsvCoordinateDecoder.skipRowCount d)%nat ->
    CsvCoordinateDecoder.decode d inputString = Ok [].
Proof.
  intros d inputString H. unfold CsvCoordinateDecoder.decode.
  rewrite skip_rows_skipn. rewrite skipn_all2 by exact H. reflexivity.
Qed.

Lemma csv_decode_skip_everything_witness :
  CsvCoordinateDecoder.decode (skipping 2) wide_heading_then_row = Ok [].
Proof.
  apply csv_decode_skip_everything. vm_compute. lia.
Defined.

(** X10.  A trailing newline adds no row and no error: for a decoder with a
    positive ceiling whose highest selected column is not column 0,
    [decode] gives the same result with and without a final newline. *)
Theorem csv_decode_trailing_newline :
  forall (d : CsvCoordinateDecoder.t) (inputString : string) (h : nat),
    highest_column d = Some h ->
    (0 < h)%nat ->
    (0 < CsvCoordinateDecoder.validationMaxColumns d)%nat ->
    CsvCoordinateDecoder.decode d (append_newline inputString)
    = CsvCoordinateDecoder.decode d inputString.
Proof.
  intros d inputString h Hh Hpos Hmax.
  unfold CsvCoordinateDecoder.decode, append_newline.
  fold (highest_column d). rewrite Hh.
  rewrite !skip_rows_skipn, split_app_sep. cbn [Str.split].
  rewrite skipn_app.
  set (lines := skipn _ (Str.split Str.newline inputString)).
  set (k := (CsvCoordinateDecoder.skipRowCount d
             - List.length (Str.split Str.newline inputString))%nat).
  assert (Etail : skipn k [EmptyString] = [EmptyString] \/ skipn k [EmptyString] = []).
  { destruct k as [|[|k]]; cbn; auto. }
  destruct Etail as [E|E]; rewrite E; [|now rewrite app_nil_r].
  unfold some. rewrite existsb_app. cbn [existsb].
  assert (Ec : (CsvCoordinateDecoder.validationMaxColumns d
                <=? CsvCoordinateDecoder.comma_count EmptyString)%nat = false).
  { apply Nat.leb_gt. cbn. exact Hmax. }
  rewrite Ec, !orb_false_r.
  destruct (existsb _ lines); [reflexivity|].
  rewrite map_app, filter_app, map_app. cbn [map filter Str.trim].
  assert (Ef : (h <? List.length (Str.split Str.comma (Str.trim EmptyString)))%nat = false).
  { apply Nat.ltb_ge. cbn. lia. }
  rewrite Ef. cbn [map]. now rewrite app_nil_r.
Qed.

Lemma csv_decode_trailing_newline_witness :
  CsvCoordinateDecoder.decode (skipping 0) (append_newline csv_three_rows)
  = CsvCoordinateDecoder.decode (skipping 0) csv_three_rows.
Proof.
  apply (@csv_decode_trailing_newline (skipping 0) csv_three_rows 2).
  - reflexivity.
  - lia.
  - cbn. lia.
Defined.

(** ** The coordinate mapping *)

Lemma idxToCoord_in_range (m : CoordinateMapping.t) (idx : Z) (defaultValue : value) :
  (0 <= idx < Z.of_nat (List.length (CoordinateMapping.mapping m)))%Z ->
  nth_error (CoordinateMapping.mapping m) (Z.to_nat idx)
  = Some (CoordinateMapping.idxToCoord m idx defaultValue).
Proof.
  intros H. unfold CoordinateMapping.idxToCoord.
  destruct (Z.ltb_spec idx 0); [lia|].
  destruct (Z.geb_spec idx (Z.of_nat (List.length (CoordinateMapping.mapping m))));
    [lia|]. cbn.
  destruct (nth_error _ _) eqn:E; [reflexivity|].
  apply nth_error_None in E. lia.
Qed.

(** X11.  Loading through the CSV decoder: when [decode] raises, [load]
    raises the same exception; when it returns, the mapping holds exactly the
    decoded rows, and every lookup inside the bounds yields a 3-element array
    of numbers. *)
Theorem load_csv_then_lookup :
  forall (d : CsvCoordinateDecoder.t) (data : string)
         (old : CoordinateMapping.t),
    CoordinateMapping.decoder old = CsvCoordinateDecoder.decode d ->
    (forall e, CsvCoordinateDecoder.decode d data = Raise e ->
               CoordinateMapping.load data old = Raise e)
    /\
    (forall geometry,
        CsvCoordinateDecoder.decode d data = Ok geometry ->
        exists m,
          CoordinateMapping.load data old = Ok m /\
          CoordinateMapping.allCoords m = geometry /\
          CoordinateMapping.decoder m = CoordinateMapping.decoder old /\
          forall idx defaultValue,
            (0 <= idx < Z.of_nat (List.length geometry))%Z ->
            xyz_row (CoordinateMapping.idxToCoord m idx defaultValue)).
Proof.
  intros d data old Hdec. unfold CoordinateMapping.load. rewrite Hdec. split.
  - intros e He. now rewrite He.
  - intros geometry Hg. rewrite Hg. cbn [bind]. eexists. split; [reflexivity|].
    split; [reflexivity|]. split; [reflexivity|].
    intros idx dflt Hidx.
    pose proof (csv_rows_xyz d data Hg) as Hall.
    match goal with
    | |- xyz_row (CoordinateMapping.idxToCoord ?m idx dflt) =>
        pose proof (@idxToCoord_in_range m idx dflt Hidx) as Hnth
    end.
    cbn [CoordinateMapping.mapping] in Hnth.
    apply nth_error_In in Hnth.
    now apply (proj1 (Forall_forall _ _) Hall).
Qed.

Lemma load_csv_then_lookup_witness :
  exists m,
    CoordinateMapping.load csv_three_rows sample_mapping = Ok m /\
    CoordinateMapping.allCoords m
    = [VArr [VNum (Fin 1); VNum (Fin 2); VNum (Fin 3)];
       VArr [VNum (Fin 4); VNum (Fin 5); VNum (Fin 6)];
       VArr [VNum (Fin 7); VNum (Fin 8); VNum (Fin 9)]] /\
    CoordinateMapping.decoder m = CoordinateMapping.decoder sample_mapping /\
    forall idx defaultValue,
      (0 <= idx < Z.of_nat 3)%Z ->
      xyz_row (CoordinateMapping.idxToCoord m idx defaultValue).
Proof.
  apply (proj2 (@load_csv_then_lookup (skipping 0) csv_three_rows sample_mapping eq_refl)).
  reflexivity.
Defined.

(** ** The animation decoder *)

Lemma sparse_set_length {A : Type} (i : nat) (x : A) (a : list (option A)) :
  List.length (Sparse.set i x a) = Nat.max (List.length a) (S i).
Proof.
  revert a. induction i as [|i IH]; intros [|y a]; cbn; try reflexivity.
  - lia.
  - rewrite IH. cbn. lia.
  - rewrite IH. lia.
Qed.

Lemma sparse_set_In {A : Type} (i : nat) (x y : A) (a : list (option A)) :
  In (Some y) (Sparse.set i x a) -> y = x \/ In (Some y) a.
Proof.
  revert a. induction i as [|i IH]; intros [|z a]; cbn.
  - intros [H|[]]. left. congruence.
  - intros [H|H]; [left; congruence|right; now right].
  - intros [H|H]; [discriminate|]. destruct (IH [] H) as [E|[]]. now left.
  - intros [H|H]; [right; now left|].
    destruct (IH a H) as [E|Hin]; [now left|right; now right].
Qed.

Lemma sparse_get_In {A : Type} (i : nat) (x : A) (a : list (option A)) :
  Sparse.get i a = Some x -> In (Some x) a.
Proof.
  unfold Sparse.get. destruct (nth_error a i) as [[y|]|] eqn:E; try discriminate.
  intros H. inversion H; subst. now apply nth_error_In with (n := i).
Qed.

Lemma sparse_set_nth {A : Type} (i j : nat) (x y : A) (a : list (option A)) :
  nth_error (Sparse.set i x a) j = Some (Some y) ->
  (j = i /\ y = x) \/ nth_error a j = Some (Some y).
Proof.
  revert j a. induction i as [|i IH]; intros [|j] [|z a]; cbn;
    try (intros H; inversion H; subst; now auto).
  - destruct j; cbn; discriminate.
  - intros H. destruct (IH j [] H) as [[-> ->]|Hn]; [now left|].
    destruct j; discriminate.
  - intros H. destruct (IH j a H) as [[-> ->]|Hn]; [now left|now right].
Qed.

Section AnimationFacts.

Context {P F : Type}.
Variable this : CsvAnimationDecoder.t P F.

(** X12.  [CsvAnimationDecoder.decode] fails only for want of a heading row:
    it raises (a [TypeError]) exactly when [skipRowCount] is at least the
    number of lines, so never with [skipRowCount = 0]; when it returns, the
    heading and the skipped lines have produced no frame. *)
Theorem animation_decode_needs_heading :
  forall (inputString : string),
    ((exists e, CsvAnimationDecoder.decode this inputString = Raise e)
     <-> (List.length (Str.split Str.newline inputString)
          <= CsvAnimationDecoder.skipRowCount this)%nat)
    /\
    (forall e, CsvAnimationDecoder.decode this inputString = Raise e -> e = TypeError)
    /\
    (forall frames,
        CsvAnimationDecoder.decode this inputString = Ok frames ->
        (CsvAnimationDecoder.skipRowCount this + 1 + List.length frames
         <= List.length (Str.split Str.newline inputString))%nat).
Proof.
  intros inputString. unfold CsvAnimationDecoder.decode.
  rewrite skip_rows_skipn.
  set (n := CsvAnimationDecoder.skipRowCount this).
  set (lines := Str.split Str.newline inputString).
  pose proof (length_skipn n lines) as Hlen.
  destruct (skipn n lines) as [|headingLine rest] eqn:E; cbn [List.length] in Hlen.
  - repeat split.
    + intros _. lia.
    + intros _. now exists TypeError.
    + intros e H. now inversion H.
    + discriminate.
  - repeat split.
    + intros [e He]. discriminate.
    + intros H. lia.
    + discriminate.
    + intros frames H. inversion H; subst; clear H.
      rewrite !length_map.
      match goal with
      | |- context [List.length (filter ?f ?l)] =>
          pose proof (filter_length_le f l) as Hf
      end.
      rewrite length_map in Hf. lia.
Qed.

Lemma lower_idempotent (c : ascii) : Str.lower (Str.lower c) = Str.lower c.
Proof.
  destruct c as [[|] [|] [|] [|] [|] [|] [|] [|]]; reflexivity.
Qed.

Lemma toLowerCase_idempotent (s : string) :
  Str.toLowerCase (Str.toLowerCase s) = Str.toLowerCase s.
Proof.
  induction s as [|c s IH]; cbn; [reflexivity|].
  now rewrite lower_idempotent, IH.
Qed.

(** X13.  Heading labels are read without regard to letter case: a heading
    row and its lower-case form give the same column mapping. *)
Theorem heading_case_insensitive :
  forall (line : string),
    CsvAnimationDecoder.decodeHeadingRow this (Str.toLowerCase line)
    = CsvAnimationDecoder.decodeHeadingRow this line.
Proof.
  intros line. unfold CsvAnimationDecoder.decodeHeadingRow.
  now rewrite toLowerCase_idempotent.
Qed.

(** The callback of [decodeHeadingRow]'s [forEach]. *)
Lemma heading_forEach_invariant
    (all : list string) (l : list string) (pre : list string)
    (acc : list (option CsvAnimationDecoder.column)) :
  all = pre ++ l ->
  (List.length acc <= List.length pre)%nat ->
  (forall i c, nth_error acc i = Some (Some c) ->
     CsvAnimationDecoder.map_has (CsvAnimationDecoder.component c)
       (CsvAnimationDecoder.components this) = true /\
     exists field part1,
       nth_error all i = Some field /\
       Str.split "_"%char field = [CsvAnimationDecoder.component c; part1] /\
       CsvAnimationDecoder.pixel_index c = Str.parseInt10 part1) ->
  let res :=
    CsvAnimationDecoder.forEach_from
      (fun columnMapping field idx =>
         match Str.split "_"%char field with
         | [part0; part1] =>
             if negb (CsvAnimationDecoder.map_has part0 (CsvAnimationDecoder.components this))
             then columnMapping
             else Sparse.set idx
                    {| CsvAnimationDecoder.component := part0;
                       CsvAnimationDecoder.pixel_index := Str.parseInt10 part1 |}
                    columnMapping
         | _ => columnMapping
         end)
      (List.length pre) l acc in
  (List.length res <= List.length all)%nat /\
  (forall i c, nth_error res i = Some (Some c) ->
     CsvAnimationDecoder.map_has (CsvAnimationDecoder.component c)
       (CsvAnimationDecoder.components this) = true /\
     exists field part1,
       nth_error all i = Some field /\
       Str.split "_"%char field = [CsvAnimationDecoder.component c; part1] /\
       CsvAnimationDecoder.pixel_index c = Str.parseInt10 part1).
Proof.
  revert pre acc. induction l as [|field l IH]; intros pre acc Hall Hlen Hinv; cbn.
  - rewrite app_nil_r in Hall. subst all. split; assumption.
  - assert (Hall' : all = (pre ++ [field]) ++ l) by (now rewrite <- app_assoc).
    assert (Hlen' : List.length (pre ++ [field]) = S (List.length pre))
      by (rewrite length_app; cbn; lia).
    rewrite <- Hlen'.
    apply IH; [exact Hall'| |].
    + destruct (Str.split "_"%char field) as [|p0 [|p1 [|p2 ps]]]; try lia.
      destruct (negb _); [lia|]. rewrite sparse_set_length. lia.
    + intros i c Hi.
      destruct (Str.split "_"%char field) as [|p0 [|p1 [|p2 ps]]] eqn:Es;
        try (now apply Hinv).
      destruct (CsvAnimationDecoder.map_has p0 _) eqn:Eh; cbn [negb] in Hi;
        [|now apply Hinv].
      apply sparse_set_nth in Hi. destruct Hi as [[-> ->]|Hi]; [|now apply Hinv].
      cbn. split; [exact Eh|]. exists field, p1. split; [|split; [exact Es|reflexivity]].
      rewrite Hall. rewrite nth_error_app2 by lia.
      now rewrite Nat.sub_diag.
Qed.

(** X14.  Every column that [decodeHeadingRow] maps lies within the heading
    row, names a configured component, and comes from a label of the form
    [component_index] whose index part is what [parseInt] reads; the column
    count is the number of comma-separated labels. *)
Theorem heading_columns_are_known :
  forall (line : string),
    let h := CsvAnimationDecoder.decodeHeadingRow this line in
    let fields := Str.split Str.comma (Str.toLowerCase line) in
    CsvAnimationDecoder.totalColumnCount h = List.length fields /\
    (List.length (CsvAnimationDecoder.columnMapping h)
     <= CsvAnimationDecoder.totalColumnCount h)%nat /\
    (forall i c,
        nth_error (CsvAnimationDecoder.columnMapping h) i = Some (Some c) ->
        CsvAnimationDecoder.map_has (CsvAnimationDecoder.component c)
          (CsvAnimationDecoder.components this) = true /\
        exists field part1,
          nth_error fields i = Some field /\
          Str.split "_"%char field = [CsvAnimationDecoder.component c; part1] /\
          CsvAnimationDecoder.pixel_index c = Str.parseInt10 part1).
Proof.
  intros line h fields. split; [reflexivity|].
  subst h. unfold CsvAnimationDecoder.decodeHeadingRow, CsvAnimationDecoder.forEach.
  cbn [CsvAnimationDecoder.totalColumnCount CsvAnimationDecoder.columnMapping].
  fold fields.
  apply (@heading_forEach_invariant fields fields [] []).
  - reflexivity.
  - cbn. lia.
  - intros i c Hi. destruct i; discriminate.
Qed.

End AnimationFacts.

Lemma animation_decode_needs_heading_witness :
  (exists e, CsvAnimationDecoder.decode (CsvAnimationDecoder.new (Some 2%nat) None)
               two_pixel_animation = Raise e) /\
  CsvAnimationDecoder.decode (CsvAnimationDecoder.new (Some 2%nat) None)
    two_pixel_animation = Raise TypeError.
Proof.
  split; [|reflexivity].
  apply (proj2 (proj1 (animation_decode_needs_heading
                         (CsvAnimationDecoder.new (Some 2%nat) None)
                         two_pixel_animation))).
  vm_compute. lia.
Defined.

Lemma heading_columns_are_known_witness :
  CsvAnimationDecoder.map_has "b" (CsvAnimationDecoder.components
                                     (CsvAnimationDecoder.new None None)) = true /\
  exists field part1,
    nth_error (Str.split Str.comma (Str.toLowerCase mixed_case_heading)) 2 = Some field /\
    Str.split "_"%char field = ["b"%string; part1] /\
    Some 0%Z = Str.parseInt10 part1.
Proof.
  apply (proj2 (proj2 (heading_columns_are_known (CsvAnimationDecoder.new None None)
                         mixed_case_heading))
           2%nat {| CsvAnimationDecoder.component := "b";
                    CsvAnimationDecoder.pixel_index := Some 0%Z |}).
  reflexivity.
Defined.

Lemma map_get_map_set (k k' : string) (v : nat) (m : CsvAnimationDecoder.component_map) :
  CsvAnimationDecoder.map_get k (CsvAnimationDecoder.map_set k' v m)
  = if String.eqb k' k then Some v else CsvAnimationDecoder.map_get k m.
Proof.
  induction m as [|[k0 w] m IH]; cbn.
  - reflexivity.
  - destruct (String.eqb_spec k0 k') as [->|Hne]; cbn.
    + destruct (String.eqb k' k); reflexivity.
    + rewrite IH. destruct (String.eqb_spec k0 k) as [->|Hne'].
      * destruct (String.eqb_spec k' k) as [->|_]; [contradiction|reflexivity].
      * reflexivity.
Qed.

Lemma components_forEach_below (names : list string) (idx : nat)
    (acc : CsvAnimationDecoder.component_map) :
  channels_below idx acc ->
  channels_below (idx + List.length names)
    (CsvAnimationDecoder.forEach_from (fun m c i => CsvAnimationDecoder.map_set c i m)
       idx names acc).
Proof.
  revert idx acc. induction names as [|c names IH]; intros idx acc H; cbn.
  - intros k v Hk. specialize (H k v Hk). lia.
  - replace (idx + S (List.length names))%nat with (S idx + List.length names)%nat by lia.
    apply IH. intros k v. rewrite map_get_map_set.
    destruct (String.eqb c k).
    + intros E. inversion E. lia.
    + intros Hk. specialize (H k v Hk). lia.
Qed.

Lemma components_forEach_has (names : list string) (idx : nat)
    (acc : CsvAnimationDecoder.component_map) (k : string) :
  CsvAnimationDecoder.map_has k
    (CsvAnimationDecoder.forEach_from (fun m c i => CsvAnimationDecoder.map_set c i m)
       idx names acc) = true
  <-> CsvAnimationDecoder.map_has k acc = true \/ In k names.
Proof.
  revert idx acc. induction names as [|c names IH]; intros idx acc; cbn.
  - tauto.
  - rewrite IH. unfold CsvAnimationDecoder.map_has. rewrite map_get_map_set.
    destruct (String.eqb_spec c k) as [->|Hne].
    + tauto.
    + split; intros [H|H]; auto. destruct H as [H|H]; [contradiction|auto].
Qed.

(** X15.  The component map built by the constructor knows exactly the
    configured names, and sends each to a position of the list (below its
    length) at which that name stands. *)
Theorem components_of_names :
  forall (names : list string) (k : string),
    (CsvAnimationDecoder.map_has k (CsvAnimationDecoder.components_of names) = true
     <-> In k names)
    /\
    (forall v, CsvAnimationDecoder.map_get k (CsvAnimationDecoder.components_of names) = Some v ->
               (v < List.length names)%nat).
Proof.
  intros names k. unfold CsvAnimationDecoder.components_of, CsvAnimationDecoder.forEach.
  split.
  - rewrite components_forEach_has. cbn. split; [intros [H|H]|]; auto. discriminate.
  - intros v Hv.
    apply (@components_forEach_below names 0 []) in Hv; [exact Hv|].
    intros k' v' H'. discriminate.
Qed.

Lemma components_of_names_witness :
  CsvAnimationDecoder.map_has "g" (CsvAnimationDecoder.components_of ["r"; "g"; "b"]%string)
  = true /\
  (1 < List.length ["r"; "g"; "b"]%string)%nat.
Proof.
  split.
  - apply (proj1 (components_of_names ["r"; "g"; "b"]%string "g")).
    right. left. reflexivity.
  - apply (proj2 (components_of_names ["r"; "g"; "b"]%string "g") 1%nat).
    reflexivity.
Defined.

Section PixelWidth.

Context {P F : Type}.
Variable this : CsvAnimationDecoder.t P F.
Variable n : nat.
Hypothesis Hbelow : channels_below n (CsvAnimationDecoder.components this).

Lemma sparse_set_within (i : nat) (p : CsvAnimationDecoder.pixel)
    (pixels : list (option CsvAnimationDecoder.pixel)) :
  pixels_within n pixels -> (List.length p <= n)%nat ->
  pixels_within n (Sparse.set i p pixels).
Proof.
  intros Hp Hlen q Hq. apply sparse_set_In in Hq.
  destruct Hq as [->|Hq]; [exact Hlen|now apply Hp].
Qed.

Lemma row_step_within (columnMapping : list (option CsvAnimationDecoder.column))
    (fields : list string) (pixels : list (option CsvAnimationDecoder.pixel))
    (columnIndex : nat) :
  pixels_within n pixels ->
  pixels_within n (CsvAnimationDecoder.row_step this columnMapping fields pixels columnIndex).
Proof.
  intros Hp. unfold CsvAnimationDecoder.row_step.
  destruct (Sparse.get columnIndex columnMapping) as [mapping|]; [|exact Hp].
  destruct (CsvAnimationDecoder.element_index _) as [pixelIdx|]; [|exact Hp].
  destruct (CsvAnimationDecoder.map_get _ _) as [channel|] eqn:Ec; [|exact Hp].
  apply sparse_set_within; [exact Hp|].
  rewrite sparse_set_length. specialize (Hbelow _ Ec).
  destruct (Sparse.get pixelIdx pixels) as [p|] eqn:Eg.
  - apply sparse_get_In in Eg. specialize (Hp p Eg). lia.
  - cbn. lia.
Qed.

Lemma row_pixels_within (h : CsvAnimationDecoder.heading) (fields : list string) :
  pixels_within n (CsvAnimationDecoder.row_pixels this h fields).
Proof.
  unfold CsvAnimationDecoder.row_pixels.
  assert (H0 : pixels_within n []) by (intros p []).
  revert H0. generalize (@nil (option CsvAnimationDecoder.pixel)).
  induction (seq 0 (CsvAnimationDecoder.totalColumnCount h)) as [|c cs IH];
    intros pixels Hp; cbn; [exact Hp|].
  apply IH. now apply row_step_within.
Qed.

End PixelWidth.

Lemma sparse_map_id {A : Type} (a : list (option A)) :
  Sparse.map (fun x => x) a = a.
Proof.
  unfold Sparse.map. induction a as [|[x|] a IH]; cbn; now rewrite ?IH.
Qed.

(** X16.  With the mappers left at their defaults, every pixel of every
    decoded frame has at most as many channels as there are configured
    components (three by default). *)
Theorem animation_pixels_within_components :
  forall (skip : option nat) (names : option (list string)) (inputString : string)
         (frames : list (list (option CsvAnimationDecoder.pixel))),
    CsvAnimationDecoder.decode (CsvAnimationDecoder.new skip names) inputString = Ok frames ->
    forall frame, In frame frames ->
      pixels_within
        (List.length (CsvCoordinateDecoder.or_default names
                        CsvAnimationDecoder.default_components))
        frame.
Proof.
  intros skip names inputString frames Hdec frame Hin.
  unfold CsvAnimationDecoder.decode in Hdec.
  destruct (CsvCoordinateDecoder.skip_rows _ _) as [|headingLine rest]; [discriminate|].
  inversion Hdec; subst; clear Hdec.
  cbn [CsvAnimationDecoder.frameMapper CsvAnimationDecoder.pixelMapper
       CsvAnimationDecoder.new] in Hin.
  apply in_map_iff in Hin. destruct Hin as [f1 [E1 Hin]]. subst frame.
  apply in_map_iff in Hin. destruct Hin as [f2 [E2 Hin]]. subst f1.
  apply in_map_iff in Hin. destruct Hin as [fields [E3 _]]. subst f2.
  rewrite sparse_map_id.
  apply row_pixels_within.
  intros k v Hk. cbn [CsvAnimationDecoder.components CsvAnimationDecoder.new] in Hk.
  unfold CsvAnimationDecoder.components_of, CsvAnimationDecoder.forEach in Hk.
  apply (@components_forEach_below _ 0 []) in Hk; [exact Hk|].
  intros k' v' H'. discriminate.
Qed.

Lemma animation_pixels_within_components_witness :
  CsvAnimationDecoder.decode (CsvAnimationDecoder.new None None) animation_with_gap
  = Ok [[Some [Some (Fin 1); Some (Fin 2); Some (Fin 3)]; None; Some [Some (Fin 4)]];
        [Some [Some (Fin 7); Some (Fin 8); Some (Fin 9)]; None; Some [Some (Fin 10)]]] /\
  pixels_within 3 [Some [Some (Fin 1); Some (Fin 2); Some (Fin 3)]; None; Some [Some (Fin 4)]].
Proof.
  assert (H : CsvAnimationDecoder.decode (CsvAnimationDecoder.new None None) animation_with_gap
              = Ok [[Some [Some (Fin 1); Some (Fin 2); Some (Fin 3)]; None; Some [Some (Fin 4)]];
                    [Some [Some (Fin 7); Some (Fin 8); Some (Fin 9)]; None; Some [Some (Fin 10)]]])
    by (vm_compute; reflexivity).
  split; [exact H|].
  apply (@animation_pixels_within_components None None animation_with_gap _ H).
  left. reflexivity.
Defined.

(** * Further properties of the playback controller *)

Lemma Qfloor_unit_interval (x : Q) : 0 <= x -> x < 1 -> Qfloor x = 0%Z.
Proof.
  intros H0 H1.
  assert (Hlo : (0 <= Qfloor x)%Z).
  { change 0%Z with (Qfloor 0). now apply Qfloor_resp_le. }
  assert (Hhi : (Qfloor x < 1)%Z).
  { rewrite Zlt_Qlt. eapply Qle_lt_trans; [apply Qfloor_le|exact H1]. }
  lia.
Qed.

Lemma Qrem_small (v d : Q) : 0 <= v -> v < d -> Qrem v d == v.
Proof.
  intros H0 H1. unfold Qrem.
  assert (Hd : 0 < d) by lra.
  assert (Hq0 : 0 <= v / d).
  { apply Qle_shift_div_l; [exact Hd|]. lra. }
  assert (Hq1 : v / d < 1).
  { apply Qlt_shift_div_r; [exact Hd|]. lra. }
  rewrite (Qtrunc_nonneg Hq0), (Qfloor_unit_interval Hq0 Hq1). ring.
Qed.

Section TimeArithmetic.

Import ChristmasTreeSimulator.

Variable Color : Type.

(** X17.  Writing a time and reading it back, for a duration [d] that is a
    number.  A value that is not negative is stored as it is, however
    large; a negative value [v] is stored as the rounded sum of [v % d],
    which lies in [(-d, 0]], and [d].  When [d] is at most [2^1023] the
    stored time is a number and the read lies in [[0, d)]; a value already
    in [[0, d)] is read back unchanged.  The sum is rounded: with duration
    2, after writing the double next to [-0.1] the time read is the double
    next to 1.9, which does not differ from the written value by 2. *)
Theorem currentTime_write_then_read :
  forall (s : t Color) (v d : Q),
    duration s = Fin d ->
    (0 <= v -> _currentTime (set_currentTime (Fin v) s) = Fin v)
    /\
    (v < 0 ->
     _currentTime (set_currentTime (Fin v) s) = round (Qrem v d + d) /\
     0 < Qrem v d + d /\ Qrem v d + d <= d)
    /\
    (d <= 2 ^ 1023 ->
     exists q t, _currentTime (set_currentTime (Fin v) s) = Fin q /\ 0 <= q /\
                 currentTime (set_currentTime (Fin v) s) = Fin t /\
                 0 <= t /\ t < d)
    /\
    (0 <= v -> v < d ->
     Num.equiv (currentTime (set_currentTime (Fin v) s)) (Fin v))
    /\
    (exists s0, new Color (with_baseFrameRate 2) = Ok s0 /\
       let s1 := run [SetData (only_frames (four_frames Color));
                      WriteCurrentTime Color (double_of (-1 # 10))] s0 in
       duration s1 = Fin 2 /\
       exists t, currentTime s1 = Fin t /\
                 t == double_of (19 # 10) /\
                 ~ t - double_of (-1 # 10) == 2).
Proof.
  intros s v d Hd. pose proof (duration_Fin_pos s Hd) as Hpos.
  assert (Hneg : v < 0 -> 0 < Qrem v d + d /\ Qrem v d + d <= d).
  { intros Hv. destruct (Qrem_neg (a:=v) (b:=d) Hv Hpos). split; lra. }
  assert (Hread : forall q, 0 <= q ->
            _currentTime (set_currentTime (Fin v) s) = Fin q ->
            exists q t, _currentTime (set_currentTime (Fin v) s) = Fin q /\ 0 <= q /\
                        currentTime (set_currentTime (Fin v) s) = Fin t /\
                        0 <= t /\ t < d).
  { intros q Hq0 Hq.
    assert (Hd' : duration (set_currentTime (Fin v) s) = Fin d) by exact Hd.
    destruct (currentTime_finite _ Hq Hq0 Hd') as [Ht [Ht0 Ht1]].
    exists q, (Qrem q d). repeat split; assumption. }
  split; [|split; [|split; [|split]]].
  - apply set_currentTime_nonneg.
  - intros Hv. split; [now apply set_currentTime_negative|now apply Hneg].
  - intros Hbig. destruct (Qlt_le_dec v 0) as [Hv|Hv].
    + destruct (Hneg Hv) as [H1 H2].
      destruct (@round_nonneg_fin (Qrem v d + d)) as [r [Er [Hr0 _]]]; [lra|lra|].
      apply (Hread r Hr0). now rewrite (set_currentTime_negative s Hd Hv).
    + apply (Hread v Hv). now apply set_currentTime_nonneg.
  - intros Hv0 Hv1.
    assert (Hd' : duration (set_currentTime (Fin v) s) = Fin d) by exact Hd.
    destruct (currentTime_finite _ (set_currentTime_nonneg s Hv0) Hv0 Hd')
      as [Ht _].
    rewrite Ht. cbn [Num.equiv]. now apply Qrem_small.
  - eexists. split; [reflexivity|]. cbv zeta. split; [vm_compute; reflexivity|].
    eexists. split; [vm_compute; reflexivity|].
    split; [vm_compute; reflexivity|vm_compute; discriminate].
Qed.

Lemma duration_seekRelative (delta : num) (s : t Color) :
  duration (seekRelative delta s) = duration s.
Proof. reflexivity. Qed.

(** X18.  A seek stores one rounded sum: when the time read is [t] and
    [t + delta] is not negative, [seekRelative(delta)] stores the double
    next to [t + delta].  Seeks therefore do not compose exactly: with a
    duration of 1, seeking by -0.25 and then by the double next to 5/3
    leaves a time that is [2^-52] above the one that a single seek by the
    rounded sum of the two leaves. *)
Theorem seekRelative_rounds :
  forall (s : t Color) (t delta : Q),
    currentTime s = Fin t -> 0 <= t + delta ->
    _currentTime (seekRelative (Fin delta) s) = round (t + delta)
    /\
    (exists s0, new Color (with_baseFrameRate 4) = Ok s0 /\
       let s1 := setData (only_frames (four_frames Color)) s0 in
       let a := -1 # 4 in
       let b := double_of (5 # 3) in
       duration s1 = Fin 1 /\
       exists t2 t1,
         currentTime (seekRelative (Fin b) (seekRelative (Fin a) s1)) = Fin t2 /\
         currentTime (seekRelative (Fin (double_of (a + b))) s1) = Fin t1 /\
         t2 - t1 == 2 ^ (-52)).
Proof.
  intros s t delta Ht Hsum. split.
  - unfold seekRelative. rewrite Ht. cbn [add].
    unfold set_currentTime. cbn [_currentTime].
    destruct (round_nonneg Hsum) as [[E _]|[r [E [Hr _]]]]; rewrite E.
    + reflexivity.
    + now rewrite (ltb_nonneg Hr).
  - eexists. split; [reflexivity|]. cbv zeta. split; [vm_compute; reflexivity|].
    eexists. eexists. split; [vm_compute; reflexivity|].
    split; [vm_compute; reflexivity|]. vm_compute. reflexivity.
Qed.

(** X19.  The duration is never zero: it is a number not below [1e-9],
    [Infinity] or [NaN].  It is [NaN] exactly when no frame is held and the
    frame duration is infinite.  When the rounded product of the frame
    count and the frame duration is a number [p], the duration is the
    larger of [1e-9] and [p].  The product is rounded: with one frame at
    frame rate 49 the duration is below [1 / 49]. *)
Theorem duration_floor :
  forall (s : t Color),
    ((exists d, duration s = Fin d /\ epsilon <= d /\ 0 < d) \/
     duration s = PInf \/ duration s = NaN)
    /\
    (duration s = NaN <->
     frameCount s = 0%nat /\ (frameDuration s = PInf \/ frameDuration s = NInf))
    /\
    (forall p, mul (of_nat (frameCount s)) (frameDuration s) = Fin p ->
               exists d, duration s = Fin d /\ epsilon <= d /\ p <= d /\
                         (d = epsilon \/ d = p))
    /\
    (exists s0, new Color (with_baseFrameRate 49) = Ok s0 /\
       let s1 := setData (only_frames [[]]) s0 in
       exists d, duration s1 = Fin d /\ d < 1 / 49).
Proof.
  intros s. split; [|split; [|split]].
  - destruct (duration_cases s) as [[d [Hd Hle]]|[Hd|Hd]]; auto.
    left. exists d. pose proof epsilon_pos. repeat split; [assumption..|lra].
  - apply duration_NaN_iff.
  - intros p Hp. unfold duration. rewrite Hp. unfold max.
    destruct (Qle_bool epsilon p) eqn:E.
    + apply Qle_bool_iff in E. exists p. repeat split; auto. apply Qle_refl.
    + apply Qle_bool_false_lt in E. exists epsilon.
      repeat split; auto; [apply Qle_refl|lra].
  - eexists. split; [reflexivity|]. cbv zeta.
    eexists. split; [vm_compute; reflexivity|]. vm_compute. reflexivity.
Qed.

(** X20.  With [baseFrameRate = 0] nothing guards the division: the frame
    duration is [Infinity], and the duration is [Infinity] when frames are
    loaded and [NaN] when none is. *)
Theorem duration_at_zero_rate :
  forall (s : t Color),
    baseFrameRate s == 0 ->
    frameDuration s = PInf /\
    ((0 < frameCount s)%nat -> duration s = PInf) /\
    (frameCount s = 0%nat -> duration s = NaN /\ currentTime s = NaN).
Proof.
  intros s Hb.
  assert (Hfd : frameDuration s = PInf).
  { unfold frameDuration, div, Qzero. apply Qeq_eq_bool in Hb. now rewrite Hb. }
  split; [exact Hfd|]. unfold currentTime, duration. rewrite Hfd. split.
  - intros Hn. destruct (frameCount s) as [|n]; [lia|]. reflexivity.
  - intros Hn. rewrite Hn. cbn. split; [reflexivity|].
    destruct (_currentTime s); reflexivity.
Qed.

End TimeArithmetic.
Section ControllerFacts.

Import ChristmasTreeSimulator.

Variable Color : Type.

(** X21.  The constructor fails on a negative [startTime]: the setter it
    calls first reads [duration] before [animationFrames] is assigned.  With
    any other [startTime] it returns a controller that holds no frame and no
    mapping, has both dirty flags set and stores [startTime] as given. *)
Theorem new_rejects_negative_startTime :
  forall (o : options),
    (or_default (opt_startTime o) 0 < 0 -> new Color o = Raise TypeError)
    /\
    (0 <= or_default (opt_startTime o) 0 ->
     exists s, new Color o = Ok s /\
               _currentTime s = Fin (or_default (opt_startTime o) 0) /\
               frameCount s = 0%nat /\
               coordinateMapping s = None /\
               dirty s = true /\ dirtyGeometry s = true /\
               playbackRate s = inititalPlaybackRate s /\
               isPlaying s = startPlaying s).
Proof.
  intros o. unfold new. split.
  - intros H.
    assert (E : ltb (Fin (or_default (opt_startTime o) 0)) (Fin 0) = true).
    { cbn. destruct (Qle_bool 0 _) eqn:E0; [|reflexivity].
      apply Qle_bool_iff in E0. lra. }
    now rewrite E.
  - intros H.
    assert (E : ltb (Fin (or_default (opt_startTime o) 0)) (Fin 0) = false).
    { cbn. apply Qle_bool_iff in H. now rewrite H. }
    rewrite E. eexists. split; [reflexivity|]. repeat split.
Qed.

Lemma rem_by_zero (a : num) : rem a (of_nat 0) = NaN.
Proof. destruct a; reflexivity. Qed.

(** X22.  Without frames there is no current frame: for every controller
    with [frameCount = 0], whatever its time and rate, the frame index and
    the progress are [NaN] and [getCurrentFrameMapped] fails. *)
Theorem no_frames_no_current_frame :
  forall (s : t Color),
    frameCount s = 0%nat ->
    currentFrameIdx s = NaN /\
    currentProgress s = NaN /\
    getCurrentFrameMapped s = Raise TypeError.
Proof.
  intros s Hn.
  assert (Hidx : currentFrameIdx s = NaN).
  { unfold currentFrameIdx. rewrite Hn. apply rem_by_zero. }
  split; [exact Hidx|]. split.
  - unfold currentProgress. now rewrite Hidx.
  - unfold getCurrentFrameMapped. now rewrite Hidx.
Qed.

Lemma mapi_from_total {B : Type} (g : Color -> nat -> B) (idx : nat) (a : frame Color) :
  exists out,
    Sparse.mapi_from (fun pixel i => Ok (g pixel i)) idx a = Ok out /\
    List.length out = List.length a /\
    forall i, nth_error out i
              = option_map (option_map (fun pixel => g pixel (idx + i)%nat))
                           (nth_error a i).
Proof.
  revert idx. induction a as [|[c|] a IH]; intros idx; cbn.
  - exists []. repeat split. intros i. now destruct i.
  - destruct (IH (S idx)) as [out [Hout [Hlen Hnth]]]. rewrite Hout. cbn.
    eexists. split; [reflexivity|]. split; [cbn; now rewrite Hlen|].
    intros [|i]; cbn.
    + now rewrite Nat.add_0_r.
    + rewrite Hnth. now rewrite Nat.add_succ_r.
  - destruct (IH (S idx)) as [out [Hout [Hlen Hnth]]]. rewrite Hout. cbn.
    eexists. split; [reflexivity|]. split; [cbn; now rewrite Hlen|].
    intros [|i]; cbn.
    + reflexivity.
    + rewrite Hnth. now rewrite Nat.add_succ_r.
Qed.

(** X23.  With a coordinate mapping and a current frame,
    [getCurrentFrameMapped] returns one slot per slot of the frame: a pixel
    at index [i] is paired with [idxToCoord(i)] of the mapping ([null] when
    the mapping is shorter), and a hole stays a hole. *)
Theorem getCurrentFrameMapped_with_mapping :
  forall (s : t Color) (m : CoordinateMapping.t) (f : frame Color),
    coordinateMapping s = Some m ->
    current_frame s = Some f ->
    exists out,
      getCurrentFrameMapped s = Ok out /\
      List.length out = List.length f /\
      forall i, nth_error out i = option_map (mapped_slot m i) (nth_error f i).
Proof.
  intros s m f Hm Hf. unfold getCurrentFrameMapped.
  unfold current_frame in Hf. rewrite Hf, Hm. unfold Sparse.mapi.
  destruct (mapi_from_total
              (fun pixel idx =>
                 {| position := CoordinateMapping.idxToCoord_null m (Z.of_nat idx);
                    color := pixel |}) 0 f) as [out [Hout [Hlen Hnth]]].
  exists out. split; [exact Hout|]. split; [exact Hlen|].
  intros i. rewrite Hnth. destruct (nth_error f i) as [[c|]|]; reflexivity.
Qed.

(** Without a finite stored time there is no current frame. *)
Lemma currentFrameIdx_not_finite (s : t Color) :
  (forall q, _currentTime s <> Fin q) -> currentFrameIdx s = NaN.
Proof.
  intros H. unfold currentFrameIdx, currentTime.
  destruct (_currentTime s) as [q| | |]; [now destruct (H q)|reflexivity..].
Qed.

(** X24.  With a coordinate mapping loaded, the frame query succeeds on
    every well-formed controller with a positive frame rate and at least
    one frame: it returns one slot per slot of one of the held frames.  It
    fails when the stored time is not a finite number, which products and
    sums that overflow bring about: after [processTimeAdvance(1e200)] on a
    playing controller with playback rate [1e200] the stored time is
    [Infinity] and the query fails although frames and a mapping are
    held. *)
Theorem getCurrentFrameMapped_succeeds :
  forall (s : t Color) (m : CoordinateMapping.t),
    coordinateMapping s = Some m ->
    (well_formed s -> 0 < baseFrameRate s -> (0 < frameCount s)%nat ->
     exists f out,
       In f (animationFrames s) /\
       getCurrentFrameMapped s = Ok out /\
       List.length out = List.length f)
    /\
    ((forall q, _currentTime s <> Fin q) ->
     getCurrentFrameMapped s = Raise TypeError)
    /\
    (exists s0, new Color (with_baseFrameRate 2) = Ok s0 /\
       let s1 := run [SetData (frames_and_mapping (four_frames Color) sample_mapping);
                      WriteIsPlaying Color true;
                      SetPlaybackRate Color (double_of (10 ^ 200));
                      ProcessTimeAdvance Color (double_of (10 ^ 200))] s0 in
       frameCount s1 = 4%nat /\
       coordinateMapping s1 = Some sample_mapping /\
       _currentTime s1 = PInf /\
       getCurrentFrameMapped s1 = Raise TypeError).
Proof.
  intros s m Hm. split; [|split].
  - intros Hwf Hb Hn.
    destruct (current_frame_exists Hwf Hb Hn) as [f Hf].
    assert (Hin : In f (animationFrames s)).
    { unfold current_frame, at_number in Hf.
      destruct (to_index _) as [k|]; [|discriminate].
      now apply nth_error_In with (n := k). }
    unfold getCurrentFrameMapped. unfold current_frame in Hf. rewrite Hf, Hm.
    unfold Sparse.mapi.
    destruct (mapi_from_total
                (fun pixel idx =>
                   {| position := CoordinateMapping.idxToCoord_null m (Z.of_nat idx);
                      color := pixel |}) 0 f) as [out [Hout [Hlen _]]].
    exists f, out. repeat split; assumption.
  - intros H. unfold getCurrentFrameMapped, at_number.
    now rewrite (currentFrameIdx_not_finite s H).
  - eexists. split; [reflexivity|]. cbv zeta.
    split; [reflexivity|]. split; [reflexivity|].
    split; vm_compute; reflexivity.
Qed.

Lemma step_keeps_dirty (s : t Color) (o : op Color) :
  is_clearDirty o = false -> dirty s = true -> dirty (step s o) = true.
Proof.
  intros Ho Hd. destruct o; cbn [step]; try reflexivity; try discriminate.
  - exact Hd.
  - unfold processTimeAdvance. destruct (isPlaying s); [reflexivity|exact Hd].
  - unfold setPlaybackRate. destruct (strict_neqb _ _); exact Hd.
  - exact Hd.
Qed.

Lemma step_keeps_dirtyGeometry (s : t Color) (o : op Color) :
  is_clearGeometryDirty o = false -> dirtyGeometry s = true ->
  dirtyGeometry (step s o) = true.
Proof.
  intros Ho Hd. destruct o as [v|p|ro|d| | |dt|dt|r|b]; cbn [step];
    try exact Hd; try discriminate.
  - unfold setData. cbn. destruct (data_coordinateMapping d); [reflexivity|exact Hd].
  - unfold processTimeAdvance. destruct (isPlaying s); exact Hd.
  - unfold setPlaybackRate. destruct (strict_neqb _ _); exact Hd.
Qed.

(** X25.  A pending signal is never lost: once [dirty] is set it stays set
    through every sequence of operations without [clearDirty], and likewise
    [dirtyGeometry] without [clearGeometryDirty]. *)
Theorem dirty_flags_persist :
  forall (ops : list (op Color)) (s : t Color),
    (forallb (fun o => negb (is_clearDirty o)) ops = true ->
     dirty s = true -> dirty (run ops s) = true)
    /\
    (forallb (fun o => negb (is_clearGeometryDirty o)) ops = true ->
     dirtyGeometry s = true -> dirtyGeometry (run ops s) = true).
Proof.
  induction ops as [|o ops IH]; intros s; cbn.
  - split; intros _ H; exact H.
  - destruct (IH (step s o)) as [IH1 IH2]. split; intros Hops Hd;
      apply andb_prop in Hops; destruct Hops as [Ho Hops].
    + apply IH1; [exact Hops|]. apply step_keeps_dirty; [|exact Hd].
      now destruct (is_clearDirty o).
    + apply IH2; [exact Hops|]. apply step_keeps_dirtyGeometry; [|exact Hd].
      now destruct (is_clearGeometryDirty o).
Qed.

Lemma step_geometry_untouched (s : t Color) (o : op Color) :
  loads_mapping o = false ->
  dirtyGeometry s = false ->
  dirtyGeometry (step s o) = false /\
  coordinateMapping (step s o) = coordinateMapping s.
Proof.
  intros Ho Hd. destruct o as [v|p|ro|d| | |dt|dt|r|b]; cbn [step];
    try (split; [exact Hd|reflexivity]); try (split; reflexivity).
  - unfold setData. cbn. cbn in Ho.
    destruct (data_coordinateMapping d); [discriminate|]. split; [exact Hd|reflexivity].
  - unfold processTimeAdvance. destruct (isPlaying s); split; try exact Hd; reflexivity.
  - unfold setPlaybackRate. destruct (strict_neqb _ _); split; try exact Hd; reflexivity.
Qed.

Lemma step_mapping_untouched (s : t Color) (o : op Color) :
  loads_mapping o = false ->
  coordinateMapping (step s o) = coordinateMapping s.
Proof.
  intros Ho. destruct o as [v|p|ro|d| | |dt|dt|r|b]; cbn [step]; try reflexivity.
  - unfold setData. cbn. cbn in Ho.
    destruct (data_coordinateMapping d); [discriminate|reflexivity].
  - unfold processTimeAdvance. destruct (isPlaying s); reflexivity.
  - unfold setPlaybackRate. destruct (strict_neqb _ _); reflexivity.
Qed.

Lemma step_frames_untouched (s : t Color) (o : op Color) :
  loads_frames o = false ->
  animationFrames (step s o) = animationFrames s.
Proof.
  intros Ho. destruct o as [v|p|ro|d| | |dt|dt|r|b]; cbn [step]; try reflexivity.
  - unfold setData. cbn. cbn in Ho.
    destruct (data_animationFrames d); [discriminate|reflexivity].
  - unfold processTimeAdvance. destruct (isPlaying s); reflexivity.
  - unfold setPlaybackRate. destruct (strict_neqb _ _); reflexivity.
Qed.

(** X26.  Only [setData] replaces what is held.  Through every sequence of
    operations in which [setData] is never given a mapping, the held mapping
    stays the same and a cleared [dirtyGeometry] stays cleared; through
    every sequence in which it is never given frames, the held frames stay
    the same. *)
Theorem held_data_changes_only_with_setData :
  forall (ops : list (op Color)) (s : t Color),
    (forallb (fun o => negb (loads_mapping o)) ops = true ->
     coordinateMapping (run ops s) = coordinateMapping s /\
     (dirtyGeometry s = false -> dirtyGeometry (run ops s) = false))
    /\
    (forallb (fun o => negb (loads_frames o)) ops = true ->
     animationFrames (run ops s) = animationFrames s).
Proof.
  induction ops as [|o ops IH]; intros s; cbn.
  - split; [intros _; split; [reflexivity|auto]|reflexivity].
  - destruct (IH (step s o)) as [IH1 IH2]. split; intros Hops;
      apply andb_prop in Hops; destruct Hops as [Ho Hops].
    + assert (Ho' : loads_mapping o = false) by (now destruct (loads_mapping o)).
      destruct (IH1 Hops) as [Hm Hg]. split.
      * unfold run in Hm. rewrite Hm. now apply step_mapping_untouched.
      * intros Hd. apply Hg. now apply step_geometry_untouched.
    + assert (Ho' : loads_frames o = false) by (now destruct (loads_frames o)).
      unfold run in IH2. rewrite (IH2 Hops). now apply step_frames_untouched.
Qed.

Lemma step_keeps_clean (s : t Color) (o : op Color) :
  may_write_time o = false -> dirty s = false -> dirty (step s o) = false.
Proof.
  intros Ho Hd. destruct o as [v|p|ro|d| | |dt|dt|r|b]; cbn [step];
    try discriminate; try reflexivity; try exact Hd.
  unfold setPlaybackRate. destruct (strict_neqb _ _); exact Hd.
Qed.

(** X27.  The dirty flag is raised by time writes and by nothing else: a
    time write, a progress write, a reset, a data load and a relative seek
    each set it, so that [clearDirty] then returns [true] and, called again,
    [false]; through every sequence of rate changes, play/pause switches and
    flag reads a cleared flag stays cleared. *)
Theorem dirty_raised_only_by_time_writes :
  forall (s : t Color),
    (forall o, always_writes_time o = true ->
               fst (clearDirty (step s o)) = true /\
               fst (clearDirty (snd (clearDirty (step s o)))) = false)
    /\
    (forall ops, forallb (fun o => negb (may_write_time o)) ops = true ->
                 dirty s = false -> dirty (run ops s) = false).
Proof.
  intros s. split.
  - intros o Ho. destruct o; try discriminate; split; reflexivity.
  - intros ops. revert s. induction ops as [|o ops IH]; intros s Hops Hd; cbn in *.
    + exact Hd.
    + apply andb_prop in Hops. destruct Hops as [Ho Hops].
      apply IH; [exact Hops|]. apply step_keeps_clean; [|exact Hd].
      now destruct (may_write_time o).
Qed.

Lemma currentFrameIdx_bounds (s : t Color) :
  well_formed s -> 0 < baseFrameRate s -> (0 < frameCount s)%nat ->
  exists x r, currentFrameIdx s = Fin x /\ x == inject_Z r /\
              (0 <= r < Z.of_nat (frameCount s))%Z.
Proof.
  intros Hs Hb Hn.
  destruct (quotient_cases Hs Hb Hn) as [y [Hy Hy0]].
  destruct (currentFrameIdx_of_quotient s Hn Hy) as [x [Hx Ex]].
  assert (HK : (0 <= Qfloor y)%Z).
  { change 0%Z with (Qfloor 0). now apply Qfloor_resp_le. }
  exists x, (Z.rem (Qfloor y) (Z.of_nat (frameCount s))).
  split; [exact Hx|]. split; [exact Ex|].
  rewrite Z.rem_mod_nonneg by lia. apply Z.mod_pos_bound. lia.
Qed.

(** X28.  Progress is quantised to whole frames and stays below 1: for a
    well-formed controller with a positive frame rate and at least one
    frame, the frame index is an integer [r] with [0 <= r < frameCount] and
    [currentProgress] is the rounded quotient of [r] and [frameCount], a
    number [p] with [0 <= p < 1]. *)
Theorem currentProgress_in_unit_interval :
  forall (s : t Color),
    well_formed s -> 0 < baseFrameRate s -> (0 < frameCount s)%nat ->
    exists x p r,
      currentFrameIdx s = Fin x /\ x == inject_Z r /\
      (0 <= r < Z.of_nat (frameCount s))%Z /\
      currentProgress s = round (x / inject_Z (Z.of_nat (frameCount s))) /\
      currentProgress s = Fin p /\
      0 <= p /\ p < 1.
Proof.
  intros s Hwf Hb Hn.
  destruct (currentFrameIdx_bounds Hwf Hb Hn) as [x [r [Hx [Ex Hr]]]].
  destruct Hwf as [_ [_ Hn32]].
  set (N := inject_Z (Z.of_nat (frameCount s))).
  assert (HN : 0 < N) by (now apply of_nat_positive).
  assert (HN32 : N <= 2 ^ 32).
  { unfold N. change (2 ^ 32) with (inject_Z (2 ^ 32)). rewrite <- Zle_Qle. lia. }
  assert (Hr0 : 0 <= x).
  { rewrite Ex. change 0 with (inject_Z 0). rewrite <- Zle_Qle. lia. }
  assert (Hr1 : x + 1 <= N).
  { rewrite Ex. unfold N. change 1 with (inject_Z 1).
    rewrite <- inject_Z_plus, <- Zle_Qle. lia. }
  assert (Hdiv : currentProgress s = round (x / N)).
  { unfold currentProgress. rewrite Hx. unfold of_nat, of_Z, div. fold N.
    now rewrite Qzero_false by lra. }
  set (y := x / N) in *. set (w := 1 / N).
  assert (Hy0 : 0 <= y).
  { unfold y. apply Qle_shift_div_l; [exact HN|]. lra. }
  assert (Hyw : y + w <= 1).
  { assert (E : y + w == (x + 1) / N) by (unfold y, w; field; lra).
    rewrite E. apply Qle_shift_div_r; [exact HN|]. lra. }
  assert (Hw : 2 ^ (-32) <= w).
  { unfold w. apply Qle_shift_div_l; [exact HN|].
    assert (E : 2 ^ (-32) * 2 ^ 32 == 1) by reflexivity.
    assert (H : 2 ^ (-32) * N <= 2 ^ (-32) * 2 ^ 32).
    { apply Qmult_le_nonneg_l; [exact HN32|]. apply Qlt_le_weak, pow2_pos. }
    lra. }
  assert (Hy1 : y <= 2 ^ 1023).
  { assert (1 <= 2 ^ 1023) by (change 1 with (2 ^ 0); apply pow2_le; lia).
    pose proof (pow2_pos (-32)). lra. }
  destruct (round_nonneg_fin Hy0 Hy1) as [p [Ep [Hp0 [_ [_ Hp1]]]]].
  exists x, p, r. split; [exact Hx|]. split; [exact Ex|]. split; [exact Hr|].
  split; [exact Hdiv|]. split; [now rewrite Hdiv|]. split; [exact Hp0|].
  pose proof (ulp_bound_half Hy0) as Hu. unfold ulp_bound in Hp1.
  assert (Hy52 : y * 2 ^ (-52) <= 1 * 2 ^ (-52)).
  { apply Qmult_le_compat_r; [|apply Qlt_le_weak, pow2_pos].
    pose proof (pow2_pos (-32)). lra. }
  assert (Hc : 1 * 2 ^ (-52) + 2 ^ (-1074) < 2 ^ (-32)) by reflexivity.
  set (c := 2 ^ (-1074)) in *. set (b := 2 ^ (-52)) in *.
  set (a := 2 ^ (-32)) in *. set (yb := y * b) in *. lra.
Qed.

(** X29.  A paused controller does not move: while [isPlaying] is false,
    any number of [processTimeAdvance] calls leaves the controller exactly
    as it was (the dirty flag included). *)
Theorem paused_controller_does_not_move :
  forall (deltas : list Q) (s : t Color),
    isPlaying s = false ->
    run (map (ProcessTimeAdvance Color) deltas) s = s.
Proof.
  induction deltas as [|dt deltas IH]; intros s Hp; cbn.
  - reflexivity.
  - unfold processTimeAdvance. rewrite Hp. now apply IH.
Qed.

(** X30.  Arguments of moderate size keep a controller well formed.  For a
    controller built from options of moderate size, after any sequence of
    operations whose numeric arguments are at most [2^300] in magnitude,
    whose frame rates are doubles of magnitude from [2^-300] to [2^300] and
    whose frame arrays have fewer than [2^32] elements, no sum, product or
    quotient overflows: the controller is well formed, the frame duration
    is a number of magnitude at most [2^301], the duration is a number from
    [1e-9] to [2^334] and the stored time is a number from 0 to [2^700]. *)
Theorem moderate_run_well_formed :
  forall (o : options) (s0 : t Color) (ops : list (op Color)),
    new Color o = Ok s0 ->
    moderate_options o ->
    Forall (@moderate_op Color) ops ->
    let s := run ops s0 in
    well_formed s /\
    (exists f, frameDuration s = Fin f /\ Qabs f <= 2 ^ 301) /\
    (exists d, duration s = Fin d /\ epsilon <= d /\ d <= 2 ^ 334) /\
    (exists q, _currentTime s = Fin q /\ 0 <= q /\ q <= 2 ^ 700).
Proof.
  intros o s0 ops Hnew Ho Hops s.
  assert (Ht : tame s).
  { apply run_tame; [|exact Hops]. now apply new_tame with (o := o). }
  split; [now apply tame_well_formed|].
  destruct Ht as [Hr [_ [_ [Hq Hn]]]].
  split; [now apply tame_frameDuration|].
  split; [now apply tame_duration|exact Hq].
Qed.

End ControllerFacts.

(** ** The further properties at sample inputs *)

Module MoreSamples.

Import ChristmasTreeSimulator.

Lemma fresh_controller_is_new :
  new sample_color (with_baseFrameRate 2) = Ok fresh_controller.
Proof. reflexivity. Qed.

Lemma loaded_controller_well_formed :
  well_formed loaded_controller /\ 0 < baseFrameRate loaded_controller /\
  (0 < frameCount loaded_controller)%nat.
Proof.
  split; [|split; [reflexivity|vm_compute; lia]].
  split; [split|split].
  - vm_compute. discriminate.
  - unfold representable. vm_compute. reflexivity.
  - exists 0. split; [reflexivity|]. split; [apply Qle_refl|reflexivity].
  - vm_compute. reflexivity.
Qed.

Lemma currentTime_write_then_read_witness :
  _currentTime (set_currentTime (Fin (-1 # 4)) loaded_controller)
  = round (Qrem (-1 # 4) 1 + 1) /\
  0 < Qrem (-1 # 4) 1 + 1 /\ Qrem (-1 # 4) 1 + 1 <= 1.
Proof.
  assert (Hd : duration loaded_controller = Fin 1) by (vm_compute; reflexivity).
  apply (proj1 (proj2 (@currentTime_write_then_read sample_color loaded_controller
                         (-1 # 4) 1 Hd))).
  reflexivity.
Defined.

Lemma seekRelative_rounds_witness :
  _currentTime (seekRelative (Fin (7 # 4)) loaded_controller) = round (0 + (7 # 4)).
Proof.
  assert (Ht : currentTime loaded_controller = Fin 0) by (vm_compute; reflexivity).
  assert (Hs : 0 <= 0 + (7 # 4)) by (vm_compute; discriminate).
  exact (proj1 (@seekRelative_rounds sample_color loaded_controller 0 (7 # 4) Ht Hs)).
Defined.

Lemma duration_floor_witness :
  exists d, duration loaded_controller = Fin d /\ epsilon <= d /\ 1 <= d /\
            (d = epsilon \/ d = 1).
Proof.
  apply (proj1 (proj2 (proj2 (@duration_floor sample_color loaded_controller)))).
  vm_compute. reflexivity.
Defined.

Lemma duration_at_zero_rate_witness :
  exists s0, new sample_color (with_baseFrameRate 0) = Ok s0 /\
    frameDuration s0 = PInf /\
    ((0 < frameCount s0)%nat -> duration s0 = PInf) /\
    (frameCount s0 = 0%nat -> duration s0 = NaN /\ currentTime s0 = NaN).
Proof.
  eexists. split; [reflexivity|].
  apply duration_at_zero_rate. reflexivity.
Defined.

Lemma new_rejects_negative_startTime_witness :
  new sample_color (with_startTime (-1)) = Raise TypeError.
Proof.
  apply (proj1 (new_rejects_negative_startTime sample_color (with_startTime (-1)))).
  reflexivity.
Defined.

Lemma no_frames_no_current_frame_witness :
  currentFrameIdx fresh_controller = NaN /\
  currentProgress fresh_controller = NaN /\
  getCurrentFrameMapped fresh_controller = Raise TypeError.
Proof.
  apply no_frames_no_current_frame. reflexivity.
Defined.

Lemma getCurrentFrameMapped_with_mapping_witness :
  exists out,
    getCurrentFrameMapped loaded_controller = Ok out /\
    List.length out = List.length [Some red_pixel; None; Some red_pixel] /\
    forall i, nth_error out i
              = option_map (mapped_slot sample_mapping i)
                           (nth_error [Some red_pixel; None; Some red_pixel] i).
Proof.
  apply (@getCurrentFrameMapped_with_mapping sample_color loaded_controller).
  - reflexivity.
  - vm_compute. reflexivity.
Defined.

Lemma getCurrentFrameMapped_succeeds_witness :
  exists f out,
    In f (animationFrames loaded_controller) /\
    getCurrentFrameMapped loaded_controller = Ok out /\
    List.length out = List.length f.
Proof.
  destruct loaded_controller_well_formed as [Hwf [Hb Hn]].
  exact (proj1 (@getCurrentFrameMapped_succeeds sample_color loaded_controller
                  sample_mapping eq_refl) Hwf Hb Hn).
Defined.

Lemma dirty_flags_persist_witness :
  dirty (run quiet_ops fresh_controller) = true.
Proof.
  apply (proj1 (dirty_flags_persist quiet_ops fresh_controller)); reflexivity.
Defined.

Lemma held_data_changes_only_with_setData_witness :
  coordinateMapping (run quiet_ops loaded_controller)
  = coordinateMapping loaded_controller /\
  animationFrames (run quiet_ops loaded_controller)
  = animationFrames loaded_controller.
Proof.
  split.
  - apply (proj1 (held_data_changes_only_with_setData quiet_ops loaded_controller)).
    reflexivity.
  - apply (proj2 (held_data_changes_only_with_setData quiet_ops loaded_controller)).
    reflexivity.
Defined.

Lemma dirty_raised_only_by_time_writes_witness :
  (fst (clearDirty (step (snd (clearDirty loaded_controller))
                         (SeekRelative sample_color 1))) = true /\
   fst (clearDirty (snd (clearDirty (step (snd (clearDirty loaded_controller))
                                          (SeekRelative sample_color 1))))) = false)
  /\
  dirty (run quiet_ops (snd (clearDirty loaded_controller))) = false.
Proof.
  split.
  - apply (proj1 (dirty_raised_only_by_time_writes (snd (clearDirty loaded_controller)))).
    reflexivity.
  - apply (proj2 (dirty_raised_only_by_time_writes (snd (clearDirty loaded_controller))));
      reflexivity.
Defined.

Lemma currentProgress_in_unit_interval_witness :
  exists x p r,
    currentFrameIdx loaded_controller = Fin x /\ x == inject_Z r /\
    (0 <= r < Z.of_nat (frameCount loaded_controller))%Z /\
    currentProgress loaded_controller
    = round (x / inject_Z (Z.of_nat (frameCount loaded_controller))) /\
    currentProgress loaded_controller = Fin p /\
    0 <= p /\ p < 1.
Proof.
  destruct loaded_controller_well_formed as [Hwf [Hb Hn]].
  exact (@currentProgress_in_unit_interval sample_color loaded_controller Hwf Hb Hn).
Defined.

Lemma paused_controller_does_not_move_witness :
  run (map (ProcessTimeAdvance sample_color) [1; 5 # 2; -3]) loaded_controller
  = loaded_controller.
Proof.
  apply paused_controller_does_not_move. reflexivity.
Defined.

Lemma moderate_run_well_formed_witness :
  well_formed (run sample_ops fresh_controller) /\
  (exists f, frameDuration (run sample_ops fresh_controller) = Fin f /\
             Qabs f <= 2 ^ 301) /\
  (exists d, duration (run sample_ops fresh_controller) = Fin d /\
             epsilon <= d /\ d <= 2 ^ 334) /\
  (exists q, _currentTime (run sample_ops fresh_controller) = Fin q /\
             0 <= q /\ q <= 2 ^ 700).
Proof.
  apply (@moderate_run_well_formed sample_color (with_baseFrameRate 2)
           fresh_controller sample_ops).
  - reflexivity.
  - split; [exact I|]. split; [exact I|].
    split; [vm_compute; discriminate|]. split; [vm_compute; discriminate|].
    unfold representable. vm_compute. reflexivity.
  - repeat constructor; vm_compute; lia || discriminate.
Defined.

End MoreSamples.
